(** * Bank product recommender: the inference core

    A shallow embedding of [service/app/core/store.py] (the artifact store)
    and [service/app/core/predictor.py] (feature construction, scoring,
    ranking and filtering), with the properties of the service stated and
    proved over it.

    Conventions of the embedding:
    - a Python [int] is a [Z]; a finite Python [float] is the rational [Q]
      it denotes (classifier outputs and incomes are finite numbers; NaN and
      the infinities are outside the model);
    - a Python [str] is the string of its UTF-8 bytes;
    - a Python [dict] read by key is a [gmap]; the one dict whose iteration
      order is observed ([probabilities]) is an insertion-ordered
      association list;
    - code that can raise returns a [result]; the exception classes are the
      ones of the Python run-time;
    - the wall clock ([datetime.now()]) and the file system ([joblib.load])
      are explicit arguments;
    - metrics and logging have no effect on the values returned and are
      left out; the metrics observe [age] and [top_k], so that what is
      stated about a result of [predict] being returned is stated of the
      requests that the schema admits. *)

From Stdlib Require Import QArith Qround Ascii Lqa.
From stdpp Require Import gmap strings list sorting.

#[local] Open Scope Z_scope.
#[local] Set Warnings "-clear-no-such-hyp".

(** ** Exceptions and the error monad *)

Inductive exn :=
| ValueError (msg : string)
| KeyError (key : string)
| IndexError (msg : string)
| TypeError (msg : string)
| AttributeError (msg : string)
| OverflowError (msg : string)
| FileNotFoundError (path : string).

(** The name of the Python class of an exception. *)
Definition exn_class (e : exn) : string :=
  match e with
  | ValueError _ => "ValueError"
  | KeyError _ => "KeyError"
  | IndexError _ => "IndexError"
  | TypeError _ => "TypeError"
  | AttributeError _ => "AttributeError"
  | OverflowError _ => "OverflowError"
  | FileNotFoundError _ => "FileNotFoundError"
  end.

(** The text carried by an exception (its [str]). *)
Definition exn_message (e : exn) : string :=
  match e with
  | ValueError m | IndexError m | TypeError m | AttributeError m
  | OverflowError m => m
  | KeyError k => k
  | FileNotFoundError p => p
  end.

Inductive result (A : Type) :=
| Ok (a : A)
| Raise (e : exn).
Arguments Ok {A} a.
Arguments Raise {A} e.

#[global] Instance result_ret : MRet result := λ A, Ok.
#[global] Instance result_bind : MBind result := λ A B f m,
  match m with
  | Ok a => f a
  | Raise e => Raise e
  end.

Definition is_Ok {A : Type} (r : result A) : bool :=
  match r with
  | Ok _ => true
  | Raise _ => false
  end.

(** [for x in l: acc = body(acc, x)], where the body may raise. *)
Fixpoint for_each {A S : Type} (body : S → A → result S) (l : list A) (s : S)
  : result S :=
  match l with
  | [] => Ok s
  | x :: l' => s' ← body s x; for_each body l' s'
  end.

(** [d[k]] on a dict: [KeyError] when the key is absent. *)
Definition getitem {V : Type} (d : gmap string V) (k : string) : result V :=
  match d !! k with
  | Some v => Ok v
  | None => Raise (KeyError k)
  end.

(** ** Python built-ins used by the service *)

Module Py.

(** [l[:k]]: a negative bound counts from the end. *)
Definition slice_to {A : Type} (k : Z) (l : list A) : list A :=
  if (k <? 0)%Z
  then take (Z.to_nat (Z.of_nat (length l) + k)) l
  else take (Z.to_nat k) l.

(** [sep.join(l)]. *)
Fixpoint join (sep : string) (l : list string) : string :=
  match l with
  | [] => ""
  | [s] => s
  | s :: l' => s +:+ sep +:+ join sep l'
  end.

(** [repr] of a string without quotes, backslashes or control characters. *)
Definition repr_str (s : string) : string := "'" +:+ s +:+ "'".

(** [repr] of a set of strings. Python lists the members in hash order,
    which the language leaves open; the model lists them in the order of
    [elements]. *)
Definition repr_set (s : gset string) : string :=
  match elements s with
  | [] => "set()"
  | l => "{" +:+ join ", " (repr_str <$> l) +:+ "}"
  end.

(** *** Insertion-ordered dictionaries

    A key keeps the position of its first insertion; assigning to a key
    already present replaces the value in place. *)
Fixpoint setitem {V : Type} (k : string) (v : V) (d : list (string * V))
  : list (string * V) :=
  match d with
  | [] => [(k, v)]
  | (k', v') :: d' =>
      if decide (k = k') then (k, v) :: d' else (k', v') :: setitem k v d'
  end.

Fixpoint lookup_item {V : Type} (k : string) (d : list (string * V)) : option V :=
  match d with
  | [] => None
  | (k', v') :: d' => if decide (k = k') then Some v' else lookup_item k d'
  end.

(** *** [sorted(items, key=lambda x: x[1], reverse=True)]

    Python's sort is stable, also under [reverse=True]: items with equal
    keys keep their relative order. Insertion from the right, stopping at
    the first item whose key is not strictly larger, is such a sort. *)
Fixpoint insert_desc {A : Type} (x : A * Q) (l : list (A * Q)) : list (A * Q) :=
  match l with
  | [] => [x]
  | y :: l' =>
      if Qlt_le_dec (snd x) (snd y) then y :: insert_desc x l' else x :: l
  end.

Definition sorted_desc {A : Type} (l : list (A * Q)) : list (A * Q) :=
  foldr insert_desc [] l.

(** *** [round(x, 6)]

    Python rounds the exact value of the float to the nearest multiple of
    [10^-6], ties to the even multiple. *)
Definition round_half_even (q : Q) : Z :=
  let f := Qfloor q in
  match (q - inject_Z f ?= 1 # 2)%Q with
  | Lt => f
  | Gt => (f + 1)%Z
  | Eq => if Z.even f then f else (f + 1)%Z
  end.

Definition round6 (q : Q) : Q :=
  (round_half_even (q * inject_Z 1000000) # 1000000)%Q.

(** *** [float(n)] of an [int]

    The double nearest to [n]: an integer of at most 53 bits is kept, a
    longer one is rounded to 53 significant bits, a tie going to the even
    mantissa. A result of [2^1024] or beyond is an [OverflowError]. *)
Definition round_to_double (n : Z) : Z :=
  let a := Z.abs n in
  let e := Z.log2 a - 52 in
  if e <=? 0 then n
  else
    let q := a / 2 ^ e in
    let r := a mod 2 ^ e in
    let half := 2 ^ (e - 1) in
    let m :=
      if r <? half then q
      else if half <? r then q + 1
      else if Z.even q then q else q + 1 in
    Z.sgn n * (m * 2 ^ e).

Definition float_of_int (n : Z) : result Q :=
  let x := round_to_double n in
  if Z.abs x <? 2 ^ 1024 then Ok (inject_Z x)
  else Raise (OverflowError "int too large to convert to float").

(** *** [datetime] *)

Record datetime := { year : Z; month : Z; day : Z }.

Definition is_digit (c : Ascii.ascii) : bool :=
  let n := Ascii.nat_of_ascii c in (48 <=? n)%nat && (n <=? 57)%nat.

Definition in_range (lo hi : nat) (c : Ascii.ascii) : bool :=
  let n := Ascii.nat_of_ascii c in (lo <=? n)%nat && (n <=? hi)%nat.

Definition digit (c : Ascii.ascii) : Z := Z.of_nat (Ascii.nat_of_ascii c) - 48.

Definition is_leap (y : Z) : bool :=
  ((y mod 4 =? 0) && negb (y mod 100 =? 0) || (y mod 400 =? 0))%Z.

Definition days_in_month (y m : Z) : Z :=
  if (m =? 2)%Z then (if is_leap y then 29 else 28)
  else if ((m =? 4) || (m =? 6) || (m =? 9) || (m =? 11))%Z then 30
  else 31.

(** The field [%m]: the alternatives [1[0-2]], [0[1-9]], [[1-9]], tried in
    this order; returns the month and the rest of the input. *)
Definition parse_month (s : string) : option (Z * string) :=
  match s with
  | String a (String b r) =>
      if (a =? "1")%char && in_range 48 50 b then Some (10 + digit b, r)%Z
      else if (a =? "0")%char && in_range 49 57 b then Some (digit b, r)
      else if in_range 49 57 a then Some (digit a, String b r)
      else None
  | String a r => if in_range 49 57 a then Some (digit a, r) else None
  | EmptyString => None
  end.

(** The field [%d]: the alternatives [3[0-1]], [[1-2]\d], [0[1-9]],
    [[1-9]], [ [1-9]], tried in this order. *)
Definition parse_day (s : string) : option (Z * string) :=
  match s with
  | String a (String b r) =>
      if (a =? "3")%char && in_range 48 49 b then Some (30 + digit b, r)%Z
      else if in_range 49 50 a && is_digit b then Some (10 * digit a + digit b, r)%Z
      else if (a =? "0")%char && in_range 49 57 b then Some (digit b, r)
      else if in_range 49 57 a then Some (digit a, String b r)
      else if (a =? " ")%char && in_range 49 57 b then Some (digit b, r)
      else None
  | String a r => if in_range 49 57 a then Some (digit a, r) else None
  | EmptyString => None
  end.

(** [s.isascii()]: a byte from 128 on belongs to a character outside
    ASCII. *)
Definition is_ascii (s : string) : bool :=
  forallb (λ ch, (Ascii.nat_of_ascii ch <? 128)%nat) (String.list_ascii_of_string s).

(** [datetime.strptime(s, "%Y-%m-%d")] on ASCII input: four digits, a
    dash, a month, a dash, a day and nothing more, naming a day of the
    calendar; [None] stands for [ValueError]. The decimal digits outside
    ASCII, which the library accepts in the year and in the last digit of
    the day, are not modelled: on a string that is not [is_ascii] the
    definition says nothing about the library. *)
Definition strptime_ymd (s : string) : option datetime :=
  match s with
  | String y1 (String y2 (String y3 (String y4 (String dash1 r1)))) =>
      if is_digit y1 && is_digit y2 && is_digit y3 && is_digit y4
         && (dash1 =? "-")%char
      then
        let y := (1000 * digit y1 + 100 * digit y2 + 10 * digit y3 + digit y4)%Z in
        match parse_month r1 with
        | Some (m, String dash2 r2) =>
            if (dash2 =? "-")%char then
              match parse_day r2 with
              | Some (d, EmptyString) =>
                  if ((1 <=? y) && (d <=? days_in_month y m))%Z
                  then Some {| year := y; month := m; day := d |}
                  else None
              | _ => None
              end
            else None
        | _ => None
        end
      else None
  | _ => None
  end.

(** [str(e)] of an exception: its message, and for a [KeyError] the
    [repr] of the key. *)
Definition str_exn (e : exn) : string :=
  match e with
  | ValueError m | IndexError m | TypeError m | AttributeError m
  | OverflowError m => m
  | KeyError k => repr_str k
  | FileNotFoundError p => "[Errno 2] No such file or directory: " +:+ repr_str p
  end.

End Py.

(** ** The data model *)

(** A cell of the feature frame. [FLog1p x] is the float [numpy.log1p(x)],
    kept symbolic: only the classifiers consume it. [FMissing] is the
    marker pandas puts in a cell whose column is absent from the row. *)
Inductive fvalue :=
| FInt (z : Z)
| FFloat (q : Q)
| FLog1p (x : Q)
| FMissing.

(** A one-row [pandas.DataFrame]. *)
Record DataFrame := { columns : list string; values : list fvalue }.

(** A fitted [sklearn] [LabelEncoder]: [classes_] is the vocabulary, sorted
    and free of duplicates, and the code of a string is its index. *)
Record LabelEncoder := { classes_ : list string }.

Fixpoint index_of (value : string) (l : list string) : option nat :=
  match l with
  | [] => None
  | c :: l' => if decide (value = c) then Some 0%nat else S <$> index_of value l'
  end.

(** [int(encoder.transform([value])[0])]; an unseen label is a
    [ValueError]. *)
Definition transform (encoder : LabelEncoder) (value : string) : result Z :=
  match index_of value (classes_ encoder) with
  | Some i => Ok (Z.of_nat i)
  | None => Raise (ValueError "y contains previously unseen labels")
  end.

(** A binary classifier: [model.predict_proba(X)[0]], the row of class
    probabilities for the single row of [X]. *)
Abbreviation classifier := (DataFrame → result (list Q)).

(** The bundle deserialised from [model.bin]: a dict, each of whose keys
    may be absent. *)
Record Artifact := {
  art_models : option (gmap string classifier);
  art_feature_cols : option (list string);
  art_target_cols : option (list string);
  art_product_cols : option (list string);
  art_label_encoders : option (gmap string LabelEncoder);
  art_product_names : option (gmap string string);
  art_top20_canal : option (list string);
  art_top20_prov : option (list string)
}.

(** The request body ([ClientFeatures] of [models/schemas.py]). *)
Record ClientFeatures := {
  age : Z;
  renta : option Q;
  antiguedad : option Z;
  sexo : option string;
  segmento : option string;
  canal_entrada : option string;
  pais_residencia : option string;
  nomprov : option string;
  ind_empleado : option string;
  tiprel_1mes : option string;
  indresi : option string;
  indext : option string;
  indfall : option string;
  indrel_1mes : option string;
  ind_nuevo : option Z;
  indrel : option Z;
  ind_actividad_cliente : option Z;
  cod_prov : option Z;
  prev_products : gmap string Z;
  product_changes : option Z;
  fecha_dato : option string;
  top_k : Z
}.

(** ** store.py *)

Module ModelStore.

Definition EXPECTED_KEYS : gset string :=
  {[ "models"; "feature_cols"; "target_cols"; "product_cols";
     "label_encoders"; "product_names"; "top20_canal"; "top20_prov" ]}.

Record t := { _artifact : option Artifact; _loaded : bool }.

(** [ModelStore()] *)
Definition __init__ : t := {| _artifact := None; _loaded := false |}.

Definition key_if {A : Type} (k : string) (field : option A) : gset string :=
  match field with
  | Some _ => {[ k ]}
  | None => ∅
  end.

(** [set(self._artifact.keys())] *)
Definition keys (a : Artifact) : gset string :=
  key_if "models" (art_models a) ∪ key_if "feature_cols" (art_feature_cols a)
  ∪ key_if "target_cols" (art_target_cols a)
  ∪ key_if "product_cols" (art_product_cols a)
  ∪ key_if "label_encoders" (art_label_encoders a)
  ∪ key_if "product_names" (art_product_names a)
  ∪ key_if "top20_canal" (art_top20_canal a)
  ∪ key_if "top20_prov" (art_top20_prov a).

(** The four checks of [_validate], each giving the messages it appends to
    [errors]. *)
Definition check_keys (a : Artifact) : list string :=
  let missing_keys := EXPECTED_KEYS ∖ keys a in
  if decide (missing_keys = ∅) then []
  else ["Отсутствуют ключи: " +:+ Py.repr_set missing_keys].

Definition check_models (a : Artifact) : list string :=
  match art_models a with
  | Some models => if decide (size models = 0%nat) then ["Словарь моделей пуст"] else []
  | None => []
  end.

(** The f-string of lines 84-86. *)
Definition mismatch_message (model_keys product_set : gset string) : string :=
  "Несовпадение product_cols и ключей models: "
  +:+ "только в models=" +:+ Py.repr_set (model_keys ∖ product_set)
  +:+ ", только в product_cols=" +:+ Py.repr_set (product_set ∖ model_keys).

Definition check_product_cols (a : Artifact) : list string :=
  match art_models a, art_product_cols a with
  | Some models, Some product_cols =>
      let model_keys : gset string := dom models in
      let product_set : gset string := list_to_set product_cols in
      if decide (model_keys = product_set) then []
      else [mismatch_message model_keys product_set]
  | _, _ => []
  end.

Definition check_label_encoders (a : Artifact) : list string :=
  match art_label_encoders a with
  | Some encoders =>
      if decide (size encoders = 0%nat) then ["Словарь label_encoders пуст"] else []
  | None => []
  end.

(** The list [errors] at the end of [_validate]. *)
Definition errors (a : Artifact) : list string :=
  check_keys a ++ check_models a ++ check_product_cols a
  ++ check_label_encoders a.

Definition _validate (self : t) : result unit :=
  match _artifact self with
  | None => Raise (AttributeError "'NoneType' object has no attribute 'keys'")
  | Some a =>
      match errors a with
      | [] => Ok ()
      | errs =>
          let error_msg := Py.join "; " errs in
          Raise (ValueError ("Ошибка валидации модели: " +:+ error_msg))
      end
  end.

(** [load_model]: [disk] is what [joblib.load] finds under each path. The
    store after the call is returned with the outcome, since a failed call
    has already replaced [_artifact]. *)
Definition load_model (disk : gmap string Artifact) (self : t) (model_path : string)
  : t * result unit :=
  match disk !! model_path with
  | None => (self, Raise (FileNotFoundError model_path))
  | Some a =>
      let self := {| _artifact := Some a; _loaded := _loaded self |} in
      match _validate self with
      | Raise e => (self, Raise e)
      | Ok _ => ({| _artifact := _artifact self; _loaded := true |}, Ok ())
      end
  end.

Definition is_loaded (self : t) : bool := _loaded self.

(** The read accessors: [self._artifact[key]]. *)
Definition subscript {A : Type} (self : t) (key : string)
    (field : Artifact → option A) : result A :=
  match _artifact self with
  | None => Raise (TypeError "'NoneType' object is not subscriptable")
  | Some a =>
      match field a with
      | Some v => Ok v
      | None => Raise (KeyError key)
      end
  end.

Definition models (self : t) := subscript self "models" art_models.
Definition feature_cols (self : t) := subscript self "feature_cols" art_feature_cols.
Definition product_cols (self : t) := subscript self "product_cols" art_product_cols.
Definition product_names (self : t) := subscript self "product_names" art_product_names.
Definition label_encoders (self : t) :=
  subscript self "label_encoders" art_label_encoders.
Definition top20_canal (self : t) := subscript self "top20_canal" art_top20_canal.
Definition top20_prov (self : t) := subscript self "top20_prov" art_top20_prov.

(** The counts: [len] of the three collections. *)
Definition n_models (self : t) : result Z :=
  models ← models self; Ok (Z.of_nat (size models)).
Definition n_features (self : t) : result Z :=
  feature_cols ← feature_cols self; Ok (Z.of_nat (length feature_cols)).
Definition n_products (self : t) : result Z :=
  product_cols ← product_cols self; Ok (Z.of_nat (length product_cols)).

(** The dict returned by [get_stats]. *)
Record Stats := { stats_n_models : Z; stats_n_features : Z; stats_n_products : Z }.

Definition get_stats (self : t) : result Stats :=
  if negb (_loaded self)
  then Ok {| stats_n_models := 0; stats_n_features := 0; stats_n_products := 0 |}
  else
    n_models ← n_models self;
    n_features ← n_features self;
    n_products ← n_products self;
    Ok {| stats_n_models := n_models; stats_n_features := n_features;
          stats_n_products := n_products |}.

End ModelStore.

(** ** predictor.py *)

Definition DEFAULT_RENTA_BY_SEGMENT : gmap string Q :=
  <["01 - TOP" := 234340.0%Q]>
    (<["02 - PARTICULARES" := 101340.0%Q]>
      (<["03 - UNIVERSITARIO" := 86200.0%Q]> ∅)).
Definition DEFAULT_RENTA : Q := 101850.0%Q.
Definition DEFAULT_AGE : Z := 40.
Definition DEFAULT_ANTIGUEDAD : Z := 70.

Definition DATASET_START : Py.datetime :=
  {| Py.year := 2015; Py.month := 2; Py.day := 1 |}.

(** The body of the [try] is [transform]; [ValueError] and [KeyError] are
    the classes the handler catches, any other propagates. *)
Definition _safe_label_encode (encoder : LabelEncoder) (value : string) : result Z :=
  match transform encoder value with
  | Ok code => Ok code
  | Raise (ValueError _) | Raise (KeyError _) =>
      if decide ("nan" ∈ classes_ encoder)
      then transform encoder "nan"
      else Ok 0
  | Raise e => Raise e
  end.

(** One row of the output of [predict]. *)
Record Recommendation := {
  product_col : string;
  product_name : string;
  probability : Q
}.

Record Prediction := {
  recommendations : list Recommendation;
  n_current_products : Z
}.

Module BankPredictor.

Abbreviation features_t := (gmap string fvalue).

(** Line 111: [DEFAULT_RENTA_BY_SEGMENT.get(seg, DEFAULT_RENTA)], where
    [seg] may be [None]. *)
Definition default_renta (seg : option string) : Q :=
  default DEFAULT_RENTA (seg ← seg; DEFAULT_RENTA_BY_SEGMENT !! seg).

(** Lines 100-140: the numeric features, each converted by [float]. The
    schema makes [age] a required [int], so that the [None] branch of the
    source is never taken. *)
Definition numeric_features (client_data : ClientFeatures) (features : features_t)
  : result features_t :=
  let age := Z.max 18 (Z.min 100 (age client_data)) in
  value ← Py.float_of_int age;
  let features := <["age" := FFloat value]> features in
  let renta :=
    match renta client_data with
    | Some r => if Qle_bool r 0 then default_renta (segmento client_data) else r
    | None => default_renta (segmento client_data)
    end in
  let features := <["log_renta" := FLog1p renta]> features in
  let antiguedad :=
    match antiguedad client_data with
    | Some a => if (a =? -999999)%Z then DEFAULT_ANTIGUEDAD else a
    | None => DEFAULT_ANTIGUEDAD
    end in
  value ← Py.float_of_int antiguedad;
  let features := <["antiguedad" := FFloat value]> features in
  value ← Py.float_of_int (default 0%Z (ind_nuevo client_data));
  let features := <["ind_nuevo" := FFloat value]> features in
  value ← Py.float_of_int (default 1%Z (indrel client_data));
  let features := <["indrel" := FFloat value]> features in
  value ← Py.float_of_int (default 1%Z (ind_actividad_cliente client_data));
  let features := <["ind_actividad_cliente" := FFloat value]> features in
  value ← Py.float_of_int (default 28%Z (cod_prov client_data));
  Ok (<["cod_prov" := FFloat value]> features).

(** Lines 144-153: the dict [low_card_fields], in its order. *)
Definition low_card_fields (client_data : ClientFeatures)
  : list (string * option string) :=
  [ ("sexo", sexo client_data);
    ("ind_empleado", ind_empleado client_data);
    ("tiprel_1mes", tiprel_1mes client_data);
    ("indresi", indresi client_data);
    ("indext", indext client_data);
    ("indfall", indfall client_data);
    ("segmento", segmento client_data);
    ("indrel_1mes", indrel_1mes client_data) ].

(** Lines 155-158: the body of the loop over [low_card_fields]. *)
Definition encode_field (label_encoders : gmap string LabelEncoder)
    (features : features_t) (item : string * option string) : result features_t :=
  let '(col_name, value) := item in
  enc ← getitem label_encoders col_name;
  let val_str := default "nan" value in
  code ← _safe_label_encode enc val_str;
  Ok (<[col_name +:+ "_enc" := FInt code]> features).

(** Lines 160-182: a value outside the whitelist becomes ["OTHER"]. *)
Definition clean (whitelist : list string) (value : option string) : string :=
  match value with
  | Some v => if decide (v ∈ whitelist) then v else "OTHER"
  | None => "OTHER"
  end.

(** Lines 184-191: the loop over [product_cols], on the pair of [features]
    and [n_products]. *)
Definition prev_step (prev_products : gmap string Z)
    (acc : features_t * Z) (col : string) : features_t * Z :=
  let '(features, n_products) := acc in
  let val := default 0%Z (prev_products !! col) in
  let val := if decide (val = 0%Z) then 0%Z else 1%Z in
  (<["prev_" +:+ col := FInt val]> features, (n_products + val)%Z).

(** Lines 197-204: the observation date, or the clock. *)
Definition observation_date (now : Py.datetime) (client_data : ClientFeatures)
  : Py.datetime :=
  match fecha_dato client_data with
  | Some s =>
      if decide (s = "") then now
      else default now (Py.strptime_ymd s)
  | None => now
  end.

(** Lines 98-208: the dict [features]. *)
Definition build_features (product_cols : list string)
    (label_encoders : gmap string LabelEncoder)
    (top20_canal top20_prov : list string)
    (now : Py.datetime) (client_data : ClientFeatures) : result features_t :=
  features ← numeric_features client_data ∅;
  features ← for_each (encode_field label_encoders)
                      (low_card_fields client_data) features;
  let canal_clean := clean top20_canal (canal_entrada client_data) in
  enc ← getitem label_encoders "canal_entrada";
  code ← _safe_label_encode enc canal_clean;
  let features := <["canal_entrada_enc" := FInt code]> features in
  let pais := pais_residencia client_data in
  let features :=
    <["pais_residencia_enc" :=
        FInt (if decide (pais = Some "ES") then 1 else 0)]> features in
  let prov_clean := clean top20_prov (nomprov client_data) in
  enc ← getitem label_encoders "nomprov";
  code ← _safe_label_encode enc prov_clean;
  let features := <["nomprov_enc" := FInt code]> features in
  let '(features, n_products) :=
    fold_left (prev_step (prev_products client_data)) product_cols (features, 0%Z) in
  let features := <["n_products" := FInt n_products]> features in
  let features :=
    <["product_changes" := FInt (default 0%Z (product_changes client_data))]>
      features in
  let dt := observation_date now client_data in
  let features := <["month" := FInt (Py.month dt)]> features in
  let months_since :=
    ((Py.year dt - Py.year DATASET_START) * 12
     + (Py.month dt - Py.month DATASET_START))%Z in
  let features := <["months_since_start" := FInt (Z.max 0 months_since)]> features in
  Ok features.

(** Lines 210-212: the dict [row], one key per name of [feature_cols], and
    the frame read from it column by column. *)
Definition make_row (feature_cols : list string) (features : features_t)
  : features_t :=
  fold_left (λ row col, <[col := default (FInt 0) (features !! col)]> row)
            feature_cols ∅.

Definition make_frame (feature_cols : list string) (row : features_t) : DataFrame :=
  {| columns := feature_cols;
     values := (λ col, default FMissing (row !! col)) <$> feature_cols |}.

Definition _preprocess (store : ModelStore.t) (now : Py.datetime)
    (client_data : ClientFeatures) : result DataFrame :=
  feature_cols ← ModelStore.feature_cols store;
  product_cols ← ModelStore.product_cols store;
  label_encoders ← ModelStore.label_encoders store;
  top20_canal ← ModelStore.top20_canal store;
  top20_prov ← ModelStore.top20_prov store;
  features ← build_features product_cols label_encoders top20_canal top20_prov
                            now client_data;
  let row := make_row feature_cols features in
  Ok (make_frame feature_cols row).

(** Line 244: the probability of the positive class. *)
Definition positive_class (prob : list Q) : result Q :=
  match prob with
  | _ :: p1 :: _ => Ok p1
  | [p0] => Ok p0
  | [] => Raise (IndexError "index 0 is out of bounds for axis 0 with size 0")
  end.

(** Lines 240-246: the body of the scoring loop. *)
Definition score_step (models : gmap string classifier) (X : DataFrame)
    (probabilities : list (string * Q)) (col : string)
  : result (list (string * Q)) :=
  model ← getitem models col;
  prob ← model X;
  p1 ← positive_class prob;
  Ok (Py.setitem col p1 probabilities).

Definition score (models : gmap string classifier) (X : DataFrame)
    (product_cols : list string) : result (list (string * Q)) :=
  for_each (score_step models X) product_cols [].

(** Lines 250-252: the body of the exclusion loop. *)
Definition exclude_step (prev_products : gmap string Z)
    (probabilities : list (string * Q)) (col : string) : list (string * Q) :=
  if decide (default 0%Z (prev_products !! col) = 1%Z)
  then Py.setitem col 0%Q probabilities
  else probabilities.

Definition exclude_owned (prev_products : gmap string Z)
    (product_cols : list string) (probabilities : list (string * Q))
  : list (string * Q) :=
  fold_left (exclude_step prev_products) product_cols probabilities.

(** Lines 259-267: an entry of the slice becomes a recommendation when its
    probability is positive. *)
Definition recommend (product_names : gmap string string)
    (entry : string * Q) : option Recommendation :=
  let '(col, prob) := entry in
  if Qlt_le_dec 0 prob
  then Some {| product_col := col;
               product_name := default col (product_names !! col);
               probability := Py.round6 prob |}
  else None.

(** Line 269. *)
Definition count_owned (prev_products : gmap string Z) (product_cols : list string)
  : Z :=
  Z.of_nat (length (filter (λ col, default 0%Z (prev_products !! col) = 1%Z)
                           product_cols)).

Definition predict (store : ModelStore.t) (now : Py.datetime)
    (client_data : ClientFeatures) : result Prediction :=
  models ← ModelStore.models store;
  product_cols ← ModelStore.product_cols store;
  product_names ← ModelStore.product_names store;
  X ← _preprocess store now client_data;
  probabilities ← score models X product_cols;
  let prev_products := prev_products client_data in
  let probabilities := exclude_owned prev_products product_cols probabilities in
  let sorted_products := Py.sorted_desc probabilities in
  let top_k := top_k client_data in
  let recommendations :=
    omap (recommend product_names) (Py.slice_to top_k sorted_products) in
  let n_current := count_owned prev_products product_cols in
  Ok {| recommendations := recommendations; n_current_products := n_current |}.

End BankPredictor.

(** ** models/schemas.py: the response models *)

Module Schemas.

(** [ProductRecommendation]: [product_name] has [min_length=1] and
    [probability] has [ge=0.0, le=1.0]. *)
Definition valid_recommendation (r : Recommendation) : bool :=
  negb (String.eqb (product_name r) "")
  && Qle_bool 0 (probability r) && Qle_bool (probability r) 1.

(** [PredictionResponse]: at most 22 recommendations, each valid, and
    [n_current_products] with [ge=0]. *)
Definition valid_prediction (r : Prediction) : bool :=
  forallb valid_recommendation (recommendations r)
  && (length (recommendations r) <=? 22)%nat
  && (0 <=? n_current_products r).

Record HealthResponse := {
  status : string;
  model_loaded : bool;
  n_models : Z;
  n_features : Z;
  n_products : Z
}.

(** [HealthResponse]: the three counts have [ge=0]. *)
Definition valid_health (r : HealthResponse) : bool :=
  (0 <=? n_models r) && (0 <=? n_features r) && (0 <=? n_products r).

Record ModelInfoResponse := {
  info_n_models : Z;
  info_feature_cols : list string;
  info_product_cols : list string;
  info_product_names : gmap string string
}.

Definition valid_model_info (r : ModelInfoResponse) : bool :=
  0 <=? info_n_models r.

(** The constraints of [ClientFeatures] on a request: [age] has
    [ge=0, le=150] and [top_k] has [ge=1, le=22]. *)
Definition valid_client (c : ClientFeatures) : bool :=
  (0 <=? age c) && (age c <=? 150) && (1 <=? top_k c) && (top_k c <=? 22).

End Schemas.

(** ** api/routes.py: the endpoints *)

Module Routes.

(** What an endpoint does with a request: it returns a body, raises an
    [HTTPException], lets an exception of the core escape, or fails to build
    its response model (a pydantic [ValidationError], which escapes too). *)
Inductive outcome (A : Type) :=
| Returns (body : A)
| HTTPException (status_code : Z) (detail : string)
| Escapes (e : exn)
| ResponseInvalid.
Arguments Returns {A} body.
Arguments HTTPException {A} status_code detail.
Arguments Escapes {A} e.
Arguments ResponseInvalid {A}.

Definition not_ready {A : Type} : outcome A :=
  HTTPException 503 "Сервис не готов — модель не загружена".

(** The guard [store is None or not store.is_loaded()]. *)
Definition unavailable (store : option ModelStore.t) : bool :=
  match store with
  | None => true
  | Some s => negb (ModelStore.is_loaded s)
  end.

Definition health_check (store : option ModelStore.t)
  : outcome Schemas.HealthResponse :=
  match store with
  | None => not_ready
  | Some s =>
      if negb (ModelStore.is_loaded s) then not_ready
      else
        match ModelStore.get_stats s with
        | Raise e => Escapes e
        | Ok stats =>
            let r := {| Schemas.status := "healthy";
                        Schemas.model_loaded := true;
                        Schemas.n_models := ModelStore.stats_n_models stats;
                        Schemas.n_features := ModelStore.stats_n_features stats;
                        Schemas.n_products := ModelStore.stats_n_products stats |} in
            if Schemas.valid_health r then Returns r else ResponseInvalid
        end
  end.

Definition model_info (store : option ModelStore.t)
  : outcome Schemas.ModelInfoResponse :=
  match store with
  | None => not_ready
  | Some s =>
      if negb (ModelStore.is_loaded s) then not_ready
      else
        match
          n_models ← ModelStore.n_models s;
          feature_cols ← ModelStore.feature_cols s;
          product_cols ← ModelStore.product_cols s;
          product_names ← ModelStore.product_names s;
          Ok {| Schemas.info_n_models := n_models;
                Schemas.info_feature_cols := feature_cols;
                Schemas.info_product_cols := product_cols;
                Schemas.info_product_names := product_names |}
        with
        | Raise e => Escapes e
        | Ok r => if Schemas.valid_model_info r then Returns r else ResponseInvalid
        end
  end.

(** [predict]: [predictor] is the store held by the [BankPredictor] that
    [get_predictor()] returns, when there is one; in the application it is
    the object that [get_store()] returns. *)
Definition predict (store predictor : option ModelStore.t) (now : Py.datetime)
    (client : ClientFeatures) : outcome Prediction :=
  match store with
  | None => not_ready
  | Some s =>
      if negb (ModelStore.is_loaded s) then not_ready
      else
        let attempt :=
          match predictor with
          | None =>
              Raise (AttributeError
                       "'NoneType' object has no attribute 'predict'")
          | Some p => BankPredictor.predict p now client
          end in
        match attempt with
        | Raise e =>
            HTTPException 422 ("Ошибка предсказания: " +:+ Py.str_exn e)
        | Ok result =>
            if Schemas.valid_prediction result then Returns result
            else ResponseInvalid
        end
  end.

End Routes.

(** ** Vocabulary of the statements *)

(** [desc x y]: [y] may follow [x] in a list sorted by descending
    probability. *)
Definition desc {A : Type} : relation (A * Q) := λ x y, (y.2 <= x.2)%Q.

(** The probability the scoring loop assigns to a product: the positive
    class of the answer of its classifier. *)
Definition scored (models : gmap string classifier) (X : DataFrame)
    (col : string) (p : Q) : Prop :=
  ∃ model prob,
    models !! col = Some model
    ∧ model X = Ok prob
    ∧ BankPredictor.positive_class prob = Ok p.

(** The test of the exclusion loop and of the owned count. *)
Definition owned (prev : gmap string Z) (col : string) : Prop :=
  default 0 (prev !! col) = 1.

#[global] Instance owned_dec prev col : Decision (owned prev col).
Proof. unfold owned. apply _. Defined.

(** The test of the feature block: any flag other than 0 counts. *)
Definition truthy (prev : gmap string Z) (col : string) : Prop :=
  default 0 (prev !! col) ≠ 0.

#[global] Instance truthy_dec prev col : Decision (truthy prev col).
Proof. unfold truthy. apply _. Defined.

(** The income the feature is computed from, in the words of the
    specification: the income of the request when present and positive,
    else the default of the segment. *)
Definition spec_segment_default (seg : option string) : Q :=
  if decide (seg = Some "01 - TOP") then 234340.0%Q
  else if decide (seg = Some "02 - PARTICULARES") then 101340.0%Q
  else if decide (seg = Some "03 - UNIVERSITARIO") then 86200.0%Q
  else 101850.0%Q.

Definition spec_income (c : ClientFeatures) : Q :=
  match renta c with
  | Some r => if Qlt_le_dec 0 r then r else spec_segment_default (segmento c)
  | None => spec_segment_default (segmento c)
  end.

(** The fields that [_preprocess] encodes with a label encoder. *)
Definition encoded_fields : list string :=
  ["sexo"; "ind_empleado"; "tiprel_1mes"; "indresi"; "indext"; "indfall";
   "segmento"; "indrel_1mes"; "canal_entrada"; "nomprov"].

(** A store whose bundle has what [_preprocess] reads: the five
    collections and an encoder for each encoded field. *)
Definition serves_features (store : ModelStore.t) : Prop :=
  ∃ a fcs pcs encs canal prov,
    ModelStore._artifact store = Some a
    ∧ art_feature_cols a = Some fcs
    ∧ art_product_cols a = Some pcs
    ∧ art_label_encoders a = Some encs
    ∧ art_top20_canal a = Some canal
    ∧ art_top20_prov a = Some prov
    ∧ ∀ name, name ∈ encoded_fields → is_Some (encs !! name).

(** A request whose observation date is present and well-formed. *)
Definition dated (c : ClientFeatures) : Prop :=
  ∃ s dt, fecha_dato c = Some s ∧ Py.strptime_ymd s = Some dt.

(** An [int] that [float] converts: its nearest double is finite. *)
Definition fits_float (n : Z) : Prop := Z.abs n < 2 ^ 1024 - 2 ^ 970.

(** The cell [key] holds [float(n)]: a double within half a unit in the
    last place of [n], and [n] itself when [n] has at most 53 bits. *)
Definition holds_float (features : gmap string fvalue) (key : string) (n : Z)
  : Prop :=
  ∃ x, features !! key = Some (FFloat (inject_Z x))
       ∧ Py.float_of_int n = Ok (inject_Z x)
       ∧ 2 * Z.abs (x - n) ≤ 2 ^ (Z.log2 (Z.abs n) - 52)
       ∧ (Z.abs n ≤ 2 ^ 53 → x = n).

(** A request whose integers, in the five fields that [_preprocess]
    converts with [float], are all of that kind. *)
Definition float_range (c : ClientFeatures) : Prop :=
  ∀ n, Some n ∈ [antiguedad c; ind_nuevo c; indrel c;
                 ind_actividad_cliente c; cod_prov c] →
       fits_float n.

(** A request whose [product_changes], the one integer of the request
    that enters the frame as it is, is in the range of a double as well. *)
Definition changes_in_range (c : ClientFeatures) : Prop :=
  ∀ n, product_changes c = Some n → fits_float n.

(** The violations of the artifact checks, in the words of the
    specification. *)
Definition missing_expected_keys (a : Artifact) : Prop :=
  ¬ ModelStore.EXPECTED_KEYS ⊆ ModelStore.keys a.

Definition empty_classifiers (a : Artifact) : Prop := art_models a = Some ∅.

Definition key_mismatch (a : Artifact) : Prop :=
  ∃ models pcs,
    art_models a = Some models ∧ art_product_cols a = Some pcs
    ∧ dom models ≠ list_to_set pcs.

Definition empty_encoders (a : Artifact) : Prop := art_label_encoders a = Some ∅.

Definition violation (a : Artifact) : Prop :=
  missing_expected_keys a ∨ empty_classifiers a ∨ key_mismatch a
  ∨ empty_encoders a.

(** ** A small deployment, used to run the code on concrete requests *)

Module Demo.

Definition encoder : LabelEncoder := {| classes_ := ["H"; "V"; "nan"] |}.

Definition label_encoders : gmap string LabelEncoder :=
  list_to_map ((λ name, (name, encoder)) <$>
    ["sexo"; "ind_empleado"; "tiprel_1mes"; "indresi"; "indext"; "indfall";
     "segmento"; "indrel_1mes"; "canal_entrada"; "nomprov"]).

(** A classifier whose answer does not depend on the client. *)
Definition constant (p : Q) : classifier := λ _, Ok [(1 - p)%Q; p].

(** A classifier that answered with a single class at training time. *)
Definition single (p : Q) : classifier := λ _, Ok [p].

(** A classifier that reads the first column of the frame, [month]: the
    product sells in January only. *)
Definition seasonal : classifier := λ X,
  match values X with
  | FInt 1 :: _ => Ok [0.5%Q; 0.5%Q]
  | _ => Ok [1%Q; 0%Q]
  end.

Definition models : gmap string classifier :=
  <["A" := constant 0.7%Q]>
    (<["B" := seasonal]>
      (<["C" := constant 0.0000001%Q]>
        (<["D" := single 0.2%Q]> ∅))).

Definition artifact : Artifact := {|
  art_models := Some models;
  art_feature_cols :=
    Some ["month"; "age"; "log_renta"; "prev_A"; "n_products"; "unused"];
  art_target_cols := Some ["A"; "B"; "C"; "D"];
  art_product_cols := Some ["A"; "B"; "C"; "D"];
  art_label_encoders := Some label_encoders;
  art_product_names := Some {[ "A" := "Current account" ]};
  art_top20_canal := Some ["KHE"];
  art_top20_prov := Some ["MADRID"]
|}.

(** A bundle that violates two checks at once: two keys are missing and
    the classifier mapping is empty. *)
Definition broken : Artifact := {|
  art_models := Some ∅;
  art_feature_cols := Some ["age"];
  art_target_cols := None;
  art_product_cols := Some [];
  art_label_encoders := Some label_encoders;
  art_product_names := Some ∅;
  art_top20_canal := Some [];
  art_top20_prov := None
|}.

Definition disk : gmap string Artifact :=
  <["model.bin" := artifact]> (<["broken.bin" := broken]> ∅).

Definition store : ModelStore.t :=
  (ModelStore.load_model disk ModelStore.__init__ "model.bin").1.

(** The minimal request: [age], [prev_products] and [top_k]. *)
Definition client (owned : gmap string Z) (k : Z) : ClientFeatures := {|
  age := 35; renta := None; antiguedad := None; sexo := None;
  segmento := Some "01 - TOP"; canal_entrada := None; pais_residencia := None;
  nomprov := None; ind_empleado := None; tiprel_1mes := None; indresi := None;
  indext := None; indfall := None; indrel_1mes := None; ind_nuevo := None;
  indrel := None; ind_actividad_cliente := None; cod_prov := None;
  prev_products := owned; product_changes := Some 0;
  fecha_dato := None; top_k := k
|}.

Definition with_date (c : ClientFeatures) (date : string) : ClientFeatures := {|
  age := age c; renta := renta c; antiguedad := antiguedad c; sexo := sexo c;
  segmento := segmento c; canal_entrada := canal_entrada c;
  pais_residencia := pais_residencia c; nomprov := nomprov c;
  ind_empleado := ind_empleado c; tiprel_1mes := tiprel_1mes c;
  indresi := indresi c; indext := indext c; indfall := indfall c;
  indrel_1mes := indrel_1mes c; ind_nuevo := ind_nuevo c; indrel := indrel c;
  ind_actividad_cliente := ind_actividad_cliente c; cod_prov := cod_prov c;
  prev_products := prev_products c; product_changes := product_changes c;
  fecha_dato := Some date; top_k := top_k c
|}.

(** A request with the five integers given, the first of 54 bits. *)
Definition long_standing : ClientFeatures := {|
  age := 35; renta := None; antiguedad := Some 9007199254740993; sexo := None;
  segmento := Some "01 - TOP"; canal_entrada := None; pais_residencia := None;
  nomprov := None; ind_empleado := None; tiprel_1mes := None; indresi := None;
  indext := None; indfall := None; indrel_1mes := None; ind_nuevo := Some 0;
  indrel := Some 99; ind_actividad_cliente := Some 1; cod_prov := Some 8;
  prev_products := ∅; product_changes := Some 0;
  fecha_dato := None; top_k := 2
|}.

(** A request with an integer beyond the range of a double. *)
Definition overflowing : ClientFeatures := {|
  age := 35; renta := None; antiguedad := Some (10 ^ 400); sexo := None;
  segmento := Some "01 - TOP"; canal_entrada := None; pais_residencia := None;
  nomprov := None; ind_empleado := None; tiprel_1mes := None; indresi := None;
  indext := None; indfall := None; indrel_1mes := None; ind_nuevo := None;
  indrel := None; ind_actividad_cliente := None; cod_prov := None;
  prev_products := ∅; product_changes := Some 0;
  fecha_dato := None; top_k := 2
|}.

Definition january : Py.datetime := {| Py.year := 2016; Py.month := 1; Py.day := 15 |}.
Definition june : Py.datetime := {| Py.year := 2016; Py.month := 6; Py.day := 15 |}.

(** A bundle that passes validation although it has an encoder for one
    field only. *)
Definition uncovered : Artifact := {|
  art_models := art_models artifact;
  art_feature_cols := art_feature_cols artifact;
  art_target_cols := art_target_cols artifact;
  art_product_cols := art_product_cols artifact;
  art_label_encoders := Some {[ "sexo" := encoder ]};
  art_product_names := art_product_names artifact;
  art_top20_canal := art_top20_canal artifact;
  art_top20_prov := art_top20_prov artifact
|}.

Definition uncovered_disk : gmap string Artifact := {[ "uncovered.bin" := uncovered ]}.

(** A bundle whose classifiers all answer 0.5, held by a loaded store. *)
Definition flat : Artifact := {|
  art_models :=
    Some (<["A" := constant 0.5%Q]>
            (<["B" := constant 0.5%Q]>
               (<["C" := constant 0.5%Q]> (<["D" := constant 0.5%Q]> ∅))));
  art_feature_cols := art_feature_cols artifact;
  art_target_cols := art_target_cols artifact;
  art_product_cols := art_product_cols artifact;
  art_label_encoders := art_label_encoders artifact;
  art_product_names := art_product_names artifact;
  art_top20_canal := art_top20_canal artifact;
  art_top20_prov := art_top20_prov artifact
|}.

Definition flat_store : ModelStore.t :=
  {| ModelStore._artifact := Some flat; ModelStore._loaded := true |}.

End Demo.

(** * Properties *)

(** ** The error monad *)

Lemma bind_Ok {A B : Type} (m : result A) (f : A → result B) (b : B) :
  m ≫= f = Ok b → ∃ a, m = Ok a ∧ f a = Ok b.
Proof. destruct m as [a|e]; simpl; [eauto | discriminate]. Qed.

Ltac inv_bind H :=
  let a := fresh "x" in
  let E := fresh "E" in
  apply bind_Ok in H as (a & E & H).

(** Membership in a list written out. *)
Ltac in_literal :=
  repeat first [apply list_elem_of_here | apply list_elem_of_further].

(** [float_range] of a request written out. *)
Ltac float_range_literal :=
  let n := fresh "n" in
  let Hn := fresh "Hn" in
  intros n Hn;
  repeat (apply elem_of_cons in Hn as [Hn|Hn];
          [cbv in Hn;
           first [discriminate Hn
                 | injection Hn as ->; vm_compute; reflexivity]|]);
  exfalso; exact (proj1 (elem_of_nil _) Hn).

(** ** Concrete runs of the built-ins *)

(** Equal probabilities keep the order of the catalog. *)
Example sorted_desc_stable :
  Py.sorted_desc [("A", 0.5%Q); ("B", 0.7%Q); ("C", 0.5%Q); ("D", 0.9%Q)]
  = [("D", 0.9%Q); ("B", 0.7%Q); ("A", 0.5%Q); ("C", 0.5%Q)].
Proof. reflexivity. Qed.

Example setitem_keeps_position :
  Py.setitem "A" 0%Q [("A", 0.3%Q); ("B", 0.7%Q)] = [("A", 0%Q); ("B", 0.7%Q)].
Proof. reflexivity. Qed.

Example slice_to_negative : Py.slice_to (-1) ["A"; "B"; "C"] = ["A"; "B"].
Proof. reflexivity. Qed.

Example round6_rounds :
  Py.round6 0.1234567%Q = 0.123457%Q ∧ Py.round6 0.0000025%Q = 0.000002%Q
  ∧ Py.round6 0.0000001%Q = 0.000000%Q.
Proof. by vm_compute. Qed.

Example float_of_int_runs :
  Py.float_of_int 70 = Ok (inject_Z 70)
  ∧ Py.float_of_int 9007199254740993 = Ok (inject_Z 9007199254740992)
  ∧ Py.float_of_int (-9007199254740995) = Ok (inject_Z (-9007199254740996))
  ∧ Py.float_of_int (2 ^ 1024 - 2 ^ 970 - 1)
    = Ok (inject_Z (2 ^ 1024 - 2 ^ 971))
  ∧ Py.float_of_int (2 ^ 1024 - 2 ^ 970)
    = Raise (OverflowError "int too large to convert to float")
  ∧ Py.float_of_int (10 ^ 400)
    = Raise (OverflowError "int too large to convert to float").
Proof. vm_compute. repeat split. Qed.

Example strptime_ymd_runs :
  Py.strptime_ymd "2016-05-28"
  = Some {| Py.year := 2016; Py.month := 5; Py.day := 28 |}
  ∧ Py.strptime_ymd "2016-5-8"
    = Some {| Py.year := 2016; Py.month := 5; Py.day := 8 |}
  ∧ Py.strptime_ymd "2015-02-29" = None
  ∧ Py.strptime_ymd "2016-05-28T00:00" = None
  ∧ Py.strptime_ymd "not-a-date" = None.
Proof. by vm_compute. Qed.

(** The validation message of a bundle with two violations. *)
Example validate_broken :
  ModelStore._validate
    {| ModelStore._artifact := Some Demo.broken; ModelStore._loaded := false |}
  = Raise (ValueError
             ("Ошибка валидации модели: "
              +:+ "Отсутствуют ключи: {'top20_prov', 'target_cols'}; "
              +:+ "Словарь моделей пуст")).
Proof. vm_compute. reflexivity. Qed.

(** ** Sorting in descending order *)

Section sorting.
Context {A : Type}.
Implicit Types (x : A * Q) (l : list (A * Q)).

Lemma insert_desc_perm x l : Py.insert_desc x l ≡ₚ x :: l.
Proof.
  induction l as [|y l IH]; simpl; [done|].
  destruct (Qlt_le_dec x.2 y.2); [|done].
  rewrite IH. apply Permutation_swap.
Qed.

Lemma sorted_desc_perm l : Py.sorted_desc l ≡ₚ l.
Proof.
  induction l as [|x l IH]; simpl; [done|].
  by rewrite insert_desc_perm, IH.
Qed.

Lemma insert_desc_sorted x l :
  StronglySorted desc l → StronglySorted desc (Py.insert_desc x l).
Proof.
  induction 1 as [|y l Hl IH Hy]; simpl.
  - repeat constructor.
  - destruct (Qlt_le_dec x.2 y.2) as [Hlt|Hle].
    + constructor; [done|].
      rewrite insert_desc_perm. constructor; [|done].
      unfold desc. by apply Qlt_le_weak.
    + constructor; [by constructor|].
      constructor; [done|].
      eapply Forall_impl; [exact Hy|].
      unfold desc. intros z Hz. by apply Qle_trans with y.2.
Qed.

Lemma sorted_desc_sorted l : StronglySorted desc (Py.sorted_desc l).
Proof.
  induction l; simpl; [constructor | by apply insert_desc_sorted].
Qed.
End sorting.

Lemma StronglySorted_take {A : Type} (R : relation A) (n : nat) (l : list A) :
  StronglySorted R l → StronglySorted R (take n l).
Proof.
  intros H. rewrite <- (take_drop n l) in H.
  by apply StronglySorted_app_1_l in H.
Qed.

Lemma StronglySorted_omap {A B : Type} (R : relation A) (R' : relation B)
    (f : A → option B) (l : list A) :
  (∀ x y x' y', R x y → f x = Some x' → f y = Some y' → R' x' y') →
  StronglySorted R l → StronglySorted R' (omap f l).
Proof.
  intros Hf. induction 1 as [|x l Hl IH Hx]; simpl; [constructor|].
  destruct (f x) as [x'|] eqn:Ex; [|done].
  constructor; [done|].
  apply Forall_forall. intros y' Hy'.
  apply list_elem_of_omap in Hy' as (y & Hy & Ey).
  rewrite Forall_forall in Hx. eauto.
Qed.

Lemma slice_to_take {A : Type} (k : Z) (l : list A) :
  ∃ n, Py.slice_to k l = take n l ∧ (0 ≤ k → n = Z.to_nat k).
Proof.
  unfold Py.slice_to. destruct (Z.ltb_spec k 0); eexists; split; eauto; lia.
Qed.

(** ** Rounding *)

Lemma round_half_even_bounds (q : Q) :
  Qfloor q ≤ Py.round_half_even q ≤ Qfloor q + 1.
Proof.
  unfold Py.round_half_even.
  destruct (_ ?= _)%Q; [destruct (Z.even _)|..]; lia.
Qed.

Lemma round_half_even_mono (x y : Q) :
  (x <= y)%Q → Py.round_half_even x ≤ Py.round_half_even y.
Proof.
  intros Hxy.
  pose proof (Qfloor_resp_le _ _ Hxy) as Hf.
  destruct (decide (Qfloor x = Qfloor y)) as [Heq|Hne].
  - unfold Py.round_half_even. rewrite <- Heq.
    set (f := Qfloor x).
    assert (x - inject_Z f <= y - inject_Z f)%Q as Hfrac.
    { by apply Qplus_le_l. }
    destruct (Qcompare_spec (x - inject_Z f) (1 # 2)) as [Hx|Hx|Hx];
      destruct (Qcompare_spec (y - inject_Z f) (1 # 2)) as [Hy|Hy|Hy];
      try (destruct (Z.even f)); try lia; exfalso; lra.
  - pose proof (round_half_even_bounds x). pose proof (round_half_even_bounds y).
    lia.
Qed.

Lemma round6_mono (x y : Q) : (x <= y)%Q → (Py.round6 x <= Py.round6 y)%Q.
Proof.
  intros Hxy. unfold Py.round6, Qle. simpl.
  apply Z.mul_le_mono_nonneg_r; [lia|].
  apply round_half_even_mono. by apply Qmult_le_compat_r.
Qed.

Lemma round6_nonneg (x : Q) : (0 <= x)%Q → (0 <= Py.round6 x)%Q.
Proof.
  intros Hx. pose proof (round6_mono 0 x Hx) as H.
  eapply Qle_trans; [|exact H]. by vm_compute.
Qed.

(** ** Insertion-ordered dictionaries *)

Section ordered_dict.
Context {V : Type}.
Implicit Types (k : string) (v : V) (d : list (string * V)).

Lemma lookup_item_setitem k k' v d :
  Py.lookup_item k' (Py.setitem k v d)
  = if decide (k' = k) then Some v else Py.lookup_item k' d.
Proof.
  induction d as [|[k0 v0] d IH]; simpl.
  - repeat case_decide; congruence.
  - destruct (decide (k = k0)) as [->|Hne]; simpl;
      repeat case_decide; try congruence.
Qed.

Lemma setitem_keys_present k v d :
  k ∈ d.*1 → (Py.setitem k v d).*1 = d.*1.
Proof.
  induction d as [|[k0 v0] d IH]; simpl; intros Hin.
  - by apply elem_of_nil in Hin.
  - destruct (decide (k = k0)) as [->|Hne]; simpl; [done|].
    apply elem_of_cons in Hin as [?|Hin]; [done|].
    f_equal. by apply IH.
Qed.

Lemma setitem_keys_absent k v d :
  k ∉ d.*1 → (Py.setitem k v d).*1 = d.*1 ++ [k].
Proof.
  induction d as [|[k0 v0] d IH]; simpl; intros Hin; [done|].
  apply not_elem_of_cons in Hin as [Hne Hin].
  destruct (decide (k = k0)); [done|].
  rewrite fmap_cons. simpl. f_equal. by apply IH.
Qed.

Lemma setitem_keys_elem k k' v d :
  k' ∈ (Py.setitem k v d).*1 ↔ k' = k ∨ k' ∈ d.*1.
Proof.
  destruct (decide (k ∈ d.*1)) as [Hin|Hin].
  - rewrite setitem_keys_present by done. naive_solver.
  - rewrite setitem_keys_absent by done. set_solver.
Qed.

Lemma setitem_keys_NoDup k v d : NoDup d.*1 → NoDup (Py.setitem k v d).*1.
Proof.
  intros Hd. destruct (decide (k ∈ d.*1)) as [Hin|Hin].
  - by rewrite setitem_keys_present.
  - rewrite setitem_keys_absent by done.
    apply NoDup_app. split_and!; [done| |apply NoDup_singleton].
    intros x Hx ->%list_elem_of_singleton. done.
Qed.

Lemma lookup_item_Some k v d : Py.lookup_item k d = Some v → (k, v) ∈ d.
Proof.
  induction d as [|[k0 v0] d IH]; simpl; [done|].
  case_decide as Hk.
  - intros [= ->]. subst. apply elem_of_cons. by left.
  - intros H. apply elem_of_cons. right. by apply IH.
Qed.

Lemma lookup_item_elem k v d :
  NoDup d.*1 → (k, v) ∈ d → Py.lookup_item k d = Some v.
Proof.
  induction d as [|[k0 v0] d IH]; simpl; intros Hnd Hin.
  - by apply elem_of_nil in Hin.
  - apply NoDup_cons in Hnd as [Hk0 Hnd].
    apply elem_of_cons in Hin as [[= -> ->]|Hin].
    + by rewrite decide_True.
    + rewrite decide_False; [by apply IH|].
      intros ->. apply Hk0. apply list_elem_of_fmap. by exists (k0, v).
Qed.
End ordered_dict.

(** ** The scoring loop *)

Section scoring.
Import BankPredictor.
Context (models : gmap string classifier) (X : DataFrame).
Local Abbreviation scored := (scored models X).

Lemma score_step_Ok acc col acc' :
  score_step models X acc col = Ok acc' →
  ∃ p, scored col p ∧ acc' = Py.setitem col p acc.
Proof.
  unfold score_step, getitem. intros H.
  inv_bind H. inv_bind H. inv_bind H.
  destruct (models !! col) as [model|] eqn:Em; [|done].
  injection E as ->. injection H as <-.
  eexists. split; [|done]. by eexists _, _.
Qed.

Lemma score_loop cols : ∀ acc probs,
  for_each (score_step models X) cols acc = Ok probs →
  (NoDup acc.*1 → NoDup probs.*1)
  ∧ (∀ k, k ∈ probs.*1 ↔ k ∈ acc.*1 ∨ k ∈ cols)
  ∧ (∀ k, k ∉ cols → Py.lookup_item k probs = Py.lookup_item k acc)
  ∧ (∀ col, col ∈ cols → ∃ p, scored col p ∧ Py.lookup_item col probs = Some p).
Proof.
  induction cols as [|c cols IH]; simpl; intros acc probs H.
  - injection H as <-. split_and!; [done|set_solver|done|set_solver].
  - inv_bind H. apply score_step_Ok in E as (p & Hp & ->).
    apply IH in H as (Hnd & Hkeys & Hframe & Hval).
    split_and!.
    + intros ?. by apply Hnd, setitem_keys_NoDup.
    + intros k. rewrite Hkeys, setitem_keys_elem. set_solver.
    + intros k [Hk1 Hk2]%not_elem_of_cons.
      rewrite Hframe, lookup_item_setitem by done. by rewrite decide_False.
    + intros col Hcol. destruct (decide (col ∈ cols)) as [Hin|Hnin]; [eauto|].
      apply elem_of_cons in Hcol as [->|?]; [|done].
      exists p. split; [done|].
      rewrite Hframe, lookup_item_setitem by done. by rewrite decide_True.
Qed.

Lemma score_step_scored acc col p :
  scored col p → score_step models X acc col = Ok (Py.setitem col p acc).
Proof.
  intros (model & prob & Em & Ep & Hp).
  unfold score_step, getitem. rewrite Em. simpl.
  rewrite Ep. simpl. by rewrite Hp.
Qed.

Lemma score_total cols :
  (∀ col, col ∈ cols → ∃ p, scored col p) →
  ∀ acc, ∃ probs, for_each (score_step models X) cols acc = Ok probs.
Proof.
  induction cols as [|c cols IH]; intros Hall acc; [by eexists|].
  destruct (Hall c) as (p & Hp); [by left|].
  cbn [for_each]. rewrite (score_step_scored _ _ _ Hp). simpl.
  apply IH. intros col Hcol. apply Hall. by right.
Qed.
End scoring.

(** ** The exclusion loop *)

Section exclusion.
Import BankPredictor.
Context (prev : gmap string Z).

Local Abbreviation owned := (owned prev).

Lemma exclude_owned_keys cols : ∀ d,
  (∀ col, col ∈ cols → col ∈ d.*1) → (exclude_owned prev cols d).*1 = d.*1.
Proof.
  unfold exclude_owned.
  induction cols as [|c cols IH]; simpl; intros d Hin; [done|].
  assert ((exclude_step prev d c).*1 = d.*1) as Hstep.
  { unfold exclude_step. case_decide; [|done].
    apply setitem_keys_present, Hin. set_solver. }
  rewrite IH, Hstep; [done|]. intros col Hcol. rewrite Hstep.
  apply Hin. set_solver.
Qed.

Lemma exclude_step_lookup d c k :
  Py.lookup_item k (exclude_step prev d c)
  = if decide (k = c ∧ owned k) then Some 0%Q else Py.lookup_item k d.
Proof.
  unfold exclude_step, owned. destruct (decide (default 0 (prev !! c) = 1)).
  - rewrite lookup_item_setitem. destruct (decide (k = c)) as [->|Hne].
    + by rewrite decide_True.
    + rewrite decide_False; [done|]. tauto.
  - rewrite decide_False; [done|]. intros [-> ?]. done.
Qed.

Lemma exclude_owned_lookup cols : ∀ d k,
  Py.lookup_item k (exclude_owned prev cols d)
  = if decide (k ∈ cols ∧ owned k) then Some 0%Q else Py.lookup_item k d.
Proof.
  unfold exclude_owned.
  induction cols as [|c cols IH]; intros d k; cbn [fold_left].
  - rewrite decide_False; [done|]. intros [[]%elem_of_nil _].
  - rewrite IH, exclude_step_lookup.
    destruct (decide (k ∈ cols ∧ owned k)) as [[H1 H2]|Hn].
    + rewrite decide_True; [done|]. split; [by right|done].
    + destruct (decide (k = c ∧ owned k)) as [[-> H2]|Hn'].
      * rewrite decide_True; [done|]. split; [by left|done].
      * rewrite decide_False; [done|].
        intros [[->|?]%elem_of_cons ?]; tauto.
Qed.
End exclusion.

(** ** Ranking and filtering *)

Section ranking.
Import BankPredictor.

Lemma owned_iff (prev : gmap string Z) (col : string) :
  owned prev col ↔ prev !! col = Some 1.
Proof.
  unfold owned. destruct (prev !! col) as [v|]; simpl.
  - split; [by intros -> | by intros [= ->]].
  - split; [lia | done].
Qed.

Lemma count_owned_spec (prev : gmap string Z) (pcs : list string) :
  count_owned prev pcs
  = Z.of_nat (length (filter (λ col, prev !! col = Some 1) pcs)).
Proof.
  unfold count_owned. do 2 f_equal.
  apply list_filter_iff. intros col. apply owned_iff.
Qed.

Lemma predict_Ok store now c r :
  predict store now c = Ok r →
  ∃ models pcs names X probs,
    ModelStore.models store = Ok models
    ∧ ModelStore.product_cols store = Ok pcs
    ∧ ModelStore.product_names store = Ok names
    ∧ _preprocess store now c = Ok X
    ∧ score models X pcs = Ok probs
    ∧ r = {| recommendations :=
               omap (recommend names)
                 (Py.slice_to (top_k c)
                    (Py.sorted_desc (exclude_owned (prev_products c) pcs probs)));
             n_current_products := count_owned (prev_products c) pcs |}.
Proof.
  unfold predict. intros H.
  inv_bind H. inv_bind H. inv_bind H. inv_bind H. inv_bind H.
  injection H as <-. by eexists _, _, _, _, _.
Qed.

Lemma recommend_Some names col p rec :
  recommend names (col, p) = Some rec →
  (0 < p)%Q ∧ product_col rec = col ∧ probability rec = Py.round6 p.
Proof.
  unfold recommend. destruct (Qlt_le_dec 0 p); [|done].
  by intros [= <-].
Qed.

(** What the ranking works on: the scored probabilities of the products
    of the catalog, those of owned products replaced by zero. *)
Lemma ranked_entry models X prev pcs probs k top col p :
  score models X pcs = Ok probs →
  (col, p) ∈ Py.slice_to k (Py.sorted_desc (exclude_owned prev pcs probs)) →
  top = exclude_owned prev pcs probs →
  col ∈ pcs
  ∧ Py.lookup_item col top = Some p
  ∧ (owned prev col → p = 0%Q)
  ∧ (¬ owned prev col → scored models X col p).
Proof.
  intros Hs Hin ->. unfold score in Hs.
  apply score_loop in Hs as (Hnd & Hkeys & _ & Hval).
  specialize (Hnd (NoDup_nil_2)).
  assert (∀ c, c ∈ pcs → c ∈ probs.*1) as Hsub.
  { intros c Hc. apply Hkeys. by right. }
  pose proof (exclude_owned_keys prev pcs probs Hsub) as Hk.
  destruct (slice_to_take k (Py.sorted_desc (exclude_owned prev pcs probs)))
    as (n & Hslice & _).
  rewrite Hslice in Hin.
  apply subseteq_take in Hin.
  rewrite sorted_desc_perm in Hin.
  assert (col ∈ pcs) as Hcol.
  { assert (col ∈ probs.*1) as Hc.
    { rewrite <- Hk. apply list_elem_of_fmap. by exists (col, p). }
    apply Hkeys in Hc as [[]%elem_of_nil|Hc]. done. }
  assert (Py.lookup_item col (exclude_owned prev pcs probs) = Some p) as Hl.
  { apply lookup_item_elem; [by rewrite Hk | done]. }
  split_and!; [done|done|..].
  - intros Ho. rewrite exclude_owned_lookup, decide_True in Hl by done.
    by injection Hl.
  - intros Ho. rewrite exclude_owned_lookup, decide_False in Hl by tauto.
    destruct (Hval col Hcol) as (p' & Hp' & Hl'). congruence.
Qed.

Lemma length_omap {A B : Type} (f : A → option B) (l : list A) :
  (length (omap f l) ≤ length l)%nat.
Proof.
  induction l as [|x l IH]; [done|].
  change (omap f (x :: l))
    with (match f x with Some y => y :: omap f l | None => omap f l end).
  destruct (f x); simpl; lia.
Qed.

Lemma length_filter_split {A : Type} (P : A → Prop) `{∀ x, Decision (P x)}
    (l : list A) :
  (length (filter P l) + length (filter (λ x, ¬ P x) l))%nat = length l.
Proof.
  induction l as [|x l IH]; [done|].
  rewrite !filter_cons. destruct (decide (P x)).
  - rewrite decide_False by tauto. simpl. lia.
  - rewrite decide_True by done. simpl. lia.
Qed.
End ranking.

Import BankPredictor.

Lemma recommend_cols_sublist (names : gmap string string) (l : list (string * Q)) :
  product_col <$> omap (recommend names) l `sublist_of` l.*1.
Proof.
  induction l as [|[col p] l IH]; [done|].
  change (omap (recommend names) ((col, p) :: l))
    with (match recommend names (col, p) with
          | Some y => y :: omap (recommend names) l
          | None => omap (recommend names) l
          end).
  destruct (recommend names (col, p)) as [rec|] eqn:E.
  - apply recommend_Some in E as (_ & <- & _). rewrite !fmap_cons.
    by apply sublist_skip.
  - rewrite fmap_cons. by apply sublist_cons.
Qed.

(** C1. Every product of the catalog that the request marks as owned (flag
    equal to 1) has probability exactly 0 in the mapping that is ranked,
    whatever its classifier answered, and no product marked as owned is
    among the recommendations returned. *)
Theorem owned_products_never_recommended store now c r :
  predict store now c = Ok r →
  ∃ models pcs X probs,
    ModelStore.models store = Ok models
    ∧ ModelStore.product_cols store = Ok pcs
    ∧ _preprocess store now c = Ok X
    ∧ score models X pcs = Ok probs
    ∧ (∀ col, col ∈ pcs → prev_products c !! col = Some 1 →
         Py.lookup_item col (exclude_owned (prev_products c) pcs probs)
         = Some 0%Q)
    ∧ (∀ col, prev_products c !! col = Some 1 →
         col ∉ product_col <$> recommendations r).
Proof.
  intros H.
  apply predict_Ok in H as (models & pcs & names & X & probs & Hm & Hp & Hn & HX & Hs & ->).
  exists models, pcs, X, probs. split_and!; try done.
  - intros col Hcol Hflag. rewrite exclude_owned_lookup, decide_True; [done|].
    split; [done|]. by apply owned_iff.
  - intros col Hflag Hin. simpl in Hin.
    apply list_elem_of_fmap in Hin as (rec & -> & Hrec).
    apply list_elem_of_omap in Hrec as ([col p] & Hentry & Hrec).
    apply recommend_Some in Hrec as (Hpos & <- & _).
    eapply ranked_entry in Hentry as (_ & _ & Hzero & _); [|done..].
    rewrite Hzero in Hpos by by apply owned_iff.
    by apply Qlt_irrefl in Hpos.
Qed.

Lemma owned_products_never_recommended_witness :
  ∃ r, predict Demo.store Demo.june (Demo.client {[ "A" := 1 ]} 4) = Ok r
       ∧ "A" ∉ product_col <$> recommendations r.
Proof.
  eexists. split; [vm_compute; reflexivity|].
  destruct (owned_products_never_recommended Demo.store Demo.june
              (Demo.client {[ "A" := 1 ]} 4) _ eq_refl)
    as (? & ? & ? & ? & _ & _ & _ & _ & _ & H).
  apply H. reflexivity.
Defined.

(** C2 fails as stated: the probability returned is rounded to six decimals
    after the test for positivity, so that a product scored [10^-7] is
    returned with probability 0. *)
Lemma returned_probability_can_be_zero :
  ∃ r rec,
    predict Demo.store Demo.january (Demo.client ∅ 4) = Ok r
    ∧ ModelStore.product_cols Demo.store = Ok ["A"; "B"; "C"; "D"]
    ∧ 1 ≤ top_k (Demo.client ∅ 4) ≤ 4
    ∧ rec ∈ recommendations r
    ∧ ¬ (0 < probability rec)%Q.
Proof.
  eexists _, {| product_col := "C"; product_name := "C"; probability := 0.000000%Q |}.
  split_and!.
  - vm_compute. reflexivity.
  - vm_compute. reflexivity.
  - simpl. lia.
  - simpl. lia.
  - simpl. do 3 right. left.
  - unfold Qlt. simpl. lia.
Qed.

(** C2, amended. For a request with [K] between 1 and [N], the number of
    products of the catalog, the list returned has at most [K] entries and
    at most [N] minus the number of owned products; its probabilities are
    non-increasing; and each of them is the rounding to six decimals of a
    probability strictly greater than 0 that the product's classifier gave,
    hence at least 0. *)
Theorem recommendations_ranked store now c r pcs :
  predict store now c = Ok r →
  ModelStore.product_cols store = Ok pcs →
  1 ≤ top_k c ≤ Z.of_nat (length pcs) →
  Z.of_nat (length (recommendations r)) ≤ top_k c
  ∧ Z.of_nat (length (recommendations r))
    ≤ Z.of_nat (length pcs) - n_current_products r
  ∧ StronglySorted (λ a b, (probability b <= probability a)%Q) (recommendations r)
  ∧ ∃ models X,
      ModelStore.models store = Ok models
      ∧ _preprocess store now c = Ok X
      ∧ Forall (λ rec, (0 <= probability rec)%Q
                       ∧ ∃ p, scored models X (product_col rec) p
                              ∧ (0 < p)%Q
                              ∧ probability rec = Py.round6 p)
               (recommendations r).
Proof.
  intros H Hpcs Hk.
  apply predict_Ok in H as (models & pcs' & names & X & probs & Hm & Hp & Hn & HX & Hs & ->).
  assert (pcs' = pcs) as -> by congruence.
  set (prev := prev_products c).
  set (top := exclude_owned prev pcs probs).
  cbn [recommendations n_current_products]. fold prev. fold top.
  destruct (slice_to_take (top_k c) (Py.sorted_desc top)) as (n & Hslice & Hn').
  assert (∀ col p, (col, p) ∈ Py.slice_to (top_k c) (Py.sorted_desc top) →
            col ∈ pcs ∧ Py.lookup_item col top = Some p
            ∧ (owned prev col → p = 0%Q) ∧ (¬ owned prev col → scored models X col p))
    as Hentry.
  { intros col p Hin. by eapply ranked_entry. }
  split_and!.
  - etransitivity; [apply inj_le, length_omap|].
    rewrite Hslice, length_take, Hn' by lia. lia.
  - assert (length (omap (recommend names)
                        (Py.slice_to (top_k c) (Py.sorted_desc top)))
            ≤ length (filter (λ col, ¬ owned prev col) pcs))%nat as Hlen.
    { rewrite <- (length_fmap product_col).
      apply submseteq_length, NoDup_submseteq.
      - eapply sublist_NoDup; [|apply recommend_cols_sublist].
        rewrite Hslice, fmap_take.
        eapply sublist_NoDup; [|apply sublist_take].
        rewrite sorted_desc_perm. unfold top.
        unfold score in Hs. apply score_loop in Hs as (Hnd & Hkeys & _ & _).
        rewrite exclude_owned_keys.
        + apply Hnd, NoDup_nil_2.
        + intros col Hcol. apply Hkeys. by right.
      - intros col Hin.
        apply list_elem_of_fmap in Hin as (rec & -> & Hrec).
        apply list_elem_of_omap in Hrec as ([col p] & Hin & Hrec).
        apply recommend_Some in Hrec as (Hpos & <- & _).
        apply Hentry in Hin as (Hcol & _ & Hzero & _).
        apply list_elem_of_filter. split; [|done].
        intros Ho. rewrite (Hzero Ho) in Hpos. by apply Qlt_irrefl in Hpos. }
    pose proof (length_filter_split (owned prev) pcs) as Hsplit.
    change (count_owned prev pcs)
      with (Z.of_nat (length (filter (owned prev) pcs))).
    lia.
  - rewrite Hslice.
    eapply StronglySorted_omap; [|apply StronglySorted_take, sorted_desc_sorted].
    intros [c1 p1] [c2 p2] r1 r2 Hdesc (_ & _ & ->)%recommend_Some
      (_ & _ & ->)%recommend_Some.
    by apply round6_mono.
  - exists models, X. split_and!; [done..|].
    apply Forall_forall. intros rec Hrec.
    apply list_elem_of_omap in Hrec as ([col p] & Hin & Hrec).
    apply recommend_Some in Hrec as (Hpos & <- & ->).
    apply Hentry in Hin as (Hcol & _ & Hzero & Hscored).
    split; [by apply round6_nonneg, Qlt_le_weak|].
    exists p. split_and!; [|done..].
    apply Hscored. intros Ho. rewrite (Hzero Ho) in Hpos.
    by apply Qlt_irrefl in Hpos.
Qed.

Lemma recommendations_ranked_witness :
  let c := Demo.client {[ "A" := 1 ]} 3 in
  ∃ r, predict Demo.store Demo.june c = Ok r
       ∧ 1 ≤ top_k c ≤ 4
       ∧ Z.of_nat (length (recommendations r)) ≤ top_k c
       ∧ Z.of_nat (length (recommendations r)) ≤ 4 - n_current_products r
       ∧ StronglySorted (λ a b, (probability b <= probability a)%Q)
           (recommendations r).
Proof.
  intros c. eexists. split; [vm_compute; reflexivity|].
  split; [simpl; lia|].
  destruct (recommendations_ranked Demo.store Demo.june c _
              ["A"; "B"; "C"; "D"] eq_refl eq_refl)
    as (H1 & H2 & H3 & _); [simpl; lia|].
  split_and!; [exact H1 | exact H2 | exact H3].
Defined.

(** C3. The count returned with the recommendations is the number of
    entries of [product_cols] whose ownership flag in the request is 1; a
    request with the same ownership mapping gets the same count, whatever
    its [top_k], its other fields, the clock and the recommendations that
    survive. *)
Theorem n_current_products_counts_owned store now c r pcs :
  predict store now c = Ok r →
  ModelStore.product_cols store = Ok pcs →
  n_current_products r
  = Z.of_nat (length (filter (λ col, prev_products c !! col = Some 1) pcs))
  ∧ ∀ now' c' r',
      prev_products c' = prev_products c →
      predict store now' c' = Ok r' →
      n_current_products r' = n_current_products r.
Proof.
  intros H Hpcs.
  apply predict_Ok in H as (? & pcs' & ? & ? & ? & _ & Hp & _ & _ & _ & ->).
  assert (pcs' = pcs) as -> by congruence.
  split; [apply count_owned_spec|].
  intros now' c' r' Hprev H'.
  apply predict_Ok in H' as (? & pcs' & ? & ? & ? & _ & Hp' & _ & _ & _ & ->).
  assert (pcs' = pcs) as -> by congruence.
  simpl. by rewrite Hprev.
Qed.

Lemma n_current_products_counts_owned_witness :
  let c := Demo.client (<["A" := 1]> {[ "D" := 1 ]}) 1 in
  ∃ r, predict Demo.store Demo.june c = Ok r
       ∧ ModelStore.product_cols Demo.store = Ok ["A"; "B"; "C"; "D"]
       ∧ n_current_products r = 2.
Proof.
  intros c. eexists. split; [vm_compute; reflexivity|].
  split; [reflexivity|].
  exact (proj1 (n_current_products_counts_owned Demo.store Demo.june c _
                  ["A"; "B"; "C"; "D"] eq_refl eq_refl)).
Defined.

(** C8. When every product of [product_cols] has a classifier whose answer
    for the frame is a non-empty row, the scoring loop completes; the
    mapping it builds has the product identifiers of [product_cols] as its
    keys, each once; and the value of a product is the entry at index 1 of
    its classifier's row when the row has more than one entry, and the
    single entry when it has one. *)
Theorem scoring_takes_positive_class models X pcs :
  (∀ col, col ∈ pcs →
     ∃ model prob, models !! col = Some model ∧ model X = Ok prob ∧ prob ≠ []) →
  ∃ probs,
    score models X pcs = Ok probs
    ∧ NoDup probs.*1
    ∧ (∀ col, col ∈ probs.*1 ↔ col ∈ pcs)
    ∧ ∀ col model prob,
        col ∈ pcs → models !! col = Some model → model X = Ok prob →
        ((1 < length prob)%nat → Py.lookup_item col probs = prob !! 1%nat)
        ∧ (length prob = 1%nat → Py.lookup_item col probs = prob !! 0%nat).
Proof.
  intros Hall.
  assert (∀ col, col ∈ pcs → ∃ p, scored models X col p) as Hscored.
  { intros col Hcol. destruct (Hall col Hcol) as (model & prob & Em & Ep & Hne).
    destruct prob as [|p0 [|p1 rest]]; [done|..].
    - exists p0, model, [p0]. done.
    - exists p1, model, (p0 :: p1 :: rest). done. }
  destruct (score_total models X pcs Hscored []) as [probs Hs].
  exists probs. split; [done|].
  apply score_loop in Hs as (Hnd & Hkeys & _ & Hval).
  split_and!.
  - apply Hnd, NoDup_nil_2.
  - intros col. rewrite Hkeys. set_solver.
  - intros col model prob Hcol Em Ep.
    destruct (Hval col Hcol) as (p & (model' & prob' & Em' & Ep' & Hp) & Hl).
    assert (model' = model) as -> by congruence.
    assert (prob' = prob) as -> by congruence.
    rewrite Hl. destruct prob as [|p0 [|p1 rest]]; simpl in *.
    + done.
    + injection Hp as <-. split; [lia|done].
    + injection Hp as <-. split; [done|lia].
Qed.

Lemma scoring_takes_positive_class_witness :
  let X := {| columns := ["month"]; values := [FInt 6] |} in
  ∃ probs,
    score Demo.models X ["A"; "D"] = Ok probs
    ∧ Py.lookup_item "A" probs = Some 0.7%Q
    ∧ Py.lookup_item "D" probs = Some 0.2%Q.
Proof.
  intros X.
  destruct (scoring_takes_positive_class Demo.models X ["A"; "D"])
    as (probs & Hs & _ & _ & Hval).
  - intros col [->|[->|[]%elem_of_nil]%elem_of_cons]%elem_of_cons.
    + by exists (Demo.constant 0.7%Q), [(1 - 0.7)%Q; 0.7%Q].
    + by exists (Demo.single 0.2%Q), [0.2%Q].
  - exists probs. split; [exact Hs|]. split.
    + destruct (Hval "A" (Demo.constant 0.7%Q) [(1 - 0.7)%Q; 0.7%Q]) as [H _];
        [by left | reflexivity | reflexivity |].
      apply H. simpl. lia.
    + destruct (Hval "D" (Demo.single 0.2%Q) [0.2%Q]) as [_ H];
        [by right; left | reflexivity | reflexivity |].
      by apply H.
Defined.

(** ** Safe encoding *)

Lemma index_of_elem (v : string) (l : list string) :
  v ∈ l ↔ is_Some (index_of v l).
Proof.
  induction l as [|c l IH]; simpl.
  - split; [by intros []%elem_of_nil | by intros []].
  - destruct (decide (v = c)) as [->|Hne].
    + split; [by eexists | by left].
    + rewrite elem_of_cons, IH, fmap_is_Some. naive_solver.
Qed.

Lemma transform_known encoder v :
  v ∈ classes_ encoder → ∃ code, transform encoder v = Ok code.
Proof.
  intros [i Hi]%index_of_elem. unfold transform. rewrite Hi. by eexists.
Qed.

Lemma transform_unseen encoder v :
  v ∉ classes_ encoder →
  transform encoder v = Raise (ValueError "y contains previously unseen labels").
Proof.
  intros Hv. unfold transform.
  destruct (index_of v (classes_ encoder)) eqn:Hi; [|done].
  exfalso. apply Hv, index_of_elem. by eexists.
Qed.

Lemma safe_label_encode_tiers encoder v :
  _safe_label_encode encoder v
  = (if decide (v ∈ classes_ encoder) then transform encoder v
     else if decide ("nan" ∈ classes_ encoder) then transform encoder "nan"
     else Ok 0).
Proof.
  unfold _safe_label_encode.
  destruct (decide (v ∈ classes_ encoder)) as [Hv|Hv].
  - destruct (transform_known encoder v Hv) as [code ->]. done.
  - rewrite (transform_unseen encoder v Hv). done.
Qed.

Lemma safe_label_encode_total encoder v :
  ∃ code, _safe_label_encode encoder v = Ok code.
Proof.
  rewrite safe_label_encode_tiers.
  repeat case_decide; eauto using transform_known.
Qed.

(** C4. [_safe_label_encode] returns the encoder's code of the string when
    the string is in the vocabulary, else the encoder's code of ["nan"]
    when ["nan"] is in the vocabulary, else 0; in each case it returns a
    code and does not raise, for every encoder and every string, the empty
    one included. *)
Theorem safe_label_encode_three_tiers (encoder : LabelEncoder) (value : string) :
  _safe_label_encode encoder value
  = (if decide (value ∈ classes_ encoder) then transform encoder value
     else if decide ("nan" ∈ classes_ encoder) then transform encoder "nan"
     else Ok 0)
  ∧ (∃ code, _safe_label_encode encoder value = Ok code)
  ∧ (∃ code, _safe_label_encode encoder "" = Ok code).
Proof.
  split_and!;
    [apply safe_label_encode_tiers | apply safe_label_encode_total..].
Qed.

(** ** Conversion of integers to floats *)

Lemma round_to_double_exact n : Z.abs n <= 2 ^ 53 → Py.round_to_double n = n.
Proof.
  intros Hn. unfold Py.round_to_double.
  destruct (Z.leb_spec (Z.log2 (Z.abs n) - 52) 0) as [|He]; [done|].
  assert (0 < Z.abs n) as Hpos.
  { destruct (Z.abs n) eqn:E; try lia. simpl in He. lia. }
  assert (Z.log2 (Z.abs n) = 53) as HL.
  { pose proof (Z.log2_le_mono _ _ Hn) as H. rewrite Z.log2_pow2 in H by lia. lia. }
  assert (Z.abs n = 2 ^ 53) as Ha.
  { pose proof (Z.log2_spec _ Hpos) as [H _]. rewrite HL in H. lia. }
  rewrite HL, Ha. change (53 - 52) with 1.
  vm_compute (2 ^ 53 / 2 ^ 1). vm_compute (2 ^ 53 mod 2 ^ 1). vm_compute (2 ^ (1 - 1)).
  cbn -[Z.mul Z.sgn]. lia.
Qed.

(** The rounding step on an integer of more than 53 bits: the mantissa is
    the quotient or its successor, as the remainder compares with half a
    unit, a tie going to the even one. *)
Lemma round_to_double_abs n :
  let a := Z.abs n in
  let e := Z.log2 a - 52 in
  0 < e →
  ∃ m, Py.round_to_double n = Z.sgn n * (m * 2 ^ e)
       ∧ ((m = a / 2 ^ e
           ∧ (a mod 2 ^ e < 2 ^ (e - 1)
              ∨ a mod 2 ^ e = 2 ^ (e - 1) ∧ Z.even (a / 2 ^ e) = true))
          ∨ (m = a / 2 ^ e + 1
             ∧ (2 ^ (e - 1) < a mod 2 ^ e
                ∨ a mod 2 ^ e = 2 ^ (e - 1) ∧ Z.even (a / 2 ^ e) = false))).
Proof.
  intros a e He. unfold Py.round_to_double. fold a. fold e.
  destruct (Z.leb_spec e 0) as [|_]; [lia|].
  eexists. split; [reflexivity|].
  destruct (Z.ltb_spec (a mod 2 ^ e) (2 ^ (e - 1))); [left; split; [done|by left]|].
  destruct (Z.ltb_spec (2 ^ (e - 1)) (a mod 2 ^ e)); [right; split; [done|by left]|].
  destruct (Z.even _) eqn:Heven; [left|right]; (split; [done|right; split; [lia|done]]).
Qed.

(** The bounds of the quotient: it has exactly 53 bits. *)
Lemma mantissa_bounds a :
  let e := Z.log2 a - 52 in
  0 < e →
  0 < a ∧ 0 < 2 ^ (e - 1) ∧ 2 ^ e = 2 * 2 ^ (e - 1)
  ∧ a = 2 ^ e * (a / 2 ^ e) + a mod 2 ^ e
  ∧ 0 <= a mod 2 ^ e < 2 ^ e
  ∧ 2 ^ 52 <= a / 2 ^ e < 2 ^ 53
  ∧ 2 ^ e * 2 ^ 53 = 2 ^ (Z.log2 a + 1).
Proof.
  intros e He.
  assert (0 < a) as Hpos.
  { subst e. destruct a eqn:E; try lia; simpl in He; lia. }
  assert (0 < 2 ^ (e - 1)) as Hh by (apply Z.pow_pos_nonneg; lia).
  assert (2 ^ e = 2 * 2 ^ (e - 1)) as HP.
  { rewrite <- Z.pow_succ_r by lia. f_equal. lia. }
  pose proof (Z.div_mod a (2 ^ e) ltac:(lia)) as Hdiv.
  pose proof (Z.mod_pos_bound a (2 ^ e) ltac:(lia)) as Hmod.
  pose proof (Z.log2_spec a Hpos) as [Hlo Hhi].
  assert (2 ^ e * 2 ^ 52 = 2 ^ Z.log2 a) as H52.
  { rewrite <- Z.pow_add_r by lia. f_equal. lia. }
  assert (2 ^ e * 2 ^ 53 = 2 ^ (Z.log2 a + 1)) as H53.
  { rewrite <- Z.pow_add_r by lia. f_equal. lia. }
  replace (Z.succ (Z.log2 a)) with (Z.log2 a + 1) in Hhi by lia.
  split_and!; try done; try lia.
  - apply Z.div_le_lower_bound; lia.
  - apply Z.div_lt_upper_bound; lia.
Qed.

Lemma round_to_double_overflow n :
  2 ^ 1024 <= Z.abs (Py.round_to_double n) ↔ ¬ fits_float n.
Proof.
  unfold fits_float.
  destruct (Z.le_gt_cases (Z.log2 (Z.abs n) - 52) 0) as [He|He].
  - assert (Py.round_to_double n = n) as ->.
    { unfold Py.round_to_double. by destruct (Z.leb_spec (Z.log2 (Z.abs n) - 52) 0); [|lia]. }
    assert (Z.abs n < 2 ^ 53) as Hsmall.
    { destruct (decide (Z.abs n = 0)) as [->|]; [done|].
      apply Z.log2_lt_pow2; lia. }
    split; intros H; exfalso; [|apply H]; lia.
  - destruct (round_to_double_abs n He) as (m & -> & Hm).
    destruct (mantissa_bounds (Z.abs n) He)
      as (Hpos & Hh & HP & Hdiv & Hmod & Hq & H53).
    set (a := Z.abs n) in *. set (e := Z.log2 a - 52) in *.
    set (q := a / 2 ^ e) in *. set (r := a mod 2 ^ e) in *.
    assert (Z.abs (Z.sgn n * (m * 2 ^ e)) = m * 2 ^ e) as ->.
    { rewrite Z.abs_mul, (Z.abs_eq (m * 2 ^ e)) by (destruct Hm as [[-> _]|[-> _]]; nia).
      assert (Z.abs (Z.sgn n) = 1) as ->; [|lia].
      subst a. destruct n; simpl in *; lia. }
    pose proof (Z.log2_spec a Hpos) as [Hlo Hhi].
    replace (Z.succ (Z.log2 a)) with (Z.log2 a + 1) in Hhi by lia.
    destruct (Z.lt_trichotomy (Z.log2 a) 1023) as [HL|[HL|HL]].
    + assert (2 ^ (Z.log2 a + 1) <= 2 ^ 1023) as Hle
        by (apply Z.pow_le_mono_r; lia).
      assert (m * 2 ^ e <= 2 ^ 1023) as Hm'
        by (destruct Hm as [[-> _]|[-> _]]; nia).
      split; intros H; exfalso; [|apply H]; lia.
    + assert (e = 971) as Ee by lia.
      rewrite HL in *. rewrite Ee in *. change (971 - 1) with 970 in *.
      change (1023 + 1) with 1024 in *.
      split.
      * intros Hbig. assert (m = 2 ^ 53) as Em by nia.
        destruct Hm as [[-> _]|[-> Hr]]; [lia|]. lia.
      * intros Hbig. assert (q = 2 ^ 53 - 1) as Eq by lia.
        assert (Z.even q = false) as Hodd by (rewrite Eq; reflexivity).
        destruct Hm as [[-> [Hr|[Hr Hev]]]|[-> _]]; [lia|congruence|lia].
    + assert (2 ^ 1024 <= 2 ^ Z.log2 a) as Hle by (apply Z.pow_le_mono_r; lia).
      assert (2 ^ e * 2 ^ 52 = 2 ^ Z.log2 a) as H52.
      { rewrite <- Z.pow_add_r by lia. f_equal. lia. }
      split; intros _; [lia|]. destruct Hm as [[-> _]|[-> _]]; nia.
Qed.

Lemma float_of_int_outcome n :
  (fits_float n ∧ Py.float_of_int n = Ok (inject_Z (Py.round_to_double n)))
  ∨ (¬ fits_float n
     ∧ Py.float_of_int n = Raise (OverflowError "int too large to convert to float")).
Proof.
  unfold Py.float_of_int.
  destruct (Z.ltb_spec (Z.abs (Py.round_to_double n)) (2 ^ 1024)) as [H|H].
  - left. split; [|done]. destruct (decide (fits_float n)) as [|Hn]; [done|].
    apply round_to_double_overflow in Hn. lia.
  - right. split; [|done]. by apply round_to_double_overflow.
Qed.

(** The double is within half a unit in the last place of the integer. *)
Lemma round_to_double_near n :
  2 * Z.abs (Py.round_to_double n - n) <= 2 ^ (Z.log2 (Z.abs n) - 52).
Proof.
  destruct (Z.le_gt_cases (Z.log2 (Z.abs n) - 52) 0) as [He|He].
  - assert (Py.round_to_double n = n) as ->.
    { unfold Py.round_to_double. by destruct (Z.leb_spec (Z.log2 (Z.abs n) - 52) 0); [|lia]. }
    rewrite Z.sub_diag. simpl. apply Z.pow_nonneg. lia.
  - destruct (round_to_double_abs n He) as (m & -> & Hm).
    destruct (mantissa_bounds (Z.abs n) He)
      as (Hpos & Hh & HP & Hdiv & Hmod & Hq & H53).
    set (a := Z.abs n) in *. set (e := Z.log2 a - 52) in *.
    set (q := a / 2 ^ e) in *. set (r := a mod 2 ^ e) in *.
    assert (Z.sgn n * (m * 2 ^ e) - n = Z.sgn n * (m * 2 ^ e - a)) as ->.
    { subst a. rewrite Z.mul_sub_distr_l. f_equal. symmetry. rewrite Z.mul_comm. apply Z.abs_sgn. }
    rewrite Z.abs_mul.
    assert (Z.abs (Z.sgn n) = 1) as ->.
    { subst a. destruct n; simpl in *; lia. }
    destruct Hm as [[-> Hr]|[-> Hr]]; nia.
Qed.

Lemma float_of_int_Ok n q :
  Py.float_of_int n = Ok q →
  q = inject_Z (Py.round_to_double n) ∧ fits_float n.
Proof.
  destruct (float_of_int_outcome n) as [[Hfits ->]|[_ ->]]; [|done].
  by intros [= <-].
Qed.

Lemma holds_float_intro (features : gmap string fvalue) key n q :
  Py.float_of_int n = Ok q →
  features !! key = Some (FFloat q) →
  holds_float features key n.
Proof.
  intros Hq Hkey. pose proof Hq as [-> _]%float_of_int_Ok.
  exists (Py.round_to_double n). split_and!; [done|done|..].
  - apply round_to_double_near.
  - apply round_to_double_exact.
Qed.

(** ** Feature construction *)

(** The numeric block returns when each of its six conversions does, and
    then holds the six doubles and the income. *)
Lemma numeric_features_Ok c (f f' : gmap string fvalue) :
  numeric_features c f = Ok f' →
  ∃ v_age v_ant v_nuevo v_rel v_act v_prov,
    Py.float_of_int (Z.max 18 (Z.min 100 (age c))) = Ok v_age
    ∧ Py.float_of_int
        match antiguedad c with
        | Some a => if a =? -999999 then DEFAULT_ANTIGUEDAD else a
        | None => DEFAULT_ANTIGUEDAD
        end = Ok v_ant
    ∧ Py.float_of_int (default 0 (ind_nuevo c)) = Ok v_nuevo
    ∧ Py.float_of_int (default 1 (indrel c)) = Ok v_rel
    ∧ Py.float_of_int (default 1 (ind_actividad_cliente c)) = Ok v_act
    ∧ Py.float_of_int (default 28 (cod_prov c)) = Ok v_prov
    ∧ f' = <["cod_prov" := FFloat v_prov]>
             (<["ind_actividad_cliente" := FFloat v_act]>
                (<["indrel" := FFloat v_rel]>
                   (<["ind_nuevo" := FFloat v_nuevo]>
                      (<["antiguedad" := FFloat v_ant]>
                         (<["log_renta" :=
                              FLog1p match renta c with
                                     | Some r =>
                                         if Qle_bool r 0
                                         then default_renta (segmento c) else r
                                     | None => default_renta (segmento c)
                                     end]>
                            (<["age" := FFloat v_age]> f)))))).
Proof.
  unfold numeric_features. intros H.
  inv_bind H. inv_bind H. inv_bind H. inv_bind H. inv_bind H. inv_bind H.
  injection H as <-. by eexists _, _, _, _, _, _.
Qed.

Lemma fits_float_small n : Z.abs n <= 2 ^ 53 → fits_float n.
Proof. unfold fits_float. lia. Qed.

(** The numeric block raises nothing but the [OverflowError] of [float],
    and it does so exactly when one of the five integers of the request is
    beyond the range of a double. *)
Lemma numeric_features_outcome c (f : gmap string fvalue) :
  (float_range c ∧ ∃ f', numeric_features c f = Ok f')
  ∨ (¬ float_range c
     ∧ numeric_features c f
       = Raise (OverflowError "int too large to convert to float")).
Proof.
  assert (∀ d field, fits_float d →
            (∀ n, field = Some n → fits_float n) → fits_float (default d field))
    as Hdefault.
  { intros d [n|] Hd Hn; [by apply Hn|done]. }
  assert (∀ field, field ∈ [antiguedad c; ind_nuevo c; indrel c;
                            ind_actividad_cliente c; cod_prov c] →
            float_range c → ∀ n, field = Some n → fits_float n) as Hin.
  { intros field Hfield Hc n ->. by apply Hc. }
  assert (∀ d field, field ∈ [antiguedad c; ind_nuevo c; indrel c;
                              ind_actividad_cliente c; cod_prov c] →
            ¬ fits_float (default d field) → fits_float d → ¬ float_range c)
    as Hout.
  { intros d field Hfield Hbig Hd Hc. apply Hbig, Hdefault; [done|].
    by apply Hin. }
  unfold numeric_features.
  destruct (float_of_int_outcome (Z.max 18 (Z.min 100 (age c))))
    as [[_ ->]|[Hbig _]]; [|exfalso; apply Hbig, fits_float_small; lia].
  cbn [mbind result_bind].
  destruct (float_of_int_outcome
              match antiguedad c with
              | Some a => if a =? -999999 then DEFAULT_ANTIGUEDAD else a
              | None => DEFAULT_ANTIGUEDAD
              end) as [[Hant ->]|[Hbig ->]]; cbn [mbind result_bind].
  2: { right. split; [|done]. intros Hc. apply Hbig.
       destruct (antiguedad c) as [a|] eqn:Ha;
         [|apply fits_float_small; unfold DEFAULT_ANTIGUEDAD; lia].
       destruct (Z.eqb_spec a (-999999));
         [apply fits_float_small; unfold DEFAULT_ANTIGUEDAD; lia|].
       apply Hc. rewrite <- Ha. in_literal. }
  destruct (float_of_int_outcome (default 0 (ind_nuevo c)))
    as [[Hnuevo ->]|[Hbig ->]]; cbn [mbind result_bind].
  2: { right. split; [|done].
       apply (Hout 0 (ind_nuevo c)); [in_literal|done|by apply fits_float_small]. }
  destruct (float_of_int_outcome (default 1 (indrel c)))
    as [[Hrel ->]|[Hbig ->]]; cbn [mbind result_bind].
  2: { right. split; [|done].
       apply (Hout 1 (indrel c)); [in_literal|done|by apply fits_float_small]. }
  destruct (float_of_int_outcome (default 1 (ind_actividad_cliente c)))
    as [[Hact ->]|[Hbig ->]]; cbn [mbind result_bind].
  2: { right. split; [|done].
       apply (Hout 1 (ind_actividad_cliente c));
         [in_literal|done|by apply fits_float_small]. }
  destruct (float_of_int_outcome (default 28 (cod_prov c)))
    as [[Hprov ->]|[Hbig ->]]; cbn [mbind result_bind].
  2: { right. split; [|done].
       apply (Hout 28 (cod_prov c)); [in_literal|done|by apply fits_float_small]. }
  left. split; [|by eexists]. intros n Hn.
  apply elem_of_cons in Hn as [Hn|Hn].
  { rewrite <- Hn in Hant. destruct (Z.eqb_spec n (-999999)) as [E|]; [|done].
    rewrite E. apply fits_float_small. lia. }
  apply elem_of_cons in Hn as [Hn|Hn]; [by rewrite <- Hn in Hnuevo|].
  apply elem_of_cons in Hn as [Hn|Hn]; [by rewrite <- Hn in Hrel|].
  apply elem_of_cons in Hn as [Hn|Hn]; [by rewrite <- Hn in Hact|].
  apply elem_of_cons in Hn as [Hn|Hn]; [by rewrite <- Hn in Hprov|].
  exfalso. exact (proj1 (elem_of_nil _) Hn).
Qed.

Section features.
Context (pcs : list string) (encs : gmap string LabelEncoder)
        (canal prov : list string).

(** The loop over the low-cardinality fields writes keys ending in
    [_enc] only. *)
Lemma encode_fields_frame items : ∀ (f f' : gmap string fvalue) k,
  for_each (encode_field encs) items f = Ok f' →
  Forall (λ item, k ≠ item.1 +:+ "_enc") items →
  f' !! k = f !! k.
Proof.
  induction items as [|[name value] items IH]; intros f f' k H Hk.
  - by injection H as <-.
  - cbn [for_each] in H. inv_bind H.
    apply Forall_cons in Hk as [Hk1 Hk].
    rewrite (IH _ _ _ H Hk).
    unfold encode_field in E. inv_bind E. inv_bind E. injection E as <-.
    by rewrite lookup_insert_ne.
Qed.

(** The loop over [product_cols]: the keys it writes, the values it
    writes under them and the count it accumulates. *)
Lemma prev_block prev cols : ∀ (f : gmap string fvalue) n,
  let acc := fold_left (prev_step prev) cols (f, n) in
  (∀ k, (∀ col, col ∈ cols → k ≠ "prev_" +:+ col) → acc.1 !! k = f !! k)
  ∧ (∀ col, col ∈ cols →
       acc.1 !! ("prev_" +:+ col)
       = Some (FInt (if decide (truthy prev col) then 1 else 0)))
  ∧ acc.2 = n + Z.of_nat (length (filter (truthy prev) cols)).
Proof.
  induction cols as [|c cols IH]; intros f n; cbn [fold_left]; cbv zeta.
  - split_and!; [done | by intros ? []%elem_of_nil | simpl; lia].
  - set (val := if decide (default 0 (prev !! c) = 0) then 0 else 1).
    assert (val = if decide (truthy prev c) then 1 else 0) as Hval.
    { unfold val, truthy. repeat case_decide; done. }
    change (prev_step prev (f, n) c)
      with (<["prev_" +:+ c := FInt val]> f, n + val).
    destruct (IH (<["prev_" +:+ c := FInt val]> f) (n + val))
      as (Hframe & Hkeys & Hcount); cbv zeta in *.
    split_and!.
    + intros k Hk. rewrite Hframe.
      * apply lookup_insert_ne. intros <-. apply (Hk c); [by left|done].
      * intros col Hcol. apply Hk. by right.
    + intros col Hcol. destruct (decide (col ∈ cols)) as [Hin|Hnin]; [eauto|].
      apply elem_of_cons in Hcol as [->|?]; [|done].
      rewrite Hframe.
      * by rewrite lookup_insert_eq, Hval.
      * intros col Hcol Heq%(inj (String.append "prev_")). by subst.
    + rewrite Hcount, filter_cons, Hval.
      destruct (decide (truthy prev c)); simpl; lia.
Qed.

(** The shape of the dict [features] at the end of the block. *)
Lemma build_features_Ok now c features :
  build_features pcs encs canal prov now c = Ok features →
  ∃ f1 f2 code_canal code_prov,
    numeric_features c ∅ = Ok f1
    ∧ for_each (encode_field encs) (low_card_fields c) f1 = Ok f2
    ∧ let f3 :=
        <["nomprov_enc" := FInt code_prov]>
          (<["pais_residencia_enc" :=
               FInt (if decide (pais_residencia c = Some "ES") then 1 else 0)]>
             (<["canal_entrada_enc" := FInt code_canal]> f2)) in
      let acc := fold_left (prev_step (prev_products c)) pcs (f3, 0) in
      let dt := observation_date now c in
      features
      = <["months_since_start" :=
            FInt (Z.max 0 ((Py.year dt - Py.year DATASET_START) * 12
                           + (Py.month dt - Py.month DATASET_START)))]>
          (<["month" := FInt (Py.month dt)]>
             (<["product_changes" := FInt (default 0 (product_changes c))]>
                (<["n_products" := FInt acc.2]> acc.1))).
Proof.
  unfold build_features. intros H.
  inv_bind H. inv_bind H. inv_bind H. inv_bind H. inv_bind H. inv_bind H.
  exists x, x0, x2, x4. split; [done|]. split; [done|]. cbv zeta.
  destruct (fold_left _ _ _) as [f n]. by injection H as <-.
Qed.

Lemma low_card_keys_log_renta c :
  Forall (λ item, "log_renta" ≠ item.1 +:+ "_enc") (low_card_fields c).
Proof.
  unfold low_card_fields.
  repeat apply Forall_cons_2; try apply Forall_nil_2; done.
Qed.

Lemma features_log_renta now c features :
  build_features pcs encs canal prov now c = Ok features →
  features !! "log_renta" = Some (FLog1p (spec_income c)).
Proof.
  intros (f1 & f2 & c1 & c2 & Hnum & Hloop & ->)%build_features_Ok.
  do 4 (rewrite lookup_insert_ne by done).
  destruct (prev_block (prev_products c) pcs
              (<["nomprov_enc" := FInt c2]>
                 (<["pais_residencia_enc" :=
                      FInt (if decide (pais_residencia c = Some "ES") then 1 else 0)]>
                    (<["canal_entrada_enc" := FInt c1]> f2))) 0)
    as (Hframe & _ & _).
  rewrite Hframe by done.
  do 3 (rewrite lookup_insert_ne by done).
  rewrite (encode_fields_frame _ _ _ _ Hloop)
    by apply low_card_keys_log_renta.
  apply numeric_features_Ok in Hnum as (? & ? & ? & ? & ? & ? & _ & _ & _ & _ & _ & _ & ->).
  do 5 (rewrite lookup_insert_ne by done).
  rewrite lookup_insert_eq. do 2 f_equal.
  assert (∀ seg, default_renta seg = spec_segment_default seg) as Hdefault.
  { intros seg. unfold default_renta, spec_segment_default,
      DEFAULT_RENTA_BY_SEGMENT, DEFAULT_RENTA.
    destruct seg as [seg|]; simpl; [|done].
    destruct (decide (seg = "01 - TOP")) as [->|H1]; [done|].
    rewrite decide_False by congruence.
    rewrite lookup_insert_ne by done.
    destruct (decide (seg = "02 - PARTICULARES")) as [->|H2]; [done|].
    rewrite decide_False by congruence.
    rewrite lookup_insert_ne by done.
    destruct (decide (seg = "03 - UNIVERSITARIO")) as [->|H3]; [done|].
    rewrite decide_False by congruence.
    by rewrite lookup_insert_ne by done. }
  unfold spec_income. destruct (renta c) as [r|]; [|apply Hdefault].
  destruct (Qlt_le_dec 0 r) as [Hpos|Hneg].
  - destruct (Qle_bool r 0) eqn:Hle; [|done].
    apply Qle_bool_iff in Hle. exfalso. lra.
  - apply Qle_bool_iff in Hneg. rewrite Hneg. apply Hdefault.
Qed.

Lemma features_prev now c features col :
  build_features pcs encs canal prov now c = Ok features →
  col ∈ pcs →
  features !! ("prev_" +:+ col)
  = Some (FInt (if decide (truthy (prev_products c) col) then 1 else 0)).
Proof.
  intros (f1 & f2 & c1 & c2 & Hnum & Hloop & ->)%build_features_Ok Hcol.
  do 4 (rewrite lookup_insert_ne by done).
  match goal with
  | |- context [fold_left _ _ (?f, 0)] =>
      destruct (prev_block (prev_products c) pcs f 0) as (_ & Hkeys & _)
  end.
  by apply Hkeys.
Qed.

Lemma features_n_products now c features :
  build_features pcs encs canal prov now c = Ok features →
  features !! "n_products"
  = Some (FInt (Z.of_nat (length (filter (truthy (prev_products c)) pcs)))).
Proof.
  intros (f1 & f2 & c1 & c2 & Hnum & Hloop & ->)%build_features_Ok.
  do 3 (rewrite lookup_insert_ne by done).
  rewrite lookup_insert_eq.
  match goal with
  | |- context [fold_left _ _ (?f, 0)] =>
      destruct (prev_block (prev_products c) pcs f 0) as (_ & _ & ->)
  end.
  do 2 f_equal.
Qed.

(** The clock enters through the observation date only, and of that date
    only the year and the month are read. *)
Lemma build_features_clock now1 now2 c :
  Py.year (observation_date now1 c) = Py.year (observation_date now2 c) →
  Py.month (observation_date now1 c) = Py.month (observation_date now2 c) →
  build_features pcs encs canal prov now1 c
  = build_features pcs encs canal prov now2 c.
Proof.
  intros Hy Hm. unfold build_features. by rewrite Hy, Hm.
Qed.
End features.

(** The dict [row] holds, under each name of [feature_cols], the computed
    value of that feature, or 0. *)
Lemma make_row_lookup (features : gmap string fvalue) (fcs : list string) :
  ∀ (row : gmap string fvalue) col,
    fold_left (λ row col, <[col := default (FInt 0) (features !! col)]> row)
              fcs row !! col
    = if decide (col ∈ fcs) then Some (default (FInt 0) (features !! col))
      else row !! col.
Proof.
  induction fcs as [|c fcs IH]; intros row col; cbn [fold_left].
  - rewrite decide_False; [done|]. by intros []%elem_of_nil.
  - rewrite IH. destruct (decide (col ∈ fcs)) as [Hin|Hnin].
    + rewrite decide_True; [done|]. by right.
    + destruct (decide (col = c)) as [->|Hne].
      * rewrite decide_True by by left. by rewrite lookup_insert_eq.
      * rewrite decide_False by (intros [?|?]%elem_of_cons; done).
        by rewrite lookup_insert_ne.
Qed.

Lemma preprocess_Ok store now c df :
  _preprocess store now c = Ok df →
  ∃ fcs pcs encs canal prov features,
    ModelStore.feature_cols store = Ok fcs
    ∧ ModelStore.product_cols store = Ok pcs
    ∧ ModelStore.label_encoders store = Ok encs
    ∧ ModelStore.top20_canal store = Ok canal
    ∧ ModelStore.top20_prov store = Ok prov
    ∧ build_features pcs encs canal prov now c = Ok features
    ∧ df = make_frame fcs (make_row fcs features).
Proof.
  unfold _preprocess. intros H.
  inv_bind H. inv_bind H. inv_bind H. inv_bind H. inv_bind H. inv_bind H.
  injection H as <-. by eexists _, _, _, _, _, _.
Qed.

Lemma frame_values (features : gmap string fvalue) (fcs : list string) :
  values (make_frame fcs (make_row fcs features))
  = (λ col, default (FInt 0) (features !! col)) <$> fcs.
Proof.
  unfold make_frame, make_row. cbn [values].
  apply list_fmap_ext. intros i col Hi.
  rewrite make_row_lookup, decide_True; [done|].
  by eapply list_elem_of_lookup_2.
Qed.

(** C6. The income feature is [log1p] of the income of the request when
    that income is present and greater than 0, and [log1p] of the default
    otherwise: 234340, 101340 or 86200 for the three known segments,
    101850 for any other or absent segment. For an absent income and the
    segment ["01 - TOP"] it is [log1p 234340]. *)
Theorem income_feature pcs encs canal prov now c features :
  build_features pcs encs canal prov now c = Ok features →
  features !! "log_renta" = Some (FLog1p (spec_income c))
  ∧ (renta c = None → segmento c = Some "01 - TOP" →
       features !! "log_renta" = Some (FLog1p 234340.0%Q))
  ∧ (∀ r, renta c = Some r → (0 < r)%Q →
       features !! "log_renta" = Some (FLog1p r))
  ∧ ((renta c = None ∨ ∃ r, renta c = Some r ∧ (r <= 0)%Q) →
       features !! "log_renta"
       = Some (FLog1p (spec_segment_default (segmento c)))).
Proof.
  intros H. apply features_log_renta in H. rewrite H. unfold spec_income.
  split_and!.
  - done.
  - by intros -> ->.
  - intros r -> Hr. destruct (Qlt_le_dec 0 r); [done|]. exfalso. lra.
  - intros [->|(r & -> & Hr)]; [done|].
    destruct (Qlt_le_dec 0 r); [|done]. exfalso. lra.
Qed.

Lemma income_feature_witness :
  let c := Demo.client ∅ 4 in
  ∃ features,
    build_features ["A"; "B"; "C"; "D"] Demo.label_encoders ["KHE"] ["MADRID"]
                   Demo.june c = Ok features
    ∧ renta c = None ∧ segmento c = Some "01 - TOP"
    ∧ features !! "log_renta" = Some (FLog1p 234340.0%Q).
Proof.
  intros c.
  assert (is_Ok (build_features ["A"; "B"; "C"; "D"] Demo.label_encoders
                   ["KHE"] ["MADRID"] Demo.june c) = true) as Hok.
  { vm_compute. reflexivity. }
  destruct (build_features ["A"; "B"; "C"; "D"] Demo.label_encoders
              ["KHE"] ["MADRID"] Demo.june c) as [features|e] eqn:Hf;
    [|discriminate Hok].
  exists features. split; [reflexivity|].
  split; [reflexivity|]. split; [reflexivity|].
  destruct (income_feature _ _ _ _ _ _ _ Hf) as (_ & H & _).
  apply H; reflexivity.
Defined.

Lemma encode_field_known encs (f : gmap string fvalue) name value enc :
  encs !! name = Some enc →
  ∃ code, encode_field encs f (name, value)
          = Ok (<[name +:+ "_enc" := FInt code]> f).
Proof.
  intros Henc. unfold encode_field, getitem. rewrite Henc. simpl.
  destruct (safe_label_encode_total enc (default "nan" value)) as [code ->].
  by exists code.
Qed.

Lemma encode_fields_total encs items : ∀ (f : gmap string fvalue),
  Forall (λ item, is_Some (encs !! item.1)) items →
  ∃ f', for_each (encode_field encs) items f = Ok f'.
Proof.
  induction items as [|[name value] items IH]; intros f Hitems; [by eexists|].
  apply Forall_cons in Hitems as [[enc Henc] Hitems].
  cbn [for_each].
  destruct (encode_field_known encs f name value enc Henc) as [code ->].
  simpl. by apply IH.
Qed.

Lemma build_features_total pcs encs canal prov now c :
  float_range c →
  (∀ name, name ∈ encoded_fields → is_Some (encs !! name)) →
  ∃ features, build_features pcs encs canal prov now c = Ok features.
Proof.
  intros Hc Hencs. unfold build_features.
  destruct (numeric_features_outcome c ∅) as [[_ [f1 ->]]|[Hbig _]]; [|done].
  cbn [mbind result_bind].
  destruct (encode_fields_total encs (low_card_fields c) f1) as [f2 ->].
  { unfold low_card_fields.
    repeat apply Forall_cons_2; try apply Forall_nil_2;
      apply Hencs; unfold encoded_fields; set_solver. }
  simpl. unfold getitem.
  destruct (Hencs "canal_entrada") as [enc1 ->];
    [unfold encoded_fields; set_solver|].
  simpl.
  destruct (safe_label_encode_total enc1 (clean canal (canal_entrada c)))
    as [code1 ->].
  simpl.
  destruct (Hencs "nomprov") as [enc2 ->]; [unfold encoded_fields; set_solver|].
  simpl.
  destruct (safe_label_encode_total enc2 (clean prov (nomprov c)))
    as [code2 ->].
  simpl. destruct (fold_left _ _ _). by eexists.
Qed.

Lemma preprocess_total store now c :
  serves_features store → float_range c →
  ∃ df, _preprocess store now c = Ok df.
Proof.
  intros (a & fcs & pcs & encs & canal & prov
          & Ha & Hf & Hp & He & Hc & Hv & Hencs) Hrange.
  unfold _preprocess, ModelStore.feature_cols, ModelStore.product_cols,
    ModelStore.label_encoders, ModelStore.top20_canal, ModelStore.top20_prov,
    ModelStore.subscript.
  rewrite Ha, Hf, Hp, He, Hc, Hv. simpl.
  destruct (build_features_total pcs encs canal prov now c Hrange Hencs)
    as [features ->].
  by eexists.
Qed.

(** A request with an integer beyond the range of a double is refused by
    the numeric block, before any encoder is read. *)
Lemma build_features_overflow pcs encs canal prov now c :
  ¬ float_range c →
  build_features pcs encs canal prov now c
  = Raise (OverflowError "int too large to convert to float").
Proof.
  intros Hbig. unfold build_features.
  by destruct (numeric_features_outcome c ∅) as [[? _]|[_ ->]].
Qed.

Lemma preprocess_overflow store now c fcs pcs encs canal prov :
  ModelStore.feature_cols store = Ok fcs →
  ModelStore.product_cols store = Ok pcs →
  ModelStore.label_encoders store = Ok encs →
  ModelStore.top20_canal store = Ok canal →
  ModelStore.top20_prov store = Ok prov →
  ¬ float_range c →
  _preprocess store now c
  = Raise (OverflowError "int too large to convert to float").
Proof.
  intros Hf Hp He Hc Hv Hbig. unfold _preprocess.
  rewrite Hf, Hp, He, Hc, Hv. simpl.
  by rewrite build_features_overflow.
Qed.

(** C7. The frame has the columns of [feature_cols], in their order, and
    one value per column: the value computed for the feature of that name,
    or 0 when the feature block computed no feature of that name. Nothing
    else is in the frame. *)
Theorem feature_vector_follows_feature_cols store now c :
  ∀ df,
    _preprocess store now c = Ok df →
    ∃ fcs pcs encs canal prov features,
      ModelStore.feature_cols store = Ok fcs
      ∧ ModelStore.product_cols store = Ok pcs
      ∧ ModelStore.label_encoders store = Ok encs
      ∧ ModelStore.top20_canal store = Ok canal
      ∧ ModelStore.top20_prov store = Ok prov
      ∧ build_features pcs encs canal prov now c = Ok features
      ∧ columns df = fcs
      ∧ length (values df) = length fcs
      ∧ ∀ i col, fcs !! i = Some col →
          values df !! i = Some (default (FInt 0) (features !! col)).
Proof.
  intros df (fcs & pcs & encs & canal & prov & features
             & Hf & Hp & He & Hc & Hv & Hb & ->)%preprocess_Ok.
  exists fcs, pcs, encs, canal, prov, features.
  split_and!; try done.
  - by rewrite frame_values, length_fmap.
  - intros i col Hi. by rewrite frame_values, list_lookup_fmap, Hi.
Qed.

Lemma feature_vector_follows_feature_cols_witness :
  ∃ df, _preprocess Demo.store Demo.june (Demo.client {[ "A" := 1 ]} 4) = Ok df
        ∧ columns df
          = ["month"; "age"; "log_renta"; "prev_A"; "n_products"; "unused"]
        ∧ length (values df) = 6%nat
        ∧ values df !! 5%nat = Some (FInt 0).
Proof.
  assert (is_Ok (_preprocess Demo.store Demo.june
                   (Demo.client {[ "A" := 1 ]} 4)) = true) as Hok
    by (vm_compute; reflexivity).
  destruct (_preprocess Demo.store Demo.june (Demo.client {[ "A" := 1 ]} 4))
    as [df|e] eqn:Hdf; [|discriminate Hok].
  exists df. split; [reflexivity|].
  destruct (feature_vector_follows_feature_cols Demo.store Demo.june
              (Demo.client {[ "A" := 1 ]} 4) df Hdf)
    as (fcs & pcs & encs & canal & prov & features
        & Hf & _ & _ & _ & _ & _ & Hcols & Hlen & Hvalues).
  assert (fcs = ["month"; "age"; "log_renta"; "prev_A"; "n_products"; "unused"])
    as -> by (vm_compute in Hf; congruence).
  split; [exact Hcols|]. split; [exact Hlen|].
  clear Hok. vm_compute in Hdf. injection Hdf as <-. reflexivity.
Defined.

(** A store that serves features, with a classifier for each product that
    answers every frame with a non-empty row, serves every request. *)
Lemma predict_total store now c a models names pcs :
  serves_features store →
  float_range c →
  ModelStore._artifact store = Some a →
  art_models a = Some models →
  art_product_names a = Some names →
  art_product_cols a = Some pcs →
  (∀ col X, col ∈ pcs → ∃ p, scored models X col p) →
  ∃ r, predict store now c = Ok r.
Proof.
  intros Hserves Hrange Ha Hm Hn Hp Hscored.
  destruct (preprocess_total store now c Hserves Hrange) as [X HX].
  unfold predict, ModelStore.models, ModelStore.product_cols,
    ModelStore.product_names, ModelStore.subscript.
  rewrite Ha, Hm, Hp, Hn. simpl. rewrite HX. simpl.
  destruct (score_total models X pcs (λ col, Hscored col X) []) as [probs Hs].
  unfold score. rewrite Hs. simpl. by eexists.
Qed.

(** With [top_k] equal to the size of the catalog the slice is the whole
    ranking, so that every product left with a positive probability is
    returned. *)
Lemma positive_entry_recommended store now c r models pcs X probs col p :
  predict store now c = Ok r →
  ModelStore.models store = Ok models →
  ModelStore.product_cols store = Ok pcs →
  _preprocess store now c = Ok X →
  score models X pcs = Ok probs →
  top_k c = Z.of_nat (length pcs) →
  Py.lookup_item col (exclude_owned (prev_products c) pcs probs) = Some p →
  (0 < p)%Q →
  col ∈ product_col <$> recommendations r.
Proof.
  intros H Hm Hp HX Hs Hk Hl Hpos.
  apply predict_Ok in H
    as (models' & pcs' & names & X' & probs' & Hm' & Hp' & Hn & HX' & Hs' & ->).
  assert (models' = models) as -> by congruence.
  assert (pcs' = pcs) as -> by congruence.
  assert (X' = X) as -> by congruence.
  assert (probs' = probs) as -> by congruence.
  cbn [recommendations].
  set (top := exclude_owned (prev_products c) pcs probs) in *.
  assert (length top ≤ length pcs)%nat as Hlen.
  { rewrite <- (length_fmap fst top). unfold top.
    unfold score in Hs. apply score_loop in Hs as (Hnd & Hkeys & _ & _).
    rewrite exclude_owned_keys by (intros k Hin; apply Hkeys; by right).
    apply submseteq_length, NoDup_submseteq; [apply Hnd, NoDup_nil_2|].
    intros k [[]%elem_of_nil|Hin]%Hkeys. done. }
  assert (Py.slice_to (top_k c) (Py.sorted_desc top) = Py.sorted_desc top)
    as ->.
  { unfold Py.slice_to. rewrite Hk.
    destruct (Z.ltb_spec (Z.of_nat (length pcs)) 0); [lia|].
    apply take_ge. rewrite Nat2Z.id.
    by rewrite (Permutation_length (sorted_desc_perm top)). }
  apply list_elem_of_fmap.
  exists {| product_col := col;
            product_name := default col (names !! col);
            probability := Py.round6 p |}.
  split; [done|]. apply list_elem_of_omap. exists (col, p). split.
  - rewrite sorted_desc_perm. by apply lookup_item_Some.
  - unfold recommend. destruct (Qlt_le_dec 0 p); [done|]. exfalso. lra.
Qed.

(** C10. A product of the catalog whose ownership flag is neither 0 nor 1
    is owned for the feature block (its previous-ownership feature is 1
    and it is one of the products counted by the feature [n_products]),
    but not for the exclusion step nor for the owned count: its
    probability is left as scored, it is not counted in
    [n_current_products], and with [top_k] equal to the size of the
    catalog it is returned whenever its probability is positive. *)
Theorem flag_outside_0_1_counts_as_feature_only store now c r col v :
  predict store now c = Ok r →
  prev_products c !! col = Some v → v ≠ 0 → v ≠ 1 →
  ∃ models fcs pcs X probs,
    ModelStore.models store = Ok models
    ∧ ModelStore.feature_cols store = Ok fcs
    ∧ ModelStore.product_cols store = Ok pcs
    ∧ _preprocess store now c = Ok X
    ∧ score models X pcs = Ok probs
    ∧ (col ∈ pcs →
         (∀ i, fcs !! i = Some ("prev_" +:+ col) →
            values X !! i = Some (FInt 1))
         ∧ (∀ i, fcs !! i = Some "n_products" →
              values X !! i
              = Some (FInt (Z.of_nat
                              (length (filter (truthy (prev_products c)) pcs)))))
         ∧ col ∈ filter (truthy (prev_products c)) pcs
         ∧ Py.lookup_item col (exclude_owned (prev_products c) pcs probs)
           = Py.lookup_item col probs
         ∧ (∃ p, scored models X col p ∧ Py.lookup_item col probs = Some p)
         ∧ (∀ p, Py.lookup_item col probs = Some p → (0 < p)%Q →
              top_k c = Z.of_nat (length pcs) →
              col ∈ product_col <$> recommendations r))
    ∧ n_current_products r
      = Z.of_nat (length (filter (λ k, prev_products c !! k = Some 1) pcs))
    ∧ col ∉ filter (λ k, prev_products c !! k = Some 1) pcs.
Proof.
  intros H Hflag Hv0 Hv1.
  pose proof H as Hr.
  apply predict_Ok in H
    as (models & pcs & names & X & probs & Hm & Hp & Hn & HX & Hs & Heq).
  pose proof HX as HX'.
  apply preprocess_Ok in HX'
    as (fcs & pcs' & encs & canal & prov & features
        & Hf & Hp' & He & Hc & Hpr & Hb & HXeq).
  assert (pcs' = pcs) as -> by congruence.
  assert (truthy (prev_products c) col) as Htruthy.
  { unfold truthy. by rewrite Hflag. }
  assert (¬ owned (prev_products c) col) as Hnot.
  { unfold owned. by rewrite Hflag. }
  exists models, fcs, pcs, X, probs. split_and!; try done.
  - intros Hcol. split_and!.
    + intros i Hi. rewrite HXeq, frame_values, list_lookup_fmap, Hi. simpl.
      rewrite (features_prev _ _ _ _ _ _ _ _ Hb Hcol).
      by rewrite decide_True.
    + intros i Hi. rewrite HXeq, frame_values, list_lookup_fmap, Hi. simpl.
      by rewrite (features_n_products _ _ _ _ _ _ _ Hb).
    + by apply list_elem_of_filter.
    + rewrite exclude_owned_lookup. apply decide_False. tauto.
    + unfold score in Hs. apply score_loop in Hs as (_ & _ & _ & Hval).
      by apply Hval.
    + intros p Hl Hpos Hk.
      eapply positive_entry_recommended; try done.
      rewrite exclude_owned_lookup, decide_False; [done|tauto].
  - rewrite Heq. apply count_owned_spec.
  - intros [Hone _]%list_elem_of_filter. congruence.
Qed.

Lemma flag_outside_0_1_counts_as_feature_only_witness :
  let c := Demo.client {[ "A" := 2 ]} 1 in
  let r := {| recommendations :=
                [ {| product_col := "A"; product_name := "Current account";
                     probability := 0.700000%Q |} ];
              n_current_products := 0 |} in
  predict Demo.store Demo.june c = Ok r
  ∧ prev_products c !! "A" = Some 2
  ∧ "A" ∈ product_col <$> recommendations r
  ∧ ∃ X, _preprocess Demo.store Demo.june c = Ok X
         ∧ values X !! 3%nat = Some (FInt 1)
         ∧ values X !! 4%nat = Some (FInt 1).
Proof.
  intros c r.
  assert (predict Demo.store Demo.june c = Ok r) as Hr.
  { vm_compute. reflexivity. }
  split; [exact Hr|]. split; [reflexivity|]. split; [by left|].
  destruct (flag_outside_0_1_counts_as_feature_only
              Demo.store Demo.june c r "A" 2 Hr eq_refl)
    as (models & fcs & pcs & X & probs & Hm & Hf & Hp & HX & Hs & Hin & Hn & _);
    [lia | lia |].
  assert (fcs = ["month"; "age"; "log_renta"; "prev_A"; "n_products"; "unused"])
    as -> by (vm_compute in Hf; congruence).
  assert (pcs = ["A"; "B"; "C"; "D"]) as -> by (vm_compute in Hp; congruence).
  destruct Hin as (Hprev & Hcount & _); [by left|].
  exists X. split; [exact HX|]. split.
  - by apply Hprev.
  - rewrite (Hcount 4%nat eq_refl). reflexivity.
Defined.

(** ** The clock *)

Lemma observation_date_dated now1 now2 c :
  dated c → observation_date now1 c = observation_date now2 c.
Proof.
  intros (s & dt & Hs & Hdt). unfold observation_date. rewrite Hs.
  case_decide as Hempty; [by subst|]. by rewrite Hdt.
Qed.

Lemma preprocess_clock store now1 now2 c :
  Py.year (observation_date now1 c) = Py.year (observation_date now2 c) →
  Py.month (observation_date now1 c) = Py.month (observation_date now2 c) →
  _preprocess store now1 c = _preprocess store now2 c.
Proof.
  intros Hy Hm. unfold _preprocess.
  destruct (ModelStore.feature_cols store); [|done].
  destruct (ModelStore.product_cols store); [|done].
  destruct (ModelStore.label_encoders store); [|done].
  destruct (ModelStore.top20_canal store); [|done].
  destruct (ModelStore.top20_prov store); [|done].
  simpl. by rewrite (build_features_clock _ _ _ _ now1 now2 c Hy Hm).
Qed.

(** C9 fails as stated: a request without observation date is scored with
    the date of the clock, so that the same record against the same
    artifact gets other recommendations in January than in June. *)
Lemma prediction_depends_on_clock :
  let c := Demo.client ∅ 4 in
  ∃ r1 r2,
    predict Demo.store Demo.january c = Ok r1
    ∧ predict Demo.store Demo.june c = Ok r2
    ∧ recommendations r1 ≠ recommendations r2.
Proof.
  intros c. eexists _, _. split; [vm_compute; reflexivity|].
  split; [vm_compute; reflexivity|].
  intros H. apply (f_equal length) in H. discriminate H.
Qed.

(** C9, amended. The output of [predict] is a function of the client
    record, of the artifact and of the year and month of the clock; it does
    not depend on the clock at all when the observation date of the request
    is present and well-formed, and [n_current_products] never does. *)
Theorem prediction_function_of_record_artifact_and_month store now1 now2 c :
  (dated c ∨ (Py.year now1 = Py.year now2 ∧ Py.month now1 = Py.month now2) →
   predict store now1 c = predict store now2 c)
  ∧ (∀ r1 r2,
       predict store now1 c = Ok r1 → predict store now2 c = Ok r2 →
       n_current_products r1 = n_current_products r2).
Proof.
  split.
  - intros Hclock.
    assert (_preprocess store now1 c = _preprocess store now2 c) as HX.
    { destruct Hclock as [Hd|[Hy Hm]].
      - apply preprocess_clock; by rewrite (observation_date_dated now1 now2 c Hd).
      - apply preprocess_clock; unfold observation_date;
          destruct (fecha_dato c) as [s|]; try done;
          case_decide; try done; by destruct (Py.strptime_ymd s). }
    unfold predict. by rewrite HX.
  - intros r1 r2 H1 H2.
    apply predict_Ok in H1 as (? & pcs1 & ? & ? & ? & _ & Hp1 & _ & _ & _ & ->).
    apply predict_Ok in H2 as (? & pcs2 & ? & ? & ? & _ & Hp2 & _ & _ & _ & ->).
    simpl. congruence.
Qed.

Lemma prediction_function_of_record_artifact_and_month_witness :
  let c := Demo.with_date (Demo.client ∅ 4) "2016-01-28" in
  dated c ∧ predict Demo.store Demo.january c = predict Demo.store Demo.june c.
Proof.
  intros c.
  assert (dated c) as Hd.
  { exists "2016-01-28", {| Py.year := 2016; Py.month := 1; Py.day := 28 |}.
    split; reflexivity. }
  split; [exact Hd|].
  apply (prediction_function_of_record_artifact_and_month
           Demo.store Demo.january Demo.june c).
  by left.
Defined.

(** ** The artifact store *)

Section store.
Import ModelStore.

Lemma check_keys_spec a :
  (missing_expected_keys a →
     check_keys a
     = ["Отсутствуют ключи: " +:+ Py.repr_set (EXPECTED_KEYS ∖ keys a)])
  ∧ (¬ missing_expected_keys a → check_keys a = []).
Proof.
  unfold missing_expected_keys, check_keys. split; intros H.
  - rewrite decide_False; [done|]. intros Hempty. apply H.
    intros k Hk. destruct (decide (k ∈ keys a)) as [|Hn]; [done|].
    assert (k ∈ EXPECTED_KEYS ∖ keys a) as Hin by set_solver.
    rewrite Hempty in Hin. set_solver.
  - rewrite decide_True; [done|].
    destruct (decide (EXPECTED_KEYS ⊆ keys a)) as [Hsub|]; [|done].
    set_solver.
Qed.

Lemma check_models_spec a :
  (empty_classifiers a → check_models a = ["Словарь моделей пуст"])
  ∧ (¬ empty_classifiers a → check_models a = []).
Proof.
  unfold empty_classifiers, check_models. split.
  - intros ->. by rewrite decide_True.
  - intros H. destruct (art_models a) as [models|]; [|done].
    rewrite decide_False; [done|].
    intros ->%map_size_empty_inv. done.
Qed.

Lemma check_product_cols_spec a :
  (∀ models pcs,
     art_models a = Some models → art_product_cols a = Some pcs →
     dom models ≠ list_to_set pcs →
     check_product_cols a
     = [mismatch_message (dom models) (list_to_set pcs)])
  ∧ (¬ key_mismatch a → check_product_cols a = []).
Proof.
  unfold key_mismatch, check_product_cols. split.
  - intros models pcs -> -> Hne. by rewrite decide_False.
  - intros H. destruct (art_models a) as [models|]; [|done].
    destruct (art_product_cols a) as [pcs|]; [|done].
    rewrite decide_True; [done|].
    destruct (decide (dom models = list_to_set pcs)) as [|Hne]; [done|].
    exfalso. apply H. by exists models, pcs.
Qed.

Lemma check_label_encoders_spec a :
  (empty_encoders a → check_label_encoders a = ["Словарь label_encoders пуст"])
  ∧ (¬ empty_encoders a → check_label_encoders a = []).
Proof.
  unfold empty_encoders, check_label_encoders. split.
  - intros ->. by rewrite decide_True.
  - intros H. destruct (art_label_encoders a) as [encoders|]; [|done].
    rewrite decide_False; [done|].
    intros ->%map_size_empty_inv. done.
Qed.

(** [errors] is empty exactly when no check is violated. *)
Lemma errors_nil_iff a : errors a = [] ↔ ¬ violation a.
Proof.
  unfold errors, violation. split.
  - intros H [Hk|[Hm|[(models & pcs & Hms & Hps & Hne)|He]]].
    + apply check_keys_spec in Hk. rewrite Hk in H. done.
    + apply check_models_spec in Hm. rewrite Hm in H.
      by destruct (check_keys a).
    + rewrite (proj1 (check_product_cols_spec a) _ _ Hms Hps Hne) in H.
      by destruct (check_keys a), (check_models a).
    + apply check_label_encoders_spec in He. rewrite He in H.
      by destruct (check_keys a), (check_models a), (check_product_cols a).
  - intros H.
    rewrite (proj2 (check_keys_spec a)) by tauto.
    rewrite (proj2 (check_models_spec a)) by tauto.
    rewrite (proj2 (check_product_cols_spec a)) by tauto.
    by rewrite (proj2 (check_label_encoders_spec a)) by tauto.
Qed.

(** A valid bundle is loaded. *)
Lemma load_model_valid disk self path a :
  disk !! path = Some a → ¬ violation a →
  load_model disk self path
  = ({| _artifact := Some a; _loaded := true |}, Ok ()).
Proof.
  intros Hd Hv. unfold load_model, _validate. rewrite Hd. simpl.
  apply errors_nil_iff in Hv. by rewrite Hv.
Qed.
End store.

(** C5 fails as stated: the exception that reports the violations is of
    the class [ValueError]; the service has no class
    [ModelIntegrityError]. *)
Lemma load_failure_is_ValueError :
  violation Demo.broken
  ∧ ∃ e,
      (ModelStore.load_model Demo.disk ModelStore.__init__ "broken.bin").2
      = Raise e
      ∧ exn_class e = "ValueError"
      ∧ exn_class e ≠ "ModelIntegrityError".
Proof.
  split; [right; left; reflexivity|].
  exists (ValueError
            ("Ошибка валидации модели: "
             +:+ "Отсутствуют ключи: {'top20_prov', 'target_cols'}; "
             +:+ "Словарь моделей пуст")).
  split; [vm_compute; reflexivity|]. split; [reflexivity|discriminate].
Qed.

(** C5, amended. When the bundle found under the path violates a check
    (an expected key is missing, the classifier mapping is empty, the keys
    of the classifier mapping are not the set of product columns, or the
    encoder mapping is empty), loading into a store that is not loaded
    raises a [ValueError]; its message is the messages of all the violated
    checks, in the order of the checks, joined by ["; "]; and the store is
    still not loaded afterwards. *)
Theorem load_rejects_invalid_bundle disk self path a :
  disk !! path = Some a →
  ModelStore.is_loaded self = false →
  violation a →
  ∃ self',
    ModelStore.load_model disk self path
    = (self', Raise (ValueError ("Ошибка валидации модели: "
                                 +:+ Py.join "; " (ModelStore.errors a))))
    ∧ ModelStore.is_loaded self' = false
    ∧ ModelStore.errors a
      = ModelStore.check_keys a ++ ModelStore.check_models a
        ++ ModelStore.check_product_cols a ++ ModelStore.check_label_encoders a
    ∧ (missing_expected_keys a →
         ModelStore.check_keys a
         = ["Отсутствуют ключи: "
            +:+ Py.repr_set (ModelStore.EXPECTED_KEYS ∖ ModelStore.keys a)])
    ∧ (empty_classifiers a → ModelStore.check_models a = ["Словарь моделей пуст"])
    ∧ (∀ models pcs,
         art_models a = Some models → art_product_cols a = Some pcs →
         dom models ≠ list_to_set pcs →
         ModelStore.check_product_cols a
         = [ModelStore.mismatch_message (dom models) (list_to_set pcs)])
    ∧ (empty_encoders a →
         ModelStore.check_label_encoders a = ["Словарь label_encoders пуст"]).
Proof.
  intros Hd Hl Hv.
  assert (ModelStore.errors a ≠ []) as Hne.
  { intros H. by apply errors_nil_iff in H. }
  exists {| ModelStore._artifact := Some a;
            ModelStore._loaded := ModelStore._loaded self |}.
  split_and!.
  - unfold ModelStore.load_model, ModelStore._validate. rewrite Hd. simpl.
    by destruct (ModelStore.errors a).
  - exact Hl.
  - reflexivity.
  - apply check_keys_spec.
  - apply check_models_spec.
  - apply check_product_cols_spec.
  - apply check_label_encoders_spec.
Qed.

Lemma load_rejects_invalid_bundle_witness :
  Demo.disk !! "broken.bin" = Some Demo.broken
  ∧ ModelStore.is_loaded ModelStore.__init__ = false
  ∧ violation Demo.broken
  ∧ ∃ self',
      ModelStore.load_model Demo.disk ModelStore.__init__ "broken.bin"
      = (self', Raise (ValueError
                         ("Ошибка валидации модели: "
                          +:+ Py.join "; " (ModelStore.errors Demo.broken))))
      ∧ ModelStore.is_loaded self' = false.
Proof.
  assert (Demo.disk !! "broken.bin" = Some Demo.broken) as Hd.
  { unfold Demo.disk. rewrite lookup_insert_ne by done.
    apply lookup_insert_eq. }
  assert (violation Demo.broken) as Hv.
  { right; left; reflexivity. }
  split; [exact Hd|]. split; [reflexivity|]. split; [exact Hv|].
  destruct (load_rejects_invalid_bundle Demo.disk ModelStore.__init__
              "broken.bin" Demo.broken Hd eq_refl Hv)
    as (self' & Hload & Hloaded & _).
  exists self'. split; [exact Hload | exact Hloaded].
Defined.

(** * Further properties of the store *)

Section store_more.
Import ModelStore.

Lemma key_if_elem {A : Type} (k name : string) (field : option A) :
  k ∈ key_if name field ↔ k = name ∧ is_Some field.
Proof.
  unfold key_if. destruct field; [rewrite elem_of_singleton|rewrite elem_of_empty].
  - split; [by eauto|by intros []].
  - split; [done|by intros [_ []]].
Qed.

(** A bundle that violates no check has all eight collections. *)
Lemma valid_bundle_complete a :
  ¬ violation a →
  ∃ models fcs tcs pcs encs names canal prov,
    a = {| art_models := Some models; art_feature_cols := Some fcs;
           art_target_cols := Some tcs; art_product_cols := Some pcs;
           art_label_encoders := Some encs; art_product_names := Some names;
           art_top20_canal := Some canal; art_top20_prov := Some prov |}
    ∧ models ≠ ∅ ∧ encs ≠ ∅ ∧ dom models = list_to_set pcs.
Proof.
  intros Hv.
  assert (EXPECTED_KEYS ⊆ keys a) as Hkeys.
  { destruct (decide (EXPECTED_KEYS ⊆ keys a)) as [|Hn]; [done|].
    exfalso. apply Hv. by left. }
  assert (∀ k, k ∈ EXPECTED_KEYS → k ∈ keys a) as Hk by set_solver.
  unfold keys in Hk. setoid_rewrite elem_of_union in Hk.
  repeat setoid_rewrite elem_of_union in Hk.
  repeat setoid_rewrite key_if_elem in Hk.
  assert (is_Some (art_models a)) as [models Hm].
  { destruct (Hk "models") as [H|H]; [set_solver|..]; naive_solver. }
  assert (is_Some (art_feature_cols a)) as [fcs Hf].
  { destruct (Hk "feature_cols") as [H|H]; [set_solver|..]; naive_solver. }
  assert (is_Some (art_target_cols a)) as [tcs Ht].
  { destruct (Hk "target_cols") as [H|H]; [set_solver|..]; naive_solver. }
  assert (is_Some (art_product_cols a)) as [pcs Hp].
  { destruct (Hk "product_cols") as [H|H]; [set_solver|..]; naive_solver. }
  assert (is_Some (art_label_encoders a)) as [encs He].
  { destruct (Hk "label_encoders") as [H|H]; [set_solver|..]; naive_solver. }
  assert (is_Some (art_product_names a)) as [names Hn].
  { destruct (Hk "product_names") as [H|H]; [set_solver|..]; naive_solver. }
  assert (is_Some (art_top20_canal a)) as [canal Hc].
  { destruct (Hk "top20_canal") as [H|H]; [set_solver|..]; naive_solver. }
  assert (is_Some (art_top20_prov a)) as [prov Hr].
  { destruct (Hk "top20_prov") as [H|H]; [set_solver|..]; naive_solver. }
  exists models, fcs, tcs, pcs, encs, names, canal, prov.
  split_and!.
  - destruct a; simpl in *; congruence.
  - intros ->. apply Hv. right; left. done.
  - intros ->. apply Hv. do 3 right. done.
  - destruct (decide (dom models = list_to_set pcs)) as [|Hne]; [done|].
    exfalso. apply Hv. right; right; left. by exists models, pcs.
Qed.

Lemma load_model_Ok disk self path self' :
  load_model disk self path = (self', Ok ()) →
  ∃ a, disk !! path = Some a ∧ ¬ violation a
       ∧ self' = {| _artifact := Some a; _loaded := true |}.
Proof.
  unfold load_model. destruct (disk !! path) as [a|] eqn:Hd; [|done].
  unfold _validate. simpl. destruct (errors a) eqn:He; [|done].
  intros [= <-]. exists a. split_and!; [done| |done].
  by apply errors_nil_iff.
Qed.

Lemma size_list_to_set_le (l : list string) :
  (size (list_to_set (C:=gset string) l) ≤ length l)%nat.
Proof.
  unfold size, set_size. simpl.
  apply submseteq_length, NoDup_submseteq; [apply NoDup_elements|].
  intros x Hx. by apply elem_of_elements, elem_of_list_to_set in Hx.
Qed.

Lemma size_list_to_set_NoDup (l : list string) :
  size (list_to_set (C:=gset string) l) = length l ↔ NoDup l.
Proof.
  split; [|apply size_list_to_set].
  induction l as [|y l IH]; intros Hsize; [constructor|].
  rewrite list_to_set_cons in Hsize. simpl in Hsize.
  destruct (decide (y ∈ l)) as [Hin|Hnin].
  - assert ({[y]} ∪ list_to_set l = list_to_set (C:=gset string) l)
      as Heq by set_solver.
    rewrite Heq in Hsize. pose proof (size_list_to_set_le l). lia.
  - rewrite size_union, size_singleton in Hsize by set_solver.
    constructor; [done|]. apply IH. lia.
Qed.
End store_more.

(** X1. Loading answers [Ok] exactly when a bundle is found under the path
    and it violates none of the four checks; the store then holds that
    bundle and is loaded. *)
Theorem load_model_succeeds_iff_valid disk self path self' :
  ModelStore.load_model disk self path = (self', Ok ())
  ↔ ∃ a, disk !! path = Some a ∧ ¬ violation a
         ∧ self' = {| ModelStore._artifact := Some a;
                      ModelStore._loaded := true |}.
Proof.
  split; [apply load_model_Ok|].
  intros (a & Hd & Hv & ->). by apply load_model_valid.
Qed.

(** X2. A failed load on a store that is already loaded replaces the
    bundle by the rejected one and leaves the store marked as loaded: the
    accessors then serve a bundle that did not pass validation. A missing
    file, in contrast, leaves the store as it was. *)
Theorem failed_reload_keeps_loaded_flag disk self path :
  ModelStore.is_loaded self = true →
  (∀ a, disk !! path = Some a → violation a →
     ∃ msg,
       ModelStore.load_model disk self path
       = ({| ModelStore._artifact := Some a; ModelStore._loaded := true |},
          Raise (ValueError msg)))
  ∧ (disk !! path = None →
       ModelStore.load_model disk self path
       = (self, Raise (FileNotFoundError path))).
Proof.
  intros Hl. split.
  - intros a Hd Hv. unfold ModelStore.load_model, ModelStore._validate.
    rewrite Hd. simpl. unfold ModelStore.is_loaded in Hl. rewrite Hl.
    destruct (ModelStore.errors a) eqn:He; [|by eexists].
    exfalso. by apply errors_nil_iff in He.
  - intros Hd. unfold ModelStore.load_model. by rewrite Hd.
Qed.

Lemma failed_reload_keeps_loaded_flag_witness :
  ModelStore.is_loaded Demo.store = true
  ∧ violation Demo.broken
  ∧ ∃ store' e,
      ModelStore.load_model Demo.disk Demo.store "broken.bin" = (store', Raise e)
      ∧ ModelStore.is_loaded store' = true
      ∧ ModelStore.product_cols store' = Ok [].
Proof.
  assert (ModelStore.is_loaded Demo.store = true) as Hl by reflexivity.
  assert (Demo.disk !! "broken.bin" = Some Demo.broken) as Hd.
  { unfold Demo.disk. rewrite lookup_insert_ne by done. apply lookup_insert_eq. }
  assert (violation Demo.broken) as Hv by (right; left; reflexivity).
  split; [exact Hl|]. split; [exact Hv|].
  destruct (proj1 (failed_reload_keeps_loaded_flag Demo.disk Demo.store
                     "broken.bin" Hl) Demo.broken Hd Hv) as [msg Hload].
  eexists _, _. split; [exact Hload|]. split; reflexivity.
Defined.

(** X3. [get_stats] answers three zeros for a store that is not loaded,
    without reading the bundle. For a store just loaded it answers the
    sizes of the three collections, and then
    [1 ≤ n_models ≤ n_products]: [n_models] counts the distinct product
    columns, so that the two agree exactly when [product_cols] has no
    duplicate. *)
Theorem get_stats_counts self :
  (ModelStore.is_loaded self = false →
     ModelStore.get_stats self
     = Ok {| ModelStore.stats_n_models := 0; ModelStore.stats_n_features := 0;
             ModelStore.stats_n_products := 0 |})
  ∧ (∀ disk self0 path,
       ModelStore.load_model disk self0 path = (self, Ok ()) →
       ∃ models fcs pcs,
         ModelStore.models self = Ok models
         ∧ ModelStore.feature_cols self = Ok fcs
         ∧ ModelStore.product_cols self = Ok pcs
         ∧ ModelStore.get_stats self
           = Ok {| ModelStore.stats_n_models := Z.of_nat (size models);
                   ModelStore.stats_n_features := Z.of_nat (length fcs);
                   ModelStore.stats_n_products := Z.of_nat (length pcs) |}
         ∧ 1 ≤ Z.of_nat (size models) ≤ Z.of_nat (length pcs)
         ∧ (size models = length pcs ↔ NoDup pcs)).
Proof.
  split.
  - unfold ModelStore.get_stats, ModelStore.is_loaded. by intros ->.
  - intros disk self0 path (a & Hd & Hv & ->)%load_model_Ok.
    destruct (valid_bundle_complete a Hv)
      as (models & fcs & tcs & pcs & encs & names & canal & prov
          & -> & Hne & _ & Hdom).
    exists models, fcs, pcs. split_and!; try reflexivity.
    + assert (size models ≠ 0%nat) as Hs.
      { intros ->%map_size_empty_inv. done. }
      lia.
    + rewrite <- size_dom, Hdom. apply inj_le, size_list_to_set_le.
    + rewrite <- size_dom, Hdom. apply size_list_to_set_NoDup.
Qed.

Lemma get_stats_counts_witness :
  ∃ self,
    ModelStore.load_model Demo.disk ModelStore.__init__ "model.bin" = (self, Ok ())
    ∧ ModelStore.get_stats self
      = Ok {| ModelStore.stats_n_models := 4; ModelStore.stats_n_features := 6;
              ModelStore.stats_n_products := 4 |}.
Proof.
  assert (is_Ok (ModelStore.load_model Demo.disk ModelStore.__init__
                   "model.bin").2 = true) as Hok by (vm_compute; reflexivity).
  destruct (ModelStore.load_model Demo.disk ModelStore.__init__ "model.bin")
    as [self [[]|e]] eqn:Hload; [|discriminate Hok].
  exists self. split; [reflexivity|].
  destruct (proj2 (get_stats_counts self) _ _ _ Hload)
    as (models & fcs & pcs & Hm & Hf & Hp & Hstats & _).
  rewrite Hstats.
  assert (self = Demo.store) as -> by (unfold Demo.store; by rewrite Hload).
  assert (ModelStore.models Demo.store = Ok Demo.models) as Hm' by reflexivity.
  assert (ModelStore.feature_cols Demo.store
          = Ok ["month"; "age"; "log_renta"; "prev_A"; "n_products"; "unused"])
    as Hf' by reflexivity.
  assert (ModelStore.product_cols Demo.store = Ok ["A"; "B"; "C"; "D"])
    as Hp' by reflexivity.
  rewrite Hm' in Hm. rewrite Hf' in Hf. rewrite Hp' in Hp.
  injection Hm as <-. injection Hf as <-. injection Hp as <-.
  reflexivity.
Defined.

(** * Further properties of the predictor *)

(** X4. A store just loaded serves every request that the schema admits
    and whose integers are in the range of a double, whatever the clock:
    the validation has made sure that each product column has a
    classifier, so that, when the bundle has an encoder for each encoded
    field and its classifiers answer every frame with a non-empty row,
    [predict] returns a result and raises nothing. A request with one of
    the five converted integers beyond that range is refused with the
    [OverflowError] of [float]. *)
Theorem loaded_store_serves_predictions disk self0 path store now c :
  ModelStore.load_model disk self0 path = (store, Ok ()) →
  (∀ encs name,
     ModelStore.label_encoders store = Ok encs →
     name ∈ encoded_fields → is_Some (encs !! name)) →
  (∀ models col model X,
     ModelStore.models store = Ok models → models !! col = Some model →
     ∃ prob, model X = Ok prob ∧ prob ≠ []) →
  (Schemas.valid_client c = true → float_range c → changes_in_range c →
     ∃ r, predict store now c = Ok r)
  ∧ (¬ float_range c →
       predict store now c
       = Raise (OverflowError "int too large to convert to float")).
Proof.
  intros (a & Hd & Hv & ->)%load_model_Ok Hencs Hmodels.
  destruct (valid_bundle_complete a Hv)
    as (models & fcs & tcs & pcs & encs & names & canal & prov
        & -> & Hne & _ & Hdom).
  split.
  - intros _ Hrange _.
    eapply (predict_total _ now c _ models names pcs); try reflexivity;
      [|done|].
    + eexists _, fcs, pcs, encs, canal, prov. split_and!; try reflexivity.
      intros name Hname. by apply (Hencs encs name).
    + intros col X Hcol.
      assert (col ∈ dom models) as [model Hmodel]%elem_of_dom.
      { rewrite Hdom. by apply elem_of_list_to_set. }
      destruct (Hmodels models col model X eq_refl Hmodel)
        as (prob & Hprob & Hnil).
      destruct prob as [|p0 [|p1 rest]]; [done|..].
      * by exists p0, model, [p0].
      * by exists p1, model, (p0 :: p1 :: rest).
  - intros Hbig. unfold predict, ModelStore.models, ModelStore.product_cols,
      ModelStore.product_names, ModelStore.subscript.
    cbn [ModelStore._artifact art_models art_product_cols art_product_names
         mbind result_bind].
    by rewrite (preprocess_overflow _ now c fcs pcs encs canal prov).
Qed.

Lemma loaded_store_serves_predictions_witness :
  ∃ store r,
    ModelStore.load_model Demo.disk ModelStore.__init__ "model.bin" = (store, Ok ())
    ∧ predict store Demo.june Demo.long_standing = Ok r
    ∧ predict store Demo.june Demo.overflowing
      = Raise (OverflowError "int too large to convert to float").
Proof.
  assert (is_Ok (ModelStore.load_model Demo.disk ModelStore.__init__
                   "model.bin").2 = true) as Hok by (vm_compute; reflexivity).
  destruct (ModelStore.load_model Demo.disk ModelStore.__init__ "model.bin")
    as [store [[]|e]] eqn:Hload; [|discriminate Hok].
  assert (store = Demo.store) as -> by (unfold Demo.store; by rewrite Hload).
  assert (∀ encs name,
            ModelStore.label_encoders Demo.store = Ok encs →
            name ∈ encoded_fields → is_Some (encs !! name)) as Hencs.
  { intros encs name Hencs Hname.
    assert (encs = Demo.label_encoders) as ->.
    { assert (ModelStore.label_encoders Demo.store = Ok Demo.label_encoders)
        as H by reflexivity.
      congruence. }
    unfold encoded_fields in Hname.
    repeat (apply elem_of_cons in Hname as [->|Hname];
            [exists Demo.encoder; reflexivity|]).
    exfalso. exact (proj1 (elem_of_nil _) Hname). }
  assert (∀ models col model X,
            ModelStore.models Demo.store = Ok models →
            models !! col = Some model →
            ∃ prob, model X = Ok prob ∧ prob ≠ []) as Hmodels.
  { intros models col model X Hm Hcol.
    assert (models = Demo.models) as ->.
    { assert (ModelStore.models Demo.store = Ok Demo.models) as H by reflexivity.
      congruence. }
    unfold Demo.models in Hcol.
    repeat (rewrite lookup_insert in Hcol; case_decide;
            [injection Hcol as <-|]).
    + eexists. split; [reflexivity|discriminate].
    + unfold Demo.seasonal.
      repeat match goal with
             | |- context [match ?x with _ => _ end] => destruct x
             end;
        (eexists; split; [reflexivity|discriminate]).
    + eexists. split; [reflexivity|discriminate].
    + eexists. split; [reflexivity|discriminate].
    + rewrite lookup_empty in Hcol. discriminate Hcol. }
  destruct (loaded_store_serves_predictions Demo.disk ModelStore.__init__
              "model.bin" Demo.store Demo.june Demo.long_standing
              Hload Hencs Hmodels) as [Hserve _].
  destruct (loaded_store_serves_predictions Demo.disk ModelStore.__init__
              "model.bin" Demo.store Demo.june Demo.overflowing
              Hload Hencs Hmodels) as [_ Hrefuse].
  destruct Hserve as [r Hr];
    [reflexivity | float_range_literal
    | intros n [= <-]; vm_compute; reflexivity |].
  exists Demo.store, r. split; [reflexivity|]. split; [exact Hr|].
  apply Hrefuse. intros Hrange.
  assert (fits_float (10 ^ 400)) as Hfits by (apply Hrange; in_literal).
  vm_compute in Hfits. discriminate Hfits.
Defined.

(** The loop over the low-cardinality fields stops at the first field
    without encoder. *)
Lemma encode_fields_outcome encs items : ∀ (f : gmap string fvalue),
  (∃ f', for_each (encode_field encs) items f = Ok f'
         ∧ Forall (λ item, is_Some (encs !! item.1)) items)
  ∨ (∃ k, k ∈ items.*1 ∧ encs !! k = None
          ∧ for_each (encode_field encs) items f = Raise (KeyError k)).
Proof.
  induction items as [|[name value] items IH]; intros f; [left; by eexists|].
  cbn [for_each]. destruct (encs !! name) as [enc|] eqn:Henc.
  - destruct (encode_field_known encs f name value enc Henc) as [code ->].
    simpl. destruct (IH (<[name +:+ "_enc" := FInt code]> f))
      as [(f' & Hok & Hall)|(k & Hk & Hnone & Hraise)].
    + left. exists f'. split; [done|]. constructor; [by eexists|done].
    + right. exists k. split_and!; [|done..]. by right.
  - right. exists name. split_and!; [by left|done|].
    unfold encode_field, getitem. by rewrite Henc.
Qed.

(** [build_features] has three outcomes: the [OverflowError] of the numeric
    block, the [KeyError] of a field without encoder, or the features. *)
Lemma build_features_outcome pcs encs canal prov now c :
  (float_range c
   ∧ (∀ name, name ∈ encoded_fields → is_Some (encs !! name))
   ∧ ∃ features, build_features pcs encs canal prov now c = Ok features)
  ∨ (float_range c
     ∧ ∃ k, k ∈ encoded_fields ∧ encs !! k = None
            ∧ build_features pcs encs canal prov now c = Raise (KeyError k))
  ∨ (¬ float_range c
     ∧ build_features pcs encs canal prov now c
       = Raise (OverflowError "int too large to convert to float")).
Proof.
  unfold build_features.
  destruct (numeric_features_outcome c ∅) as [[Hrange [f1 ->]]|[Hbig ->]];
    [|by right; right].
  cbn [mbind result_bind].
  destruct (encode_fields_outcome encs (low_card_fields c) f1)
    as [(f2 & -> & Hall)|(k & Hk & Hnone & ->)].
  2: { right. left. split; [done|]. exists k. split_and!; [|done..].
       unfold low_card_fields in Hk. simpl in Hk. unfold encoded_fields.
       repeat (apply elem_of_cons in Hk as [->|Hk]; [in_literal|]).
       by apply elem_of_nil in Hk. }
  simpl. unfold getitem.
  destruct (encs !! "canal_entrada") as [enc1|] eqn:H1.
  2: { right. left. split; [done|]. exists "canal_entrada".
       split_and!; [|done..]. unfold encoded_fields. in_literal. }
  simpl.
  destruct (safe_label_encode_total enc1 (clean canal (canal_entrada c)))
    as [code1 ->].
  simpl. destruct (encs !! "nomprov") as [enc2|] eqn:H2.
  2: { right. left. split; [done|]. exists "nomprov".
       split_and!; [|done..]. unfold encoded_fields. in_literal. }
  simpl.
  destruct (safe_label_encode_total enc2 (clean prov (nomprov c)))
    as [code2 ->].
  simpl. left. split; [done|].
  split; [|destruct (fold_left _ _ _); by eexists].
  intros name Hname. unfold encoded_fields in Hname.
  unfold low_card_fields in Hall.
  repeat (apply Forall_cons in Hall as [? Hall]).
  repeat (apply elem_of_cons in Hname as [->|Hname]; [by eauto|]).
  by apply elem_of_nil in Hname.
Qed.

(** X5. Feature construction raises the [OverflowError] of [float] for a
    request with one of the five converted integers beyond the range of a
    double, whatever the encoders: the conversions come before the first
    encoder is read. For any other request it raises a [KeyError] when
    the bundle lacks the encoder of one of the ten encoded fields, and
    the key names such a field; validation does not prevent this, it only
    asks the encoder mapping to be non-empty. A frame is returned only
    when the five integers are in range and the bundle has all ten
    encoders, and it is returned then whenever [product_changes] is in
    range too. *)
Theorem missing_encoder_raises_KeyError store now c fcs pcs encs canal prov :
  ModelStore.feature_cols store = Ok fcs →
  ModelStore.product_cols store = Ok pcs →
  ModelStore.label_encoders store = Ok encs →
  ModelStore.top20_canal store = Ok canal →
  ModelStore.top20_prov store = Ok prov →
  (¬ float_range c →
     _preprocess store now c
     = Raise (OverflowError "int too large to convert to float"))
  ∧ (float_range c →
       (∃ name, name ∈ encoded_fields ∧ encs !! name = None) →
       ∃ k, k ∈ encoded_fields ∧ encs !! k = None
            ∧ _preprocess store now c = Raise (KeyError k))
  ∧ ((∃ df, _preprocess store now c = Ok df) →
       float_range c ∧ ∀ name, name ∈ encoded_fields → is_Some (encs !! name))
  ∧ (float_range c → changes_in_range c →
       (∀ name, name ∈ encoded_fields → is_Some (encs !! name)) →
       ∃ df, _preprocess store now c = Ok df).
Proof.
  intros Hf Hp He Hc Hv.
  split; [by apply (preprocess_overflow _ _ _ fcs pcs encs canal prov)|].
  assert (_preprocess store now c
          = features ← build_features pcs encs canal prov now c;
            Ok (make_frame fcs (make_row fcs features))) as Heq.
  { unfold _preprocess. by rewrite Hf, Hp, He, Hc, Hv. }
  rewrite Heq.
  destruct (build_features_outcome pcs encs canal prov now c)
    as [(Hrange & Hall & features & Hb)
       |[(Hrange & k & Hk & Hnone & Hb)|[Hbig Hb]]];
    rewrite Hb; simpl.
  - split_and!.
    + intros _ (name & Hname & Hnone).
      destruct (Hall name Hname) as [? ?]. congruence.
    + done.
    + intros _ _ _. by eexists.
  - split_and!.
    + intros _ _. by exists k.
    + by intros [? ?].
    + intros _ _ Hall. destruct (Hall k Hk) as [? ?]. congruence.
  - split_and!; [done|by intros [? ?]|done].
Qed.

Lemma missing_encoder_raises_KeyError_witness :
  ∃ store,
    ModelStore.load_model Demo.uncovered_disk ModelStore.__init__ "uncovered.bin"
    = (store, Ok ())
    ∧ _preprocess store Demo.june Demo.long_standing
      = Raise (KeyError "ind_empleado")
    ∧ _preprocess store Demo.june Demo.overflowing
      = Raise (OverflowError "int too large to convert to float").
Proof.
  assert (is_Ok (ModelStore.load_model Demo.uncovered_disk ModelStore.__init__
                   "uncovered.bin").2 = true) as Hok by (vm_compute; reflexivity).
  destruct (ModelStore.load_model Demo.uncovered_disk ModelStore.__init__
              "uncovered.bin") as [store [[]|e]] eqn:Hload; [|discriminate Hok].
  exists store. split; [reflexivity|].
  apply load_model_Ok in Hload as (a & Hd & _ & ->).
  assert (a = Demo.uncovered) as ->.
  { unfold Demo.uncovered_disk in Hd. rewrite lookup_singleton_eq in Hd.
    congruence. }
  destruct (missing_encoder_raises_KeyError
              {| ModelStore._artifact := Some Demo.uncovered;
                 ModelStore._loaded := true |}
              Demo.june Demo.long_standing _ _ _ _ _
              eq_refl eq_refl eq_refl eq_refl eq_refl) as (_ & Hkey & _).
  destruct (missing_encoder_raises_KeyError
              {| ModelStore._artifact := Some Demo.uncovered;
                 ModelStore._loaded := true |}
              Demo.june Demo.overflowing _ _ _ _ _
              eq_refl eq_refl eq_refl eq_refl eq_refl) as [Hoverflow _].
  split.
  - destruct Hkey as (k & Hk & Hnone & Hraise); [float_range_literal| |].
    { exists "nomprov". split; [unfold encoded_fields; in_literal|reflexivity]. }
    rewrite Hraise. clear Hk Hnone. vm_compute in Hraise. congruence.
  - apply Hoverflow. intros Hrange.
    assert (fits_float (10 ^ 400)) as Hfits by (apply Hrange; in_literal).
    vm_compute in Hfits. discriminate Hfits.
Defined.

(** * Further properties of the feature block *)

Lemma encode_field_Ok encs (f f' : gmap string fvalue) name value :
  encode_field encs f (name, value) = Ok f' →
  ∃ enc code,
    encs !! name = Some enc
    ∧ _safe_label_encode enc (default "nan" value) = Ok code
    ∧ f' = <[name +:+ "_enc" := FInt code]> f.
Proof.
  unfold encode_field, getitem. intros H.
  destruct (encs !! name) as [enc|] eqn:He; [|done]. simpl in H.
  destruct (_safe_label_encode enc (default "nan" value)) as [code|] eqn:Hc;
    [|done].
  injection H as <-. exists enc, code. split_and!; done.
Qed.

(** The dict [features] once more, with the encoders and codes of the two
    whitelisted fields: what is assigned before the loop over
    [product_cols] is still there at the end, unless its key is one of the
    last four or starts with [prev_]. *)
Lemma build_features_inv pcs encs canal prov now c features :
  build_features pcs encs canal prov now c = Ok features →
  ∃ f1 f2 enc1 code1 enc2 code2,
    numeric_features c ∅ = Ok f1
    ∧ for_each (encode_field encs) (low_card_fields c) f1 = Ok f2
    ∧ encs !! "canal_entrada" = Some enc1
    ∧ _safe_label_encode enc1 (clean canal (canal_entrada c)) = Ok code1
    ∧ encs !! "nomprov" = Some enc2
    ∧ _safe_label_encode enc2 (clean prov (nomprov c)) = Ok code2
    ∧ ∀ k v,
        (<["nomprov_enc" := FInt code2]>
           (<["pais_residencia_enc" :=
                FInt (if decide (pais_residencia c = Some "ES") then 1 else 0)]>
              (<["canal_entrada_enc" := FInt code1]> f2))) !! k = Some v →
        k ≠ "months_since_start" → k ≠ "month" → k ≠ "product_changes" →
        k ≠ "n_products" → (∀ col, k ≠ "prev_" +:+ col) →
        features !! k = Some v.
Proof.
  unfold build_features, getitem. intros H.
  destruct (numeric_features c ∅) as [f1|] eqn:Hnum; [|done].
  cbn [mbind result_bind] in H.
  destruct (for_each _ _ _) as [f2|] eqn:Hloop; [|done]. simpl in H.
  destruct (encs !! "canal_entrada") as [enc1|] eqn:H1; [|done]. simpl in H.
  destruct (_safe_label_encode enc1 _) as [code1|] eqn:Hc1; [|done]. simpl in H.
  destruct (encs !! "nomprov") as [enc2|] eqn:H2; [|done]. simpl in H.
  destruct (_safe_label_encode enc2 _) as [code2|] eqn:Hc2; [|done]. simpl in H.
  exists f1, f2, enc1, code1, enc2, code2. split_and!; try done.
  intros k v Hk Hk1 Hk2 Hk3 Hk4 Hk5.
  match type of Hk with
  | ?f3 !! _ = _ =>
      destruct (prev_block (prev_products c) pcs f3 0) as (Hframe & _ & _);
      destruct (fold_left (prev_step (prev_products c)) pcs (f3, 0))
        as [f n] eqn:Hfold
  end.
  injection H as <-.
  do 4 (rewrite lookup_insert_ne by done).
  simpl in Hframe. rewrite Hframe; [done|]. intros col _. apply Hk5.
Qed.

(** X6. The numeric features follow the default policy: [age] is clamped
    to [18, 100]; the tenure is 70 when absent or equal to the sentinel
    -999999, and the given value otherwise, a negative one included; the
    four indicators default to 0, 1, 1 and 28. Each value is stored as
    [float] makes it: exactly up to 53 bits, and rounded to the nearest
    double beyond. *)
Theorem numeric_features_policy pcs encs canal prov now c features :
  build_features pcs encs canal prov now c = Ok features →
  (∃ a, features !! "age" = Some (FFloat (inject_Z a))
        ∧ 18 ≤ a ≤ 100
        ∧ (18 ≤ age c ≤ 100 → a = age c)
        ∧ (age c < 18 → a = 18) ∧ (100 < age c → a = 100))
  ∧ (∃ t, holds_float features "antiguedad" t
          ∧ (antiguedad c = None ∨ antiguedad c = Some (-999999) → t = 70)
          ∧ (∀ v, antiguedad c = Some v → v ≠ -999999 → t = v))
  ∧ holds_float features "ind_nuevo" (default 0 (ind_nuevo c))
  ∧ holds_float features "indrel" (default 1 (indrel c))
  ∧ holds_float features "ind_actividad_cliente"
      (default 1 (ind_actividad_cliente c))
  ∧ holds_float features "cod_prov" (default 28 (cod_prov c)).
Proof.
  intros (f1 & f2 & enc1 & c1 & enc2 & c2 & Hnum & Hloop & _ & _ & _ & _ & Hkeep)%build_features_inv.
  assert (∀ k v,
            k ∈ ["age"; "antiguedad"; "ind_nuevo"; "indrel";
                 "ind_actividad_cliente"; "cod_prov"] →
            f1 !! k = Some v →
            features !! k = Some v) as Hkept.
  { intros k v Hk Hv.
    assert (f2 !! k = Some v) as Hf2.
    { rewrite (encode_fields_frame _ _ _ _ _ Hloop); [done|].
      unfold low_card_fields.
      repeat (apply elem_of_cons in Hk as [->|Hk];
              [repeat apply Forall_cons_2; try apply Forall_nil_2; done|]).
      exfalso. exact (proj1 (elem_of_nil _) Hk). }
    repeat (apply elem_of_cons in Hk as [->|Hk];
            [apply Hkeep; try done;
             by do 3 (rewrite lookup_insert_ne by done)|]).
    exfalso. exact (proj1 (elem_of_nil _) Hk). }
  apply numeric_features_Ok in Hnum
    as (v_age & v_ant & v_nuevo & v_rel & v_act & v_prov
        & Hage & Hant & Hnuevo & Hrel & Hact & Hprov & ->).
  split_and!.
  - exists (Z.max 18 (Z.min 100 (age c))). split_and!; try lia.
    apply Hkept; [in_literal|].
    do 6 (rewrite lookup_insert_ne by done). rewrite lookup_insert_eq.
    apply float_of_int_Ok in Hage as [-> _].
    rewrite round_to_double_exact; [done|lia].
  - eexists. split.
    + apply (holds_float_intro _ _ _ v_ant Hant).
      apply Hkept; [in_literal|].
      by do 4 (rewrite lookup_insert_ne by done); rewrite lookup_insert_eq.
    + split.
      * intros [->| ->]; reflexivity.
      * intros v -> Hv. by destruct (Z.eqb_spec v (-999999)).
  - apply (holds_float_intro _ _ _ v_nuevo Hnuevo).
    apply Hkept; [in_literal|].
    by do 3 (rewrite lookup_insert_ne by done); rewrite lookup_insert_eq.
  - apply (holds_float_intro _ _ _ v_rel Hrel).
    apply Hkept; [in_literal|].
    by do 2 (rewrite lookup_insert_ne by done); rewrite lookup_insert_eq.
  - apply (holds_float_intro _ _ _ v_act Hact).
    apply Hkept; [in_literal|].
    by rewrite lookup_insert_ne by done; rewrite lookup_insert_eq.
  - apply (holds_float_intro _ _ _ v_prov Hprov).
    apply Hkept; [in_literal|]. by rewrite lookup_insert_eq.
Qed.

Lemma numeric_features_policy_witness :
  let c := Demo.long_standing in
  ∃ features,
    build_features ["A"; "B"; "C"; "D"] Demo.label_encoders ["KHE"] ["MADRID"]
                   Demo.june c = Ok features
    ∧ features !! "age" = Some (FFloat (inject_Z 35))
    ∧ features !! "antiguedad" = Some (FFloat (inject_Z 9007199254740992))
    ∧ features !! "cod_prov" = Some (FFloat (inject_Z 8)).
Proof.
  intros c.
  assert (is_Ok (build_features ["A"; "B"; "C"; "D"] Demo.label_encoders
                   ["KHE"] ["MADRID"] Demo.june c) = true) as Hok.
  { vm_compute. reflexivity. }
  destruct (build_features ["A"; "B"; "C"; "D"] Demo.label_encoders
              ["KHE"] ["MADRID"] Demo.june c) as [features|e] eqn:Hf;
    [|discriminate Hok].
  exists features. split; [reflexivity|].
  destruct (numeric_features_policy _ _ _ _ _ _ _ Hf)
    as ((a & Ha & _ & Hin & _)
        & (t & (x & Hx & Hfloat & _) & _ & Hgiven)
        & _ & _ & _ & (y & Hy & _ & _ & Hexact)).
  split_and!.
  - rewrite Ha. rewrite (Hin ltac:(simpl; lia)). reflexivity.
  - rewrite Hx.
    rewrite (Hgiven 9007199254740993 eq_refl ltac:(discriminate)) in Hfloat.
    vm_compute in Hfloat. injection Hfloat as <-. reflexivity.
  - rewrite Hy. rewrite Hexact; [reflexivity|].
    vm_compute. discriminate.
Defined.

(** X7. Each of the eight low-cardinality fields gives the feature
    [<field>_enc]: the safe encoding, by the encoder of the field, of the
    value of the request, or of ["nan"] when the request has no value. *)
Theorem categorical_features_encoded pcs encs canal prov now c features :
  build_features pcs encs canal prov now c = Ok features →
  Forall (λ item,
            ∃ enc code,
              encs !! item.1 = Some enc
              ∧ _safe_label_encode enc (default "nan" item.2) = Ok code
              ∧ features !! (item.1 +:+ "_enc") = Some (FInt code))
         (low_card_fields c).
Proof.
  intros (f1 & f2 & enc1 & c1 & enc2 & c2 & Hnum & Hloop & _ & _ & _ & _ & Hkeep)%build_features_inv.
  unfold low_card_fields in *. cbn [for_each] in Hloop.
  repeat match type of Hloop with
         | mbind _ _ = Ok _ =>
             let f := fresh "f" in
             let E := fresh "E" in
             apply bind_Ok in Hloop as (f & E & Hloop);
             apply encode_field_Ok in E as (? & ? & ? & ? & ->)
         end.
  injection Hloop as <-.
  repeat apply Forall_cons_2; try apply Forall_nil_2;
    (eexists _, _; split_and!; [eassumption|eassumption|]);
    cbn [fst];
    (apply Hkeep; try done);
    do 3 (rewrite lookup_insert_ne by done);
    repeat first [ by rewrite lookup_insert_eq
                 | rewrite lookup_insert_ne by done ].
Qed.

Lemma categorical_features_encoded_witness :
  let c := Demo.client ∅ 4 in
  ∃ features,
    build_features ["A"; "B"; "C"; "D"] Demo.label_encoders ["KHE"] ["MADRID"]
                   Demo.june c = Ok features
    ∧ features !! "sexo_enc" = Some (FInt 2).
Proof.
  intros c.
  assert (is_Ok (build_features ["A"; "B"; "C"; "D"] Demo.label_encoders
                   ["KHE"] ["MADRID"] Demo.june c) = true) as Hok.
  { vm_compute. reflexivity. }
  destruct (build_features ["A"; "B"; "C"; "D"] Demo.label_encoders
              ["KHE"] ["MADRID"] Demo.june c) as [features|e] eqn:Hf;
    [|discriminate Hok].
  exists features. split; [reflexivity|].
  pose proof (categorical_features_encoded _ _ _ _ _ _ _ Hf) as Hall.
  unfold low_card_fields in Hall.
  apply Forall_cons in Hall as [(enc & code & Henc & Hcode & Hfeat) _].
  cbn [fst snd] in *.
  assert (enc = Demo.encoder) as ->.
  { assert (Demo.label_encoders !! "sexo" = Some Demo.encoder) as H
      by reflexivity.
    congruence. }
  assert (code = 2) as -> by (vm_compute in Hcode; congruence).
  exact Hfeat.
Defined.

(** X8. A label outside the vocabulary is encoded exactly as the label
    ["nan"], the stand-in of an absent value: the model cannot tell an
    unseen category from a missing one. *)
Theorem unseen_label_encoded_as_missing (encoder : LabelEncoder) (value : string) :
  value ∉ classes_ encoder →
  _safe_label_encode encoder value = _safe_label_encode encoder "nan".
Proof.
  intros Hv. rewrite !safe_label_encode_tiers.
  rewrite (decide_False (P := value ∈ classes_ encoder)) by done.
  by destruct (decide ("nan" ∈ classes_ encoder)).
Qed.

Lemma unseen_label_encoded_as_missing_witness :
  ("X" ∉ classes_ Demo.encoder)
  ∧ _safe_label_encode Demo.encoder "X" = Ok 2
  ∧ _safe_label_encode Demo.encoder "nan" = Ok 2.
Proof.
  assert ("X" ∉ classes_ Demo.encoder) as Hx.
  { simpl. intros H. repeat (apply elem_of_cons in H as [H|H]; [discriminate H|]).
    exact (proj1 (elem_of_nil _) H). }
  split; [exact Hx|].
  rewrite (unseen_label_encoded_as_missing Demo.encoder "X" Hx).
  split; reflexivity.
Defined.

(** X9. The two whitelisted fields: the channel and the province are
    encoded as they are when they are in their whitelist, and as the label
    ["OTHER"] when they are absent or outside it, so that all values outside
    the whitelist give one and the same feature. The country feature is 1
    for the value ["ES"] and 0 for any other or absent value. *)
Theorem whitelisted_features pcs encs canal prov now c features :
  build_features pcs encs canal prov now c = Ok features →
  (∃ enc code label,
     encs !! "canal_entrada" = Some enc
     ∧ _safe_label_encode enc label = Ok code
     ∧ features !! "canal_entrada_enc" = Some (FInt code)
     ∧ (∀ v, canal_entrada c = Some v → v ∈ canal → label = v)
     ∧ (canal_entrada c = None ∨ (∃ v, canal_entrada c = Some v ∧ v ∉ canal) →
          label = "OTHER"))
  ∧ (∃ enc code label,
       encs !! "nomprov" = Some enc
       ∧ _safe_label_encode enc label = Ok code
       ∧ features !! "nomprov_enc" = Some (FInt code)
       ∧ (∀ v, nomprov c = Some v → v ∈ prov → label = v)
       ∧ (nomprov c = None ∨ (∃ v, nomprov c = Some v ∧ v ∉ prov) →
            label = "OTHER"))
  ∧ (pais_residencia c = Some "ES" →
       features !! "pais_residencia_enc" = Some (FInt 1))
  ∧ (pais_residencia c ≠ Some "ES" →
       features !! "pais_residencia_enc" = Some (FInt 0)).
Proof.
  intros (f1 & f2 & enc1 & c1 & enc2 & c2 & Hnum & Hloop & He1 & Hc1 & He2 & Hc2 & Hkeep)%build_features_inv.
  assert (∀ whitelist value,
            (∀ v, value = Some v → v ∈ whitelist → clean whitelist value = v)
            ∧ (value = None ∨ (∃ v, value = Some v ∧ v ∉ whitelist) →
                 clean whitelist value = "OTHER")) as Hclean.
  { intros whitelist value. unfold clean. split.
    - intros v -> Hv. by rewrite decide_True.
    - intros [->|(v & -> & Hv)]; [done|]. by rewrite decide_False. }
  split_and!.
  - exists enc1, c1, (clean canal (canal_entrada c)).
    split_and!; [done|done| |apply Hclean..].
    apply Hkeep; try done.
    do 2 (rewrite lookup_insert_ne by done). by rewrite lookup_insert_eq.
  - exists enc2, c2, (clean prov (nomprov c)).
    split_and!; [done|done| |apply Hclean..].
    apply Hkeep; try done. by rewrite lookup_insert_eq.
  - intros Hes. apply Hkeep; try done.
    rewrite lookup_insert_ne by done. rewrite lookup_insert_eq.
    by rewrite decide_True.
  - intros Hes. apply Hkeep; try done.
    rewrite lookup_insert_ne by done. rewrite lookup_insert_eq.
    by rewrite decide_False.
Qed.

Lemma whitelisted_features_witness :
  let c := Demo.client ∅ 4 in
  ∃ features,
    build_features ["A"; "B"; "C"; "D"] Demo.label_encoders ["KHE"] ["MADRID"]
                   Demo.june c = Ok features
    ∧ features !! "pais_residencia_enc" = Some (FInt 0)
    ∧ features !! "canal_entrada_enc" = Some (FInt 2).
Proof.
  intros c.
  assert (is_Ok (build_features ["A"; "B"; "C"; "D"] Demo.label_encoders
                   ["KHE"] ["MADRID"] Demo.june c) = true) as Hok.
  { vm_compute. reflexivity. }
  destruct (build_features ["A"; "B"; "C"; "D"] Demo.label_encoders
              ["KHE"] ["MADRID"] Demo.june c) as [features|e] eqn:Hf;
    [|discriminate Hok].
  exists features. split; [reflexivity|].
  destruct (whitelisted_features _ _ _ _ _ _ _ Hf)
    as ((enc & code & label & Henc & Hcode & Hfeat & _ & Hother) & _ & _ & Hpais).
  split.
  - apply Hpais. discriminate.
  - assert (label = "OTHER") as -> by (apply Hother; left; reflexivity).
    assert (enc = Demo.encoder) as ->.
    { assert (Demo.label_encoders !! "canal_entrada" = Some Demo.encoder) as H
        by reflexivity.
      congruence. }
    assert (code = 2) as -> by (vm_compute in Hcode; congruence).
    exact Hfeat.
Defined.

(** ** The observation date *)

Lemma in_range_digit lo hi ch :
  Py.in_range lo hi ch = true →
  Z.of_nat lo - 48 ≤ Py.digit ch ≤ Z.of_nat hi - 48.
Proof.
  unfold Py.in_range, Py.digit.
  intros [H1%Nat.leb_le H2%Nat.leb_le]%andb_true_iff. lia.
Qed.

Lemma is_digit_digit ch : Py.is_digit ch = true → 0 ≤ Py.digit ch ≤ 9.
Proof.
  unfold Py.is_digit, Py.digit.
  intros [H1%Nat.leb_le H2%Nat.leb_le]%andb_true_iff. lia.
Qed.

Lemma parse_month_range s m r :
  Py.parse_month s = Some (m, r) → 1 ≤ m ≤ 12.
Proof.
  unfold Py.parse_month.
  destruct s as [|a [|b s]]; [done|..].
  - destruct (Py.in_range 49 57 a) eqn:Ha; [|done].
    intros [= <- <-]. apply in_range_digit in Ha. lia.
  - destruct ((a =? "1")%char && Py.in_range 48 50 b) eqn:H1.
    { apply andb_true_iff in H1 as [_ Hb%in_range_digit].
      intros [= <- <-]. lia. }
    destruct ((a =? "0")%char && Py.in_range 49 57 b) eqn:H2.
    { apply andb_true_iff in H2 as [_ Hb%in_range_digit].
      intros [= <- <-]. lia. }
    destruct (Py.in_range 49 57 a) eqn:Ha; [|done].
    intros [= <- <-]. apply in_range_digit in Ha. lia.
Qed.

Lemma strptime_ymd_range s dt :
  Py.strptime_ymd s = Some dt →
  1 ≤ Py.year dt ≤ 9999 ∧ 1 ≤ Py.month dt ≤ 12
  ∧ Py.day dt ≤ Py.days_in_month (Py.year dt) (Py.month dt) ≤ 31.
Proof.
  unfold Py.strptime_ymd.
  destruct s as [|y1 [|y2 [|y3 [|y4 [|dash1 r1]]]]]; try done.
  destruct (Py.is_digit y1 && Py.is_digit y2 && Py.is_digit y3
            && Py.is_digit y4 && (dash1 =? "-")%char) eqn:Hhead; [|done].
  do 4 (apply andb_true_iff in Hhead as [Hhead ?]).
  destruct (Py.parse_month r1) as [[m [|dash2 r2]]|] eqn:Hm; try done.
  destruct (dash2 =? "-")%char; [|done].
  destruct (Py.parse_day r2) as [[d [|? ?]]|]; try done.
  destruct ((1 <=? _) && (d <=? _)) eqn:Hvalid; [|done].
  apply andb_true_iff in Hvalid as [Hy%Z.leb_le Hd%Z.leb_le].
  intros [= <-]. cbn [Py.year Py.month Py.day].
  apply parse_month_range in Hm.
  repeat match goal with
         | H : Py.is_digit _ = true |- _ => apply is_digit_digit in H
         end.
  split_and!; try lia.
  unfold Py.days_in_month. repeat case_match; lia.
Qed.

(** X10. The month features are those of the observation date when the
    request carries a well-formed one, which then is a date of the
    calendar, and those of the clock when the date is absent, empty, or a
    string of ASCII characters that is not such a date;
    [months_since_start] counts the months since February 2015 and is 0,
    never negative, for an earlier date. *)
Theorem temporal_features pcs encs canal prov now c features :
  build_features pcs encs canal prov now c = Ok features →
  ∃ dt since,
    features !! "month" = Some (FInt (Py.month dt))
    ∧ features !! "months_since_start" = Some (FInt since)
    ∧ 0 ≤ since
    ∧ (2015 * 12 + 2 ≤ Py.year dt * 12 + Py.month dt →
         since = (Py.year dt - 2015) * 12 + (Py.month dt - 2))
    ∧ (Py.year dt * 12 + Py.month dt < 2015 * 12 + 2 → since = 0)
    ∧ (∀ s d, fecha_dato c = Some s → Py.strptime_ymd s = Some d →
         dt = d ∧ 1 ≤ Py.month d ≤ 12 ∧ 1 ≤ Py.year d ≤ 9999)
    ∧ (fecha_dato c = None ∨ fecha_dato c = Some ""
       ∨ (∃ s, fecha_dato c = Some s ∧ Py.is_ascii s = true
               ∧ Py.strptime_ymd s = None) →
         dt = now).
Proof.
  intros (f1 & f2 & c1 & c2 & Hnum & Hloop & ->)%build_features_Ok.
  exists (observation_date now c). eexists.
  split_and!.
  - rewrite lookup_insert_ne by done. by rewrite lookup_insert_eq.
  - by rewrite lookup_insert_eq.
  - lia.
  - simpl. lia.
  - simpl. lia.
  - intros s d Hs Hd. unfold observation_date. rewrite Hs.
    destruct (strptime_ymd_range s d Hd) as (Hy & Hm & _).
    rewrite decide_False; [by rewrite Hd|]. by intros ->.
  - unfold observation_date.
    intros [->|[->|(s & -> & _ & Hs)]]; [done|done|].
    rewrite Hs. by case_decide.
Qed.

Lemma temporal_features_witness :
  let c := Demo.with_date (Demo.client ∅ 4) "2014-12-31" in
  let c' := Demo.with_date (Demo.client ∅ 4) "2015-02-29" in
  ∃ features features',
    build_features ["A"; "B"; "C"; "D"] Demo.label_encoders ["KHE"] ["MADRID"]
                   Demo.june c = Ok features
    ∧ features !! "month" = Some (FInt 12)
    ∧ features !! "months_since_start" = Some (FInt 0)
    ∧ build_features ["A"; "B"; "C"; "D"] Demo.label_encoders ["KHE"]
                     ["MADRID"] Demo.june c' = Ok features'
    ∧ features' !! "month" = Some (FInt 6).
Proof.
  intros c c'.
  assert (is_Ok (build_features ["A"; "B"; "C"; "D"] Demo.label_encoders
                   ["KHE"] ["MADRID"] Demo.june c) = true) as Hok.
  { vm_compute. reflexivity. }
  destruct (build_features ["A"; "B"; "C"; "D"] Demo.label_encoders
              ["KHE"] ["MADRID"] Demo.june c) as [features|e] eqn:Hf;
    [|discriminate Hok].
  assert (is_Ok (build_features ["A"; "B"; "C"; "D"] Demo.label_encoders
                   ["KHE"] ["MADRID"] Demo.june c') = true) as Hok'.
  { vm_compute. reflexivity. }
  destruct (build_features ["A"; "B"; "C"; "D"] Demo.label_encoders
              ["KHE"] ["MADRID"] Demo.june c') as [features'|e] eqn:Hf';
    [|discriminate Hok'].
  exists features, features'. split; [reflexivity|].
  destruct (temporal_features _ _ _ _ _ _ _ Hf)
    as (dt & since & Hmonth & Hsince & _ & _ & Hbefore & Hparsed & _).
  destruct (Hparsed "2014-12-31"
              {| Py.year := 2014; Py.month := 12; Py.day := 31 |}
              eq_refl eq_refl) as (-> & _).
  rewrite Hmonth, Hsince. simpl in Hbefore. rewrite Hbefore by lia.
  split; [reflexivity|]. split; [reflexivity|]. split; [reflexivity|].
  destruct (temporal_features _ _ _ _ _ _ _ Hf')
    as (dt' & since' & Hmonth' & _ & _ & _ & _ & _ & Hclock).
  rewrite Hmonth', Hclock; [reflexivity|].
  right. right. exists "2015-02-29". split_and!; reflexivity.
Defined.

(** ** The two counts of owned products *)

Lemma length_filter_impl {A : Type} (P Q : A → Prop)
    `{∀ x, Decision (P x)} `{∀ x, Decision (Q x)} (l : list A) :
  (∀ x, x ∈ l → P x → Q x) →
  (length (filter P l) ≤ length (filter Q l))%nat.
Proof.
  induction l as [|x l IH]; intros HPQ; [done|].
  rewrite !filter_cons.
  assert (length (filter P l) ≤ length (filter Q l))%nat as Hl.
  { apply IH. intros y Hy. apply HPQ. by right. }
  destruct (decide (P x)) as [HP|HP].
  - rewrite decide_True by (apply HPQ; [by left|done]). simpl. lia.
  - destruct (decide (Q x)); simpl; lia.
Qed.

(** X11. The feature [n_products] counts the products of the catalog whose
    flag is not 0, the count returned with the recommendations counts those
    whose flag is 1: the feature is never smaller than the count returned,
    never larger than the catalog, and the two agree when every flag of a
    product of the catalog is 0 or 1. The feature [product_changes] is the
    value of the request, 0 when absent. *)
Theorem n_products_feature_bounds pcs encs canal prov now c features :
  build_features pcs encs canal prov now c = Ok features →
  ∃ n,
    features !! "n_products" = Some (FInt n)
    ∧ count_owned (prev_products c) pcs ≤ n ≤ Z.of_nat (length pcs)
    ∧ ((∀ col v, col ∈ pcs → prev_products c !! col = Some v → v = 0 ∨ v = 1) →
         n = count_owned (prev_products c) pcs)
    ∧ features !! "product_changes"
      = Some (FInt (default 0 (product_changes c))).
Proof.
  intros H. pose proof (features_n_products _ _ _ _ _ _ _ H) as Hn.
  apply build_features_Ok in H as (f1 & f2 & c1 & c2 & Hnum & Hloop & ->).
  eexists. split; [exact Hn|]. split_and!.
  - unfold count_owned. apply inj_le, length_filter_impl.
    intros col _. unfold truthy. intros ->. done.
  - apply inj_le, length_filter.
  - intros Hflags.
    change (count_owned (prev_products c) pcs)
      with (Z.of_nat (length (filter (owned (prev_products c)) pcs))).
    assert (length (filter (truthy (prev_products c)) pcs)
            ≤ length (filter (owned (prev_products c)) pcs))%nat as Hle.
    { apply length_filter_impl. intros col Hcol. unfold truthy, owned.
      destruct (prev_products c !! col) as [v|] eqn:Hv; simpl; [|done].
      by destruct (Hflags col v Hcol Hv) as [->| ->]. }
    assert (length (filter (owned (prev_products c)) pcs)
            ≤ length (filter (truthy (prev_products c)) pcs))%nat as Hge.
    { apply length_filter_impl. intros col _. unfold truthy, owned.
      by intros ->. }
    lia.
  - do 2 (rewrite lookup_insert_ne by done). by rewrite lookup_insert_eq.
Qed.

Lemma n_products_feature_bounds_witness :
  let c := Demo.client (<["A" := 2]> {[ "B" := 1 ]}) 4 in
  ∃ features,
    build_features ["A"; "B"; "C"; "D"] Demo.label_encoders ["KHE"] ["MADRID"]
                   Demo.june c = Ok features
    ∧ features !! "n_products" = Some (FInt 2)
    ∧ count_owned (prev_products c) ["A"; "B"; "C"; "D"] = 1.
Proof.
  intros c.
  assert (is_Ok (build_features ["A"; "B"; "C"; "D"] Demo.label_encoders
                   ["KHE"] ["MADRID"] Demo.june c) = true) as Hok.
  { vm_compute. reflexivity. }
  destruct (build_features ["A"; "B"; "C"; "D"] Demo.label_encoders
              ["KHE"] ["MADRID"] Demo.june c) as [features|e] eqn:Hf;
    [|discriminate Hok].
  exists features. split; [reflexivity|].
  destruct (n_products_feature_bounds _ _ _ _ _ _ _ Hf) as (n & Hn & _).
  split; [|reflexivity].
  pose proof (features_n_products _ _ _ _ _ _ _ Hf) as Hn'.
  rewrite Hn'. reflexivity.
Defined.

(** * Further properties of the ranking *)

(** ** Stability of the sort *)

Section stable.
Context {A : Type}.
Implicit Types (x y z : A * Q) (l s : list (A * Q)).

Lemma insert_desc_sublist z s : s `sublist_of` Py.insert_desc z s.
Proof.
  induction s as [|h s IH]; simpl; [apply sublist_nil_l|].
  destruct (Qlt_le_dec z.2 h.2).
  - by apply sublist_skip.
  - by apply sublist_cons.
Qed.

(** An item is inserted in front of the items whose key is not larger. *)
Lemma insert_desc_before z y s :
  y ∈ s → (y.2 <= z.2)%Q → [z; y] `sublist_of` Py.insert_desc z s.
Proof.
  induction s as [|h s IH]; intros Hy Hle; [by apply elem_of_nil in Hy|].
  simpl. destruct (Qlt_le_dec z.2 h.2) as [Hlt|Hge].
  - apply sublist_cons. apply IH; [|done].
    apply elem_of_cons in Hy as [->|Hy]; [|done]. exfalso. lra.
  - apply sublist_skip. by apply singleton_sublist_l.
Qed.

(** The sort is stable: an item stays in front of every later item whose
    key is not larger. *)
Lemma sorted_desc_stable_sublist x y l :
  [x; y] `sublist_of` l → (y.2 <= x.2)%Q →
  [x; y] `sublist_of` Py.sorted_desc l.
Proof.
  induction l as [|z l IH]; intros Hsub Hle; [by inv Hsub|].
  simpl. apply sublist_cons_r in Hsub as [Hsub|(l' & [= <- <-] & Hsub)].
  - etransitivity; [by apply IH|]. apply insert_desc_sublist.
  - apply insert_desc_before; [|done].
    rewrite sorted_desc_perm. by apply singleton_sublist_l.
Qed.
End stable.

Lemma sublist_omap {A B : Type} (f : A → option B) (l1 l2 : list A) :
  l1 `sublist_of` l2 → omap f l1 `sublist_of` omap f l2.
Proof.
  induction 1 as [|x l1 l2 Hl IH|x l1 l2 Hl IH]; [done|..].
  - change (omap f (x :: l1))
      with (match f x with Some y => y :: omap f l1 | None => omap f l1 end).
    change (omap f (x :: l2))
      with (match f x with Some y => y :: omap f l2 | None => omap f l2 end).
    destruct (f x); [by apply sublist_skip|done].
  - change (omap f (x :: l2))
      with (match f x with Some y => y :: omap f l2 | None => omap f l2 end).
    destruct (f x); [by apply sublist_cons|done].
Qed.

(** A pair of items that is in order in a list without duplicates is in
    order in a prefix that holds the second item. *)
Lemma sublist_pair_take {A : Type} (x y : A) (n : nat) (l : list A) :
  NoDup l → [x; y] `sublist_of` l → y ∈ take n l →
  [x; y] `sublist_of` take n l.
Proof.
  intros Hnd Hsub Hy.
  rewrite <- (take_drop n l) in Hsub, Hnd.
  apply NoDup_app in Hnd as (_ & Hdisj & _).
  apply sublist_app_r in Hsub as (l1 & l2 & Heq & H1 & H2).
  destruct l1 as [|a [|b l1]]; simpl in Heq.
  - subst l2. exfalso. apply (Hdisj y Hy).
    eapply elem_of_sublist; [|exact H2]. by right; left.
  - injection Heq as <- <-. exfalso. apply (Hdisj y Hy).
    eapply elem_of_sublist; [|exact H2]. by left.
  - injection Heq as <- <- Heq. symmetry in Heq.
    apply app_eq_nil in Heq as [-> ->]. done.
Qed.

(** The entries of a dict, in the order of its keys. *)
Lemma sublist_keys_entries {V : Type} (d : list (string * V)) a b va vb :
  NoDup d.*1 → [a; b] `sublist_of` d.*1 →
  Py.lookup_item a d = Some va → Py.lookup_item b d = Some vb →
  [(a, va); (b, vb)] `sublist_of` d.
Proof.
  intros Hnd Hsub Ha Hb.
  assert (∀ l, l `sublist_of` d.*1 →
            ∃ l', l' `sublist_of` d ∧ l'.*1 = l) as Hinv.
  { clear. induction d as [|[k v] d IH]; intros l Hl.
    - inv Hl. by exists [].
    - rewrite fmap_cons in Hl. simpl in Hl.
      apply sublist_cons_r in Hl as [Hl|(l0 & -> & Hl)].
      + destruct (IH l Hl) as (l' & Hl' & <-). exists l'.
        split; [by apply sublist_cons|done].
      + destruct (IH l0 Hl) as (l' & Hl' & <-). exists ((k, v) :: l').
        split; [by apply sublist_skip|done]. }
  destruct (Hinv _ Hsub) as (l' & Hl' & Hkeys).
  destruct l' as [|[a' va'] [|[b' vb'] [|? ?]]]; try done.
  simpl in Hkeys. injection Hkeys as -> ->.
  assert (va' = va) as ->.
  { assert (Py.lookup_item a d = Some va') as H; [|congruence].
    apply lookup_item_elem; [done|].
    eapply elem_of_sublist; [|exact Hl']. by left. }
  assert (vb' = vb) as ->.
  { assert (Py.lookup_item b d = Some vb') as H; [|congruence].
    apply lookup_item_elem; [done|].
    eapply elem_of_sublist; [|exact Hl']. by right; left. }
  done.
Qed.

(** With a catalog free of duplicates the scored dict lists the products
    in the order of the catalog. *)
Lemma score_loop_keys models X cols : ∀ acc probs,
  for_each (score_step models X) cols acc = Ok probs →
  NoDup (acc.*1 ++ cols) → probs.*1 = acc.*1 ++ cols.
Proof.
  induction cols as [|c cols IH]; intros acc probs H Hnd.
  - injection H as <-. by rewrite app_nil_r.
  - cbn [for_each] in H. apply bind_Ok in H as (acc' & Hstep & H).
    apply score_step_Ok in Hstep as (p & _ & ->).
    assert (c ∉ acc.*1) as Hc.
    { apply NoDup_app in Hnd as (_ & Hdisj & _). intros Hin.
      apply (Hdisj c Hin). by left. }
    rewrite (IH _ _ H); rewrite setitem_keys_absent by done.
    + by rewrite <- app_assoc.
    + by rewrite <- app_assoc.
Qed.

(** ** The list returned *)

(** The stages of a run of [predict] and what the ranking works on: a dict
    whose keys are the products of the catalog, each once. *)
Lemma predict_stages store now c r :
  predict store now c = Ok r →
  ∃ models pcs names X probs n,
    ModelStore.models store = Ok models
    ∧ ModelStore.product_cols store = Ok pcs
    ∧ ModelStore.product_names store = Ok names
    ∧ _preprocess store now c = Ok X
    ∧ score models X pcs = Ok probs
    ∧ let top := exclude_owned (prev_products c) pcs probs in
      NoDup top.*1
      ∧ (∀ col, col ∈ top.*1 ↔ col ∈ pcs)
      ∧ (NoDup pcs → top.*1 = pcs)
      ∧ (0 ≤ top_k c → n = Z.to_nat (top_k c))
      ∧ recommendations r
        = omap (recommend names) (take n (Py.sorted_desc top))
      ∧ n_current_products r = count_owned (prev_products c) pcs.
Proof.
  intros (models & pcs & names & X & probs
          & Hm & Hp & Hn & HX & Hs & ->)%predict_Ok.
  destruct (slice_to_take (top_k c)
              (Py.sorted_desc (exclude_owned (prev_products c) pcs probs)))
    as (n & Hslice & Hk).
  exists models, pcs, names, X, probs, n. split_and!; try done.
  pose proof Hs as Hs'. unfold score in Hs'.
  apply score_loop in Hs' as (Hnd & Hkeys & _ & _).
  assert ((exclude_owned (prev_products c) pcs probs).*1 = probs.*1) as Htop.
  { apply exclude_owned_keys. intros col Hcol. apply Hkeys. by right. }
  cbv zeta. rewrite Htop. split_and!.
  - apply Hnd, NoDup_nil_2.
  - intros col. rewrite Hkeys. split; [|by right].
    by intros [[]%elem_of_nil|].
  - intros Hpcs. unfold score in Hs.
    by rewrite (score_loop_keys _ _ _ _ _ Hs).
  - done.
  - cbn [recommendations]. by rewrite Hslice.
  - done.
Qed.

(** X12. No product is recommended twice, also when the catalog lists it
    twice; every product recommended is one of the catalog; and its
    display name is the entry of [product_names], or the identifier itself
    when [product_names] has no entry for it. *)
Theorem recommendations_distinct_and_named store now c r :
  predict store now c = Ok r →
  ∃ pcs names,
    ModelStore.product_cols store = Ok pcs
    ∧ ModelStore.product_names store = Ok names
    ∧ NoDup (product_col <$> recommendations r)
    ∧ Forall (λ rec,
                product_col rec ∈ pcs
                ∧ product_name rec
                  = default (product_col rec) (names !! product_col rec))
             (recommendations r).
Proof.
  intros (models & pcs & names & X & probs & n
          & Hm & Hp & Hn & HX & Hs & Hnd & Hkeys & _ & _ & Hrecs & _)%predict_stages.
  exists pcs, names. split_and!; try done.
  - rewrite Hrecs.
    eapply sublist_NoDup; [|apply recommend_cols_sublist].
    rewrite fmap_take. eapply sublist_NoDup; [|apply sublist_take].
    by rewrite sorted_desc_perm.
  - rewrite Hrecs. apply Forall_forall. intros rec Hrec.
    apply list_elem_of_omap in Hrec as ([col p] & Hin & Hrec).
    apply subseteq_take in Hin. rewrite sorted_desc_perm in Hin.
    unfold recommend in Hrec. destruct (Qlt_le_dec 0 p); [|done].
    injection Hrec as <-. simpl. split; [|done].
    apply Hkeys. apply list_elem_of_fmap. by exists (col, p).
Qed.

Lemma recommendations_distinct_and_named_witness :
  let r := {| recommendations :=
                [ {| product_col := "A"; product_name := "Current account";
                     probability := 0.700000%Q |};
                  {| product_col := "D"; product_name := "D";
                     probability := 0.200000%Q |} ];
              n_current_products := 0 |} in
  predict Demo.store Demo.june (Demo.client ∅ 2) = Ok r
  ∧ NoDup (product_col <$> recommendations r).
Proof.
  intros r.
  assert (predict Demo.store Demo.june (Demo.client ∅ 2) = Ok r) as Hr.
  { vm_compute. reflexivity. }
  split; [exact Hr|].
  destruct (recommendations_distinct_and_named _ _ _ _ Hr)
    as (pcs & names & _ & _ & Hnd & _).
  exact Hnd.
Defined.

(** X13. Ties follow the catalog: when product [a] stands before product
    [b] in a catalog free of duplicates and its probability after the
    exclusion step is not smaller than that of [b], then [a] is recommended
    whenever [b] is, and before it. *)
Theorem ties_follow_catalog_order store now c r pcs models X probs a b pa pb :
  predict store now c = Ok r →
  ModelStore.models store = Ok models →
  ModelStore.product_cols store = Ok pcs →
  _preprocess store now c = Ok X →
  score models X pcs = Ok probs →
  NoDup pcs →
  [a; b] `sublist_of` pcs →
  Py.lookup_item a (exclude_owned (prev_products c) pcs probs) = Some pa →
  Py.lookup_item b (exclude_owned (prev_products c) pcs probs) = Some pb →
  (pb <= pa)%Q →
  b ∈ product_col <$> recommendations r →
  [a; b] `sublist_of` (product_col <$> recommendations r).
Proof.
  intros (models' & pcs' & names & X' & probs' & n
          & Hm' & Hp' & Hn & HX' & Hs' & Hstages)%predict_stages
         Hm Hp HX Hs Hpcs Hab Ha Hb Hle Hrec.
  assert (models' = models) as -> by congruence.
  assert (pcs' = pcs) as -> by congruence.
  assert (X' = X) as -> by congruence.
  assert (probs' = probs) as -> by congruence.
  cbv zeta in Hstages.
  set (top := exclude_owned (prev_products c) pcs probs) in *.
  destruct Hstages as (Hnd & Hkeys & Horder & _ & Hrecs & _).
  rewrite Hrecs in Hrec |- *.
  assert (NoDup (Py.sorted_desc top)) as Hnd'.
  { rewrite sorted_desc_perm. by eapply NoDup_fmap_1. }
  (* the entry of [b] is in the slice and has a positive probability *)
  apply list_elem_of_fmap in Hrec as (rec & -> & Hrec).
  apply list_elem_of_omap in Hrec as ([b' pb'] & Hin & Hrec).
  apply recommend_Some in Hrec as (Hpos & Hcol & _). simpl in Hcol. subst b'.
  assert (pb' = pb) as ->.
  { assert (Py.lookup_item (product_col rec) top = Some pb') as H; [|congruence].
    apply lookup_item_elem; [done|].
    apply subseteq_take in Hin. by rewrite sorted_desc_perm in Hin. }
  (* the two entries are in order in the dict, in the ranking, in the slice *)
  assert ([(a, pa); (product_col rec, pb)] `sublist_of` top) as Hsub.
  { apply sublist_keys_entries; try done. by rewrite Horder. }
  apply (sorted_desc_stable_sublist _ _ _ Hsub) in Hle as Hsorted.
  apply (sublist_pair_take _ _ n _ Hnd') in Hsorted; [|done].
  apply (sublist_omap (recommend names)) in Hsorted.
  apply (fmap_sublist product_col) in Hsorted.
  assert (recommend names (a, pa)
          = Some {| product_col := a;
                    product_name := default a (names !! a);
                    probability := Py.round6 pa |}) as Hfa.
  { unfold recommend. destruct (Qlt_le_dec 0 pa); [done|]. exfalso. lra. }
  assert (recommend names (product_col rec, pb)
          = Some {| product_col := product_col rec;
                    product_name :=
                      default (product_col rec) (names !! product_col rec);
                    probability := Py.round6 pb |}) as Hfb.
  { unfold recommend. destruct (Qlt_le_dec 0 pb); [done|]. exfalso. lra. }
  change (omap (recommend names) [(a, pa); (product_col rec, pb)])
    with (match recommend names (a, pa) with
          | Some y =>
              y :: match recommend names (product_col rec, pb) with
                   | Some z => [z]
                   | None => []
                   end
          | None =>
              match recommend names (product_col rec, pb) with
              | Some z => [z]
              | None => []
              end
          end) in Hsorted.
  rewrite Hfa, Hfb in Hsorted.
  exact Hsorted.
Qed.

Lemma ties_follow_catalog_order_witness :
  let c := Demo.client ∅ 2 in
  let r := {| recommendations :=
                [ {| product_col := "A"; product_name := "Current account";
                     probability := 0.500000%Q |};
                  {| product_col := "B"; product_name := "B";
                     probability := 0.500000%Q |} ];
              n_current_products := 0 |} in
  predict Demo.flat_store Demo.june c = Ok r
  ∧ NoDup ["A"; "B"; "C"; "D"]
  ∧ [ "A"; "B" ] `sublist_of` (product_col <$> recommendations r).
Proof.
  intros c r.
  assert (predict Demo.flat_store Demo.june c = Ok r) as Hr
    by (vm_compute; reflexivity).
  assert (NoDup ["A"; "B"; "C"; "D"]) as Hnd.
  { repeat (apply NoDup_cons; split;
            [intros H; repeat (apply elem_of_cons in H as [H|H];
                               [discriminate H|]);
             exact (proj1 (elem_of_nil _) H)|]).
    apply NoDup_nil_2. }
  split; [exact Hr|]. split; [exact Hnd|].
  assert (∃ X, _preprocess Demo.flat_store Demo.june c = Ok X) as [X HX].
  { eexists. vm_compute. reflexivity. }
  pose (probs := [("A", 0.5%Q); ("B", 0.5%Q); ("C", 0.5%Q); ("D", 0.5%Q)]).
  assert (score (<["A" := Demo.constant 0.5%Q]>
                   (<["B" := Demo.constant 0.5%Q]>
                      (<["C" := Demo.constant 0.5%Q]>
                         (<["D" := Demo.constant 0.5%Q]> ∅))))
                X ["A"; "B"; "C"; "D"] = Ok probs) as Hs.
  { reflexivity. }
  apply (ties_follow_catalog_order Demo.flat_store Demo.june c r
           ["A"; "B"; "C"; "D"] _ X probs "A" "B" 0.5%Q 0.5%Q
           Hr eq_refl eq_refl HX Hs Hnd).
  - apply sublist_skip, sublist_skip, sublist_nil_l.
  - reflexivity.
  - reflexivity.
  - apply Qle_refl.
  - simpl. in_literal.
Defined.

(** X14. The list returned holds the best of the catalog: a product of the
    catalog that is not recommended never has, after the exclusion step, a
    larger probability than a recommended one. *)
Theorem recommended_have_highest_probabilities
    store now c r pcs models X probs rec col p q :
  predict store now c = Ok r →
  ModelStore.models store = Ok models →
  ModelStore.product_cols store = Ok pcs →
  _preprocess store now c = Ok X →
  score models X pcs = Ok probs →
  rec ∈ recommendations r →
  col ∈ pcs →
  col ∉ product_col <$> recommendations r →
  Py.lookup_item (product_col rec)
    (exclude_owned (prev_products c) pcs probs) = Some p →
  Py.lookup_item col (exclude_owned (prev_products c) pcs probs) = Some q →
  (q <= p)%Q ∧ (0 < p)%Q ∧ probability rec = Py.round6 p.
Proof.
  intros (models' & pcs' & names & X' & probs' & n
          & Hm' & Hp' & Hn & HX' & Hs' & Hstages)%predict_stages
         Hm Hp HX Hs Hrec Hcol Hnot Hlp Hlq.
  assert (models' = models) as -> by congruence.
  assert (pcs' = pcs) as -> by congruence.
  assert (X' = X) as -> by congruence.
  assert (probs' = probs) as -> by congruence.
  cbv zeta in Hstages.
  set (top := exclude_owned (prev_products c) pcs probs) in *.
  destruct Hstages as (Hnd & Hkeys & _ & _ & Hrecs & _).
  rewrite Hrecs in Hrec, Hnot.
  apply list_elem_of_omap in Hrec as ([col' p'] & Hin & Hrec').
  pose proof Hrec' as Hrec''.
  apply recommend_Some in Hrec'' as (Hpos & Hcol' & Hround).
  simpl in Hcol'. subst col'.
  assert (p' = p) as ->.
  { assert (Py.lookup_item (product_col rec) top = Some p') as H; [|congruence].
    apply lookup_item_elem; [done|].
    apply subseteq_take in Hin. by rewrite sorted_desc_perm in Hin. }
  split_and!; [|done..].
  assert ((col, q) ∈ Py.sorted_desc top) as Hq.
  { rewrite sorted_desc_perm. by apply lookup_item_Some. }
  rewrite <- (take_drop n (Py.sorted_desc top)) in Hq.
  apply elem_of_app in Hq as [Hq|Hq].
  - (* in the slice, and dropped: its probability is not positive *)
    destruct (Qlt_le_dec 0 q) as [Hqpos|Hqneg]; [|lra].
    exfalso. apply Hnot. apply list_elem_of_fmap.
    exists {| product_col := col;
              product_name := default col (names !! col);
              probability := Py.round6 q |}.
    split; [done|]. apply list_elem_of_omap. exists (col, q).
    split; [done|]. unfold recommend.
    destruct (Qlt_le_dec 0 q); [done|]. exfalso. lra.
  - (* behind the slice: the ranking is descending *)
    pose proof (sorted_desc_sorted top) as Hsorted.
    rewrite <- (take_drop n (Py.sorted_desc top)) in Hsorted.
    apply StronglySorted_app in Hsorted as (Hcross & _ & _).
    exact (Hcross _ _ Hin Hq).
Qed.

Lemma recommended_have_highest_probabilities_witness :
  let c := Demo.client ∅ 1 in
  let r := {| recommendations :=
                [ {| product_col := "A"; product_name := "Current account";
                     probability := 0.700000%Q |} ];
              n_current_products := 0 |} in
  predict Demo.store Demo.june c = Ok r
  ∧ ("D" ∉ product_col <$> recommendations r)
  ∧ (0.2 <= 0.7)%Q.
Proof.
  intros c r.
  assert (predict Demo.store Demo.june c = Ok r) as Hr
    by (vm_compute; reflexivity).
  assert ("D" ∉ product_col <$> recommendations r) as Hnot.
  { simpl. intros H. apply elem_of_cons in H as [H|H]; [discriminate H|].
    exact (proj1 (elem_of_nil _) H). }
  split; [exact Hr|]. split; [exact Hnot|].
  pose (X := {| columns := ["month"; "age"; "log_renta"; "prev_A";
                            "n_products"; "unused"];
                values := [FInt 6; FFloat (inject_Z 35);
                           FLog1p 234340.0%Q; FInt 0; FInt 0; FInt 0] |}).
  assert (_preprocess Demo.store Demo.june c = Ok X) as HX
    by (vm_compute; reflexivity).
  assert (∃ probs', score Demo.models X ["A"; "B"; "C"; "D"] = Ok probs'
                    ∧ Py.lookup_item "A" probs' = Some 0.7%Q
                    ∧ Py.lookup_item "D" probs' = Some 0.2%Q)
    as (probs' & Hs & HA & HD).
  { eexists. split; [reflexivity|]. split; reflexivity. }
  refine (proj1 (recommended_have_highest_probabilities Demo.store Demo.june c r
                   ["A"; "B"; "C"; "D"] Demo.models X probs'
                   {| product_col := "A"; product_name := "Current account";
                      probability := 0.700000%Q |}
                   "D" 0.7%Q 0.2%Q Hr eq_refl eq_refl HX Hs _ _ Hnot _ _)).
  - by left.
  - in_literal.
  - rewrite exclude_owned_lookup. rewrite decide_False; [exact HA|].
    intros [_ H]. discriminate H.
  - rewrite exclude_owned_lookup. rewrite decide_False; [exact HD|].
    intros [_ H]. discriminate H.
Defined.

(** X15. When [top_k] is at least the size of the catalog nothing is cut
    off: the products recommended are exactly the products of the catalog
    that are left with a probability greater than 0 by the exclusion
    step. *)
Theorem full_request_returns_all_positive store now c r pcs models X probs col :
  predict store now c = Ok r →
  ModelStore.models store = Ok models →
  ModelStore.product_cols store = Ok pcs →
  _preprocess store now c = Ok X →
  score models X pcs = Ok probs →
  Z.of_nat (length pcs) ≤ top_k c →
  col ∈ product_col <$> recommendations r
  ↔ ∃ p, Py.lookup_item col (exclude_owned (prev_products c) pcs probs) = Some p
         ∧ (0 < p)%Q.
Proof.
  intros (models' & pcs' & names & X' & probs' & n
          & Hm' & Hp' & Hn & HX' & Hs' & Hstages)%predict_stages
         Hm Hp HX Hs Hk.
  assert (models' = models) as -> by congruence.
  assert (pcs' = pcs) as -> by congruence.
  assert (X' = X) as -> by congruence.
  assert (probs' = probs) as -> by congruence.
  cbv zeta in Hstages.
  set (top := exclude_owned (prev_products c) pcs probs) in *.
  destruct Hstages as (Hnd & Hkeys & _ & Hn' & Hrecs & _).
  assert (take n (Py.sorted_desc top) = Py.sorted_desc top) as Hall.
  { apply take_ge.
    rewrite (Permutation_length (sorted_desc_perm top)).
    rewrite <- (length_fmap fst top).
    assert (length top.*1 ≤ length pcs)%nat.
    { apply submseteq_length, NoDup_submseteq; [done|].
      intros k Hin. by apply Hkeys. }
    lia. }
  rewrite Hrecs, Hall. split.
  - intros (rec & -> & Hrec)%list_elem_of_fmap.
    apply list_elem_of_omap in Hrec as ([col' p] & Hin & Hrec).
    apply recommend_Some in Hrec as (Hpos & <- & _).
    exists p. split; [|done]. apply lookup_item_elem; [done|].
    by rewrite sorted_desc_perm in Hin.
  - intros (p & Hl & Hpos). apply list_elem_of_fmap.
    exists {| product_col := col;
              product_name := default col (names !! col);
              probability := Py.round6 p |}.
    split; [done|]. apply list_elem_of_omap. exists (col, p). split.
    + rewrite sorted_desc_perm. by apply lookup_item_Some.
    + unfold recommend. destruct (Qlt_le_dec 0 p); [done|]. exfalso. lra.
Qed.

Lemma full_request_returns_all_positive_witness :
  let c := Demo.client {[ "A" := 1 ]} 4 in
  let r := {| recommendations :=
                [ {| product_col := "D"; product_name := "D";
                     probability := 0.200000%Q |};
                  {| product_col := "C"; product_name := "C";
                     probability := 0.000000%Q |} ];
              n_current_products := 1 |} in
  predict Demo.store Demo.june c = Ok r
  ∧ 4 ≤ top_k c
  ∧ ("A" ∉ product_col <$> recommendations r).
Proof.
  intros c r.
  assert (predict Demo.store Demo.june c = Ok r) as Hr
    by (vm_compute; reflexivity).
  split; [exact Hr|]. split; [simpl; lia|].
  pose (X := {| columns := ["month"; "age"; "log_renta"; "prev_A";
                            "n_products"; "unused"];
                values := [FInt 6; FFloat (inject_Z 35);
                           FLog1p 234340.0%Q; FInt 1; FInt 1; FInt 0] |}).
  assert (_preprocess Demo.store Demo.june c = Ok X) as HX
    by (vm_compute; reflexivity).
  assert (∃ probs, score Demo.models X ["A"; "B"; "C"; "D"] = Ok probs)
    as [probs Hs].
  { eexists. reflexivity. }
  intros Hin.
  apply (full_request_returns_all_positive Demo.store Demo.june c r
           ["A"; "B"; "C"; "D"] Demo.models X probs "A"
           Hr eq_refl eq_refl HX Hs) in Hin as (p & Hl & Hpos);
    [|simpl; lia].
  rewrite exclude_owned_lookup in Hl. rewrite decide_True in Hl.
  - injection Hl as <-. by apply Qlt_irrefl in Hpos.
  - split; [in_literal|reflexivity].
Defined.

(** * Properties of the endpoints *)

(** X16. Validation lets a bundle through that lacks the encoder of an
    encoded field; the prediction endpoint then serves no request. It
    answers each one with status 422: with the quoted name of such a field
    when the integers of the request are in the range of a double, and
    with the message of the [OverflowError] of [float] otherwise. Neither
    exception escapes. *)
Theorem uncovered_bundle_answers_422 disk self0 path s encs now c :
  ModelStore.load_model disk self0 path = (s, Ok ()) →
  ModelStore.label_encoders s = Ok encs →
  (∃ name, name ∈ encoded_fields ∧ encs !! name = None) →
  (float_range c →
     ∃ k, k ∈ encoded_fields ∧ encs !! k = None
          ∧ BankPredictor.predict s now c = Raise (KeyError k)
          ∧ Routes.predict (Some s) (Some s) now c
            = Routes.HTTPException 422
                ("Ошибка предсказания: " +:+ "'" +:+ k +:+ "'"))
  ∧ (¬ float_range c →
       BankPredictor.predict s now c
       = Raise (OverflowError "int too large to convert to float")
       ∧ Routes.predict (Some s) (Some s) now c
         = Routes.HTTPException 422
             "Ошибка предсказания: int too large to convert to float").
Proof.
  intros (a & Hd & Hv & ->)%load_model_Ok Hencs (name & Hname & Hnone).
  destruct (valid_bundle_complete a Hv)
    as (models & fcs & tcs & pcs & encs' & names & canal & prov
        & -> & _ & _ & _).
  assert (encs' = encs) as -> by (cbv in Hencs; congruence).
  assert (∀ e,
            build_features pcs encs canal prov now c = Raise e →
            BankPredictor.predict
              {| ModelStore._artifact :=
                   Some {| art_models := Some models;
                           art_feature_cols := Some fcs;
                           art_target_cols := Some tcs;
                           art_product_cols := Some pcs;
                           art_label_encoders := Some encs;
                           art_product_names := Some names;
                           art_top20_canal := Some canal;
                           art_top20_prov := Some prov |};
                 ModelStore._loaded := true |} now c
            = Raise e) as Hpredict.
  { intros e Hraise.
    unfold BankPredictor.predict, _preprocess, ModelStore.models,
      ModelStore.product_cols, ModelStore.product_names,
      ModelStore.feature_cols, ModelStore.label_encoders,
      ModelStore.top20_canal, ModelStore.top20_prov, ModelStore.subscript.
    simpl. by rewrite Hraise. }
  destruct (build_features_outcome pcs encs canal prov now c)
    as [(_ & Hall & _)|[(Hrange & k & Hk & Hknone & Hraise)|[Hbig Hraise]]].
  { destruct (Hall name Hname) as [? ?]. congruence. }
  - split; [|done]. intros _.
    exists k. split; [done|]. split; [done|].
    split; [by apply Hpredict|].
    unfold Routes.predict. simpl. by rewrite (Hpredict _ Hraise).
  - split; [done|]. intros _.
    split; [by apply Hpredict|].
    unfold Routes.predict. simpl. by rewrite (Hpredict _ Hraise).
Qed.

Lemma uncovered_bundle_answers_422_witness :
  ∃ s,
    ModelStore.load_model Demo.uncovered_disk ModelStore.__init__ "uncovered.bin"
    = (s, Ok ())
    ∧ Routes.predict (Some s) (Some s) Demo.june Demo.long_standing
      = Routes.HTTPException 422 "Ошибка предсказания: 'ind_empleado'"
    ∧ Routes.predict (Some s) (Some s) Demo.june Demo.overflowing
      = Routes.HTTPException 422
          "Ошибка предсказания: int too large to convert to float".
Proof.
  assert (is_Ok (ModelStore.load_model Demo.uncovered_disk ModelStore.__init__
                   "uncovered.bin").2 = true) as Hok by (vm_compute; reflexivity).
  destruct (ModelStore.load_model Demo.uncovered_disk ModelStore.__init__
              "uncovered.bin") as [s [[]|e]] eqn:Hload; [|discriminate Hok].
  exists s. split; [reflexivity|].
  pose proof Hload as Hload'.
  apply load_model_Ok in Hload' as (a & Hd & _ & Hs).
  assert (a = Demo.uncovered) as ->.
  { unfold Demo.uncovered_disk in Hd. rewrite lookup_singleton_eq in Hd.
    congruence. }
  assert (ModelStore.label_encoders s = Ok {[ "sexo" := Demo.encoder ]})
    as Hencs by by rewrite Hs.
  assert (∃ name, name ∈ encoded_fields
                  ∧ ({[ "sexo" := Demo.encoder ]} : gmap string LabelEncoder)
                    !! name = None) as Hmissing.
  { exists "nomprov". split; [unfold encoded_fields; in_literal|reflexivity]. }
  destruct (uncovered_bundle_answers_422 _ _ _ s {[ "sexo" := Demo.encoder ]}
              Demo.june Demo.long_standing Hload Hencs Hmissing)
    as [Hkey _].
  destruct (uncovered_bundle_answers_422 _ _ _ s {[ "sexo" := Demo.encoder ]}
              Demo.june Demo.overflowing Hload Hencs Hmissing)
    as [_ Hoverflow].
  split.
  - destruct Hkey as (k & _ & _ & Hraise & Hroute); [float_range_literal|].
    rewrite Hroute. subst s. clear Hroute Hload Hok Hd Hencs Hoverflow.
    assert (k = "ind_empleado") as ->; [|reflexivity].
    vm_compute in Hraise. congruence.
  - apply Hoverflow. intros Hrange.
    assert (fits_float (10 ^ 400)) as Hfits by (apply Hrange; in_literal).
    vm_compute in Hfits. discriminate Hfits.
Defined.

(** X17. On a store just loaded the health endpoint answers [healthy] with
    the counts of [get_stats], and the model endpoint answers the
    collections of the bundle: behind a successful load neither endpoint
    fails. *)
Theorem loaded_store_reports disk self0 path s :
  ModelStore.load_model disk self0 path = (s, Ok ()) →
  ∃ models fcs pcs names,
    ModelStore.models s = Ok models
    ∧ ModelStore.feature_cols s = Ok fcs
    ∧ ModelStore.product_cols s = Ok pcs
    ∧ ModelStore.product_names s = Ok names
    ∧ Routes.health_check (Some s)
      = Routes.Returns
          {| Schemas.status := "healthy"; Schemas.model_loaded := true;
             Schemas.n_models := Z.of_nat (size models);
             Schemas.n_features := Z.of_nat (length fcs);
             Schemas.n_products := Z.of_nat (length pcs) |}
    ∧ Routes.model_info (Some s)
      = Routes.Returns
          {| Schemas.info_n_models := Z.of_nat (size models);
             Schemas.info_feature_cols := fcs;
             Schemas.info_product_cols := pcs;
             Schemas.info_product_names := names |}.
Proof.
  intros (a & Hd & Hv & ->)%load_model_Ok.
  destruct (valid_bundle_complete a Hv)
    as (models & fcs & tcs & pcs & encs & names & canal & prov
        & -> & _ & _ & _).
  exists models, fcs, pcs, names. split_and!; try reflexivity.
  - unfold Routes.health_check, ModelStore.get_stats. simpl.
    unfold Schemas.valid_health. simpl.
    by repeat (rewrite (proj2 (Z.leb_le 0 _)) by lia).
  - unfold Routes.model_info. simpl. unfold Schemas.valid_model_info. simpl.
    by rewrite (proj2 (Z.leb_le 0 _)) by lia.
Qed.

Lemma loaded_store_reports_witness :
  ∃ s,
    ModelStore.load_model Demo.disk ModelStore.__init__ "model.bin" = (s, Ok ())
    ∧ ∃ r, Routes.health_check (Some s) = Routes.Returns r
           ∧ Schemas.status r = "healthy".
Proof.
  assert (is_Ok (ModelStore.load_model Demo.disk ModelStore.__init__
                   "model.bin").2 = true) as Hok by (vm_compute; reflexivity).
  destruct (ModelStore.load_model Demo.disk ModelStore.__init__ "model.bin")
    as [s [[]|e]] eqn:Hload; [|discriminate Hok].
  exists s. split; [reflexivity|].
  destruct (loaded_store_reports _ _ _ _ Hload)
    as (models & fcs & pcs & names & _ & _ & _ & _ & Hhealth & _).
  eexists. split; [exact Hhealth|reflexivity].
Defined.

(** X18. The prediction endpoint returns the result of the predictor as it
    is, and the result passes the response model, for a request within the
    schema ([top_k] at most 22) when no classifier gives a probability above
    1 and no product of the catalog has an empty display name. *)
Theorem prediction_passes_response_model s now c r models pcs names X :
  ModelStore.is_loaded s = true →
  BankPredictor.predict s now c = Ok r →
  ModelStore.models s = Ok models →
  ModelStore.product_cols s = Ok pcs →
  ModelStore.product_names s = Ok names →
  _preprocess s now c = Ok X →
  Schemas.valid_client c = true →
  (∀ col p, scored models X col p → (p <= 1)%Q) →
  (∀ col, col ∈ pcs → default col (names !! col) ≠ "") →
  Schemas.valid_prediction r = true
  ∧ Routes.predict (Some s) (Some s) now c = Routes.Returns r.
Proof.
  intros Hl Hr Hm Hp Hn HX Hc Hle Hnames.
  assert (Schemas.valid_prediction r = true) as Hvalid.
  { apply predict_Ok in Hr
      as (models' & pcs' & names' & X' & probs & Hm' & Hp' & Hn' & HX' & Hs & ->).
    assert (models' = models) as -> by congruence.
    assert (pcs' = pcs) as -> by congruence.
    assert (names' = names) as -> by congruence.
    assert (X' = X) as -> by congruence.
    unfold Schemas.valid_client in Hc.
    repeat (apply andb_true_iff in Hc as [Hc ?]).
    unfold Schemas.valid_prediction. cbn [recommendations n_current_products].
    repeat (apply andb_true_iff; split).
    - apply forallb_forall. intros rec Hrec%list_elem_of_In.
      apply list_elem_of_omap in Hrec as ([col p] & Hin & Hrec).
      apply recommend_Some in Hrec as Hfacts.
      destruct Hfacts as (Hpos & Hcol & Hround).
      eapply ranked_entry in Hin as (Hcolin & _ & Hzero & Hscored);
        [|exact Hs|reflexivity].
      assert (scored models X col p) as Hsc.
      { apply Hscored. intros Ho. rewrite (Hzero Ho) in Hpos.
        by apply Qlt_irrefl in Hpos. }
      unfold Schemas.valid_recommendation.
      repeat (apply andb_true_iff; split).
      + unfold recommend in Hrec. destruct (Qlt_le_dec 0 p); [|done].
        injection Hrec as <-. simpl.
        apply negb_true_iff, String.eqb_neq. by apply Hnames.
      + apply Qle_bool_iff. rewrite Hround.
        apply round6_nonneg. by apply Qlt_le_weak.
      + apply Qle_bool_iff. rewrite Hround.
        eapply Qle_trans; [apply round6_mono, (Hle col p Hsc)|].
        by vm_compute.
    - apply Nat.leb_le.
      destruct (slice_to_take (top_k c)
                  (Py.sorted_desc (exclude_owned (prev_products c) pcs probs)))
        as (n & -> & Hn0).
      etransitivity; [apply length_omap|].
      rewrite length_take.
      assert (n = Z.to_nat (top_k c)) as -> by (apply Hn0; lia).
      lia.
    - apply Z.leb_le. unfold count_owned. lia. }
  split; [done|].
  unfold Routes.predict. rewrite Hl. simpl. by rewrite Hr, Hvalid.
Qed.

Lemma prediction_passes_response_model_witness :
  let c := Demo.client ∅ 1 in
  let r := {| recommendations :=
                [ {| product_col := "A"; product_name := "Current account";
                     probability := 0.500000%Q |} ];
              n_current_products := 0 |} in
  ModelStore.is_loaded Demo.flat_store = true
  ∧ BankPredictor.predict Demo.flat_store Demo.june c = Ok r
  ∧ Schemas.valid_client c = true
  ∧ Routes.predict (Some Demo.flat_store) (Some Demo.flat_store) Demo.june c
    = Routes.Returns r.
Proof.
  intros c r.
  assert (BankPredictor.predict Demo.flat_store Demo.june c = Ok r) as Hr
    by (vm_compute; reflexivity).
  pose (X := {| columns := ["month"; "age"; "log_renta"; "prev_A";
                            "n_products"; "unused"];
                values := [FInt 6; FFloat (inject_Z 35);
                           FLog1p 234340.0%Q; FInt 0; FInt 0; FInt 0] |}).
  assert (_preprocess Demo.flat_store Demo.june c = Ok X) as HX
    by (vm_compute; reflexivity).
  split; [reflexivity|]. split; [exact Hr|]. split; [reflexivity|].
  refine (proj2 (prediction_passes_response_model Demo.flat_store Demo.june c r
                   _ ["A"; "B"; "C"; "D"] {[ "A" := "Current account" ]} X
                   eq_refl Hr eq_refl eq_refl eq_refl HX eq_refl _ _)).
  - intros col p (model & prob & Hmodel & Hprob & Hp).
    repeat (rewrite lookup_insert in Hmodel; case_decide;
            [injection Hmodel as <-; injection Hprob as <-;
             injection Hp as <-; by vm_compute|]).
    rewrite lookup_empty in Hmodel. discriminate Hmodel.
  - intros col Hcol.
    repeat (apply elem_of_cons in Hcol as [->|Hcol]; [by vm_compute|]).
    exfalso. exact (proj1 (elem_of_nil _) Hcol).
Defined.
